(** * log_analyzer: a shallow embedding of the four-stage pipeline

    ingestion -> parsing -> normalization -> clustering, with the
    aggregation that builds the final [AnalysisResult], the handler of
    the HTTP endpoint that runs the pipeline, and the word wrap of the
    command-line report.

    Python [str] is a list of Unicode code points, [bytes] a list of
    octets, [int] is [Z].  Library code the program calls (the Unicode
    character database, [json], scikit-learn, [gzip], the clock, the
    summarisation service and the web framework's rendering) is taken as
    section variables; the regular expressions of the program are run
    by a backtracking matcher that follows Python's [re] on the
    constructs the program uses.  A function that can let an exception
    escape returns an [option], [None] standing for the exception. *)

From Stdlib Require Import String Ascii.
From Stdlib Require Import List ZArith NArith Bool Arith Lia.
From Stdlib Require Import Permutation Sorted DecimalString.
Import ListNotations.

Set Warnings "-abstract-large-number".

(** ** Strings *)

Definition char := N.
Definition str := list char.
Definition bytes := list N.

Definition lit (s : string) : str :=
  map N_of_ascii (list_ascii_of_string s).

Definition QUOTE : char := 34%N.
Definition APOS : char := 39%N.
Definition NL : char := 10%N.
Definition SPACE : char := 32%N.
Definition TAB : char := 9%N.

Fixpoint str_eqb (a b : str) : bool :=
  match a, b with
  | [], [] => true
  | x :: a', y :: b' => N.eqb x y && str_eqb a' b'
  | _, _ => false
  end.

Fixpoint startswith (s prefix : str) : bool :=
  match prefix, s with
  | [], _ => true
  | p :: prefix', c :: s' => N.eqb p c && startswith s' prefix'
  | _ :: _, [] => false
  end.

Definition endswith (s suffix : str) : bool :=
  startswith (rev s) (rev suffix).

(** [sub in s] *)
Fixpoint contains (s sub : str) : bool :=
  startswith s sub ||
  match s with
  | [] => false
  | _ :: s' => contains s' sub
  end.

(** [sep.join(parts)] *)
Fixpoint join (sep : str) (parts : list str) : str :=
  match parts with
  | [] => []
  | [p] => p
  | p :: rest => p ++ sep ++ join sep rest
  end.

(** [s.split('\n')], as the pair (all pieces but the last, last piece):
    Python's result is never empty, [lines[:-1]] is the first component
    and [lines[-1]] the second. *)
Fixpoint split_nl (s : str) : list str * str :=
  match s with
  | [] => ([], [])
  | c :: s' =>
      let '(ls, last) := split_nl s' in
      if N.eqb c NL then ([] :: ls, last)
      else match ls with
           | [] => ([], c :: last)
           | l :: ls' => ((c :: l) :: ls', last)
           end
  end.

(** ** The Unicode character database

    Python 3 classifies and case-maps [str] by the Unicode database.  On
    ASCII the definitions below are explicit; above ASCII the decimal
    digits, the alphanumerics and the case mappings come from a
    [UnicodeData] record.  White space is the fixed set [str.isspace]
    accepts. *)

Record UnicodeData : Type := {
  uni_decimal : char -> bool;   (* category Nd: [\d] *)
  uni_alnum : char -> bool;     (* [str.isalnum]: [\w], [\b] *)
  uni_lower : str -> str;       (* [str.lower] *)
  uni_upper : str -> str        (* [str.upper] *)
}.

Definition in_range (lo hi c : N) : bool := (N.leb lo c && N.leb c hi)%N.

Definition is_ascii (c : char) : bool := N.ltb c 128.

Definition ascii_digit (c : char) : bool := in_range 48 57 c.
Definition ascii_upper (c : char) : bool := in_range 65 90 c.
Definition ascii_lower (c : char) : bool := in_range 97 122 c.
Definition ascii_alpha (c : char) : bool := ascii_upper c || ascii_lower c.
Definition hex_digit (c : char) : bool :=
  ascii_digit c || in_range 97 102 c || in_range 65 70 c.

Definition to_lower_ascii (c : char) : char :=
  if ascii_upper c then (c + 32)%N else c.
Definition to_upper_ascii (c : char) : char :=
  if ascii_lower c then (c - 32)%N else c.

(** [str.isspace] of one code point, also [\s] of a [str] pattern. *)
Definition is_space (c : char) : bool :=
  in_range 9 13 c || in_range 28 32 c || N.eqb c 133 || N.eqb c 160 ||
  N.eqb c 5760 || in_range 8192 8202 c || N.eqb c 8232 || N.eqb c 8233 ||
  N.eqb c 8239 || N.eqb c 8287 || N.eqb c 12288.

(** A database with nothing above ASCII, and a vectorizer and a
    labelling that stand in for scikit-learn on small inputs: a text is
    its own row, a corpus of empty texts is rejected, and row [i] gets
    label [i mod n_clusters]. *)
Definition ascii_only : UnicodeData :=
  {| uni_decimal := fun _ => false;
     uni_alnum := fun _ => false;
     uni_lower := fun s => s;
     uni_upper := fun s => s |}.

Definition rows_fit_transform (max_features : Z) (texts : list str) : option (list str) :=
  if forallb (fun t => match t with [] => true | _ => false end) texts
  then None else Some texts.

Definition rows_fit_predict (n_clusters batch_size : Z) (rows : list str) : list Z :=
  map (fun i => (Z.of_nat i mod n_clusters)%Z) (seq 0 (length rows)).

Definition rows_feature_names (rows : list str) : list str := [].

Definition rows_top_mean_features (names : list str) (rows : list str)
  (indices : list nat) : list str := [].

Section Pipeline.

Variable U : UnicodeData.

Definition is_digit (c : char) : bool :=
  if is_ascii c then ascii_digit c else uni_decimal U c.

Definition is_word (c : char) : bool :=
  if is_ascii c then ascii_alpha c || ascii_digit c || N.eqb c 95
  else uni_alnum U c.

Definition lower (s : str) : str :=
  if forallb is_ascii s then map to_lower_ascii s else uni_lower U s.

Definition upper (s : str) : str :=
  if forallb is_ascii s then map to_upper_ascii s else uni_upper U s.

Fixpoint lstrip (s : str) : str :=
  match s with
  | c :: s' => if is_space c then lstrip s' else s
  | [] => []
  end.

Definition rstrip (s : str) : str := rev (lstrip (rev s)).

(** [s.strip()] *)
Definition strip (s : str) : str := rstrip (lstrip s).

(** ** Regular expressions

    The constructs of Python's [re] that the program's patterns use.  A
    position is a zipper over the subject: the text before it (reversed)
    and the text after it, so that [\b] and look-behind read the original
    subject.  Matching is by backtracking with an explicit continuation,
    alternatives and greedy repetitions tried in Python's order. *)

Record pos : Type := Pos { before : str; after : str }.

Definition groups := list (nat * str).
Definition result := (pos * groups)%type.

Inductive re : Type :=
| Eps
| Cls (c : char -> bool)          (* a literal, a class or an escape *)
| Seq (r1 r2 : re)
| Alt (r1 r2 : re)                (* r1|r2 *)
| Star (r : re)                   (* r*, greedy *)
| Bol                             (* ^ *)
| Eol                             (* $ *)
| WordB                           (* \b *)
| Ahead (r : re)                  (* (?=r) *)
| Behind (cs : list (char -> bool))   (* (?<=...) of fixed width *)
| Group (n : nat) (r : re)        (* the n-th capturing group *)
| Backref (n : nat).              (* \n *)

Fixpoint group_get (n : nat) (g : groups) : option str :=
  match g with
  | [] => None
  | (i, t) :: g' => if Nat.eqb i n then Some t else group_get n g'
  end.

(** The text between two positions of one subject. *)
Definition consumed (p p' : pos) : str :=
  firstn (length (after p) - length (after p')) (after p).

Fixpoint behind_ok (rcs : list (char -> bool)) (b : str) : bool :=
  match rcs, b with
  | [], _ => true
  | c :: rcs', x :: b' => c x && behind_ok rcs' b'
  | _ :: _, [] => false
  end.

Definition at_word_boundary (p : pos) : bool :=
  xorb (match before p with x :: _ => is_word x | [] => false end)
       (match after p with x :: _ => is_word x | [] => false end).

Definition ret : pos -> groups -> option result := fun p g => Some (p, g).

(** The loop of a greedy star over a body matcher: one more iteration
    when the body matches and consumes something, else the rest of the
    pattern.  [fuel] is more than the length of the text that is left. *)
Fixpoint star_loop
  (body : pos -> groups -> (pos -> groups -> option result) -> option result)
  (k : pos -> groups -> option result) (fuel : nat) (p : pos) (g : groups)
  {struct fuel} : option result :=
  match fuel with
  | O => k p g
  | S fuel' =>
      match body p g (fun p' g' =>
              if length (after p') <? length (after p)
              then star_loop body k fuel' p' g' else None) with
      | Some x => Some x
      | None => k p g
      end
  end.

Fixpoint m (r : re) (p : pos) (g : groups)
  (k : pos -> groups -> option result) {struct r} : option result :=
  match r with
  | Eps => k p g
  | Cls c =>
      match after p with
      | x :: rest => if c x then k (Pos (x :: before p) rest) g else None
      | [] => None
      end
  | Seq r1 r2 => m r1 p g (fun p' g' => m r2 p' g' k)
  | Alt r1 r2 =>
      match m r1 p g k with
      | Some x => Some x
      | None => m r2 p g k
      end
  | Star r' => star_loop (m r') k (S (length (after p))) p g
  | Bol => match before p with [] => k p g | _ :: _ => None end
  | Eol =>
      match after p with
      | [] => k p g
      | [c] => if N.eqb c NL then k p g else None
      | _ => None
      end
  | WordB => if at_word_boundary p then k p g else None
  | Ahead r' =>
      match m r' p g ret with
      | Some (_, g') => k p g'
      | None => None
      end
  | Behind cs => if behind_ok (rev cs) (before p) then k p g else None
  | Group n r' => m r' p g (fun p' g' => k p' ((n, consumed p p') :: g'))
  | Backref n =>
      match group_get n g with
      | Some t =>
          if startswith (after p) t
          then k (Pos (rev t ++ before p) (skipn (length t) (after p))) g
          else None
      | None => None
      end
  end.

(** Derived forms. *)
Definition Chr (c : char) : re := Cls (N.eqb c).
Definition Plus (r : re) : re := Seq r (Star r).
Definition Opt (r : re) : re := Alt r Eps.

Fixpoint Lit (s : str) : re :=
  match s with
  | [] => Eps
  | [c] => Chr c
  | c :: s' => Seq (Chr c) (Lit s')
  end.

(** r{n} *)
Fixpoint Times (n : nat) (r : re) : re :=
  match n with
  | O => Eps
  | 1 => r
  | S n' => Seq r (Times n' r)
  end.

(** r{0,n}, greedy *)
Fixpoint Upto (n : nat) (r : re) : re :=
  match n with
  | O => Eps
  | S n' => Alt (Seq r (Upto n' r)) Eps
  end.

(** r{lo,hi} and r{lo,} *)
Definition Range (lo hi : nat) (r : re) : re := Seq (Times lo r) (Upto (hi - lo) r).
Definition AtLeast (lo : nat) (r : re) : re := Seq (Times lo r) (Star r).

Fixpoint Alts (rs : list re) : re :=
  match rs with
  | [] => Cls (fun _ => false)
  | [r] => r
  | r :: rs' => Alt r (Alts rs')
  end.

Fixpoint Seqs (rs : list re) : re :=
  match rs with
  | [] => Eps
  | [r] => r
  | r :: rs' => Seq r (Seqs rs')
  end.

(** A literal character under [re.IGNORECASE] ([c] is an ASCII letter of
    the pattern): both cases, and the four non-ASCII letters that fold
    onto i, k and s. *)
Definition caseless (c x : char) : bool :=
  N.eqb (to_lower_ascii x) (to_lower_ascii c) ||
  (N.eqb (to_lower_ascii c) 105 && (N.eqb x 304 || N.eqb x 305)) ||
  (N.eqb (to_lower_ascii c) 107 && N.eqb x 8490) ||
  (N.eqb (to_lower_ascii c) 115 && N.eqb x 383).

Definition LitI (s : str) : re := Seqs (map (fun c => Cls (caseless c)) s).

(** [pattern.match(s)]: a match at the start of [s]. *)
Definition re_match (r : re) (s : str) : option result := m r (Pos [] s) [] ret.

(** [pattern.search]: the leftmost position where a match starts, with
    the position where it ends. *)
Fixpoint search_from (r : re) (b a : str) : option (pos * pos * groups) :=
  match m r (Pos b a) [] ret with
  | Some (p', g) => Some (Pos b a, p', g)
  | None =>
      match a with
      | [] => None
      | c :: a' => search_from r (c :: b) a'
      end
  end.

Definition re_search (r : re) (s : str) : option (pos * pos * groups) :=
  search_from r [] s.

(** A replacement template: literal text, or [\n]. *)
Inductive repl : Type :=
| RLit (s : str)
| RGroup (n : nat).

Definition expand (t : repl) (g : groups) : str :=
  match t with
  | RLit s => s
  | RGroup n => match group_get n g with Some s => s | None => [] end
  end.

(** [pattern.sub(repl, s)]: every non-overlapping match, left to right.
    After an empty match the scan moves one character on (no pattern of
    this program matches the empty string). *)
Fixpoint sub_loop (fuel : nat) (r : re) (t : repl) (p : pos) : str :=
  match fuel with
  | O => after p
  | S fuel' =>
      match search_from r (before p) (after p) with
      | None => after p
      | Some (p0, p1, g) =>
          consumed p p0 ++ expand t g ++
          (if length (after p1) <? length (after p0)
           then sub_loop fuel' r t p1
           else match after p1 with
                | [] => []
                | c :: rest => c :: sub_loop fuel' r t (Pos (c :: before p1) rest)
                end)
      end
  end.

Definition re_sub (r : re) (t : repl) (s : str) : str :=
  sub_loop (S (length s)) r t (Pos [] s).

(** [pattern.findall(s)] for a pattern without groups. *)
Fixpoint findall_loop (fuel : nat) (r : re) (p : pos) : list str :=
  match fuel with
  | O => []
  | S fuel' =>
      match search_from r (before p) (after p) with
      | None => []
      | Some (p0, p1, _) =>
          consumed p0 p1 ::
          (if length (after p1) <? length (after p0)
           then findall_loop fuel' r p1
           else match after p1 with
                | [] => []
                | c :: rest => findall_loop fuel' r (Pos (c :: before p1) rest)
                end)
      end
  end.

Definition re_findall (r : re) (s : str) : list str :=
  findall_loop (S (length s)) r (Pos [] s).

Definition any_of (s : str) (c : char) : bool := existsb (N.eqb c) s.

Definition D : re := Cls is_digit.
Definition W : re := Cls is_word.
Definition S_ : re := Cls is_space.
Definition HEX : re := Cls hex_digit.

Definition ch (a : ascii) : char := N_of_ascii a.
Definition C (a : ascii) : re := Chr (ch a).
Definition L (s : string) : re := Lit (lit s).

(** ** models.py *)

Inductive LogLevel : Type :=
| TRACE | DEBUG | INFO | WARN | ERROR | FATAL | UNKNOWN.

Definition LogLevel_value (l : LogLevel) : Z :=
  match l with
  | TRACE => 0 | DEBUG => 1 | INFO => 2 | WARN => 3
  | ERROR => 4 | FATAL => 5 | UNKNOWN => -1
  end.

Definition LogLevel_eqb (a b : LogLevel) : bool :=
  Z.eqb (LogLevel_value a) (LogLevel_value b).

Definition level_map : list (str * LogLevel) :=
  [ (lit "TRACE", TRACE); (lit "DEBUG", DEBUG); (lit "INFO", INFO);
    (lit "INFORMATION", INFO); (lit "WARN", WARN); (lit "WARNING", WARN);
    (lit "ERROR", ERROR); (lit "ERR", ERROR); (lit "FATAL", FATAL);
    (lit "CRITICAL", FATAL); (lit "CRIT", FATAL); (lit "SEVERE", FATAL);
    (lit "PANIC", FATAL) ].

Fixpoint assoc_get {A : Type} (key : str) (d : list (str * A)) : option A :=
  match d with
  | [] => None
  | (k, v) :: d' => if str_eqb k key then Some v else assoc_get key d'
  end.

(** [LogLevel.from_string] *)
Definition from_string (level_str : str) : LogLevel :=
  match level_str with
  | [] => UNKNOWN
  | _ =>
      let normalized := strip (upper level_str) in
      match assoc_get normalized level_map with
      | Some l => l
      | None => UNKNOWN
      end
  end.

Record ParsedLogEntry : Type := {
  raw_line : str;
  line_number : Z;
  level : LogLevel;
  message : str;
  timestamp : option str;
  logger : option str;
  exception : option str;
  is_multiline : bool
}.

Definition is_error (e : ParsedLogEntry) : bool :=
  match level e with ERROR | FATAL => true | _ => false end.

(** [bool(self.exception)]: [None] and the empty string are false. *)
Definition has_exception (e : ParsedLogEntry) : bool :=
  match exception e with
  | Some (_ :: _) => true
  | _ => false
  end.

Record ErrorTemplate : Type := {
  template : str;
  original_messages : list str;
  count : Z;
  first_occurrence_line : Z
}.

(** [ErrorTemplate.add_occurrence] *)
Definition add_occurrence (t : ErrorTemplate) (msg : str) (line : Z) : ErrorTemplate :=
  {| template := template t;
     original_messages :=
       if length (original_messages t) <? 3
       then original_messages t ++ [msg] else original_messages t;
     count := count t + 1;
     first_occurrence_line :=
       if Z.eqb (first_occurrence_line t) 0 then line else first_occurrence_line t |}.

Record ErrorCluster : Type := {
  cluster_id : Z;
  templates : list ErrorTemplate;
  total_count : Z;
  keywords : list str;
  representative_sample : str
}.

(** ** normalization.py *)

Definition DATE : re :=
  Seqs [Times 4 D; C "-"; Times 2 D; C "-"; Times 2 D].
Definition CLOCK : re :=
  Seqs [Times 2 D; C ":"; Times 2 D; C ":"; Times 2 D].

(** \d{4}-\d{2}-\d{2}T\d{2}:\d{2}:\d{2}(?:\.\d+)?(?:Z|[+-]\d{2}:?\d{2})? *)
Definition ISO8601 : re :=
  Seqs [DATE; C "T"; CLOCK; Opt (Seq (C ".") (Plus D));
        Opt (Alt (C "Z")
                 (Seqs [Cls (any_of (lit "+-")); Times 2 D; Opt (C ":"); Times 2 D]))].

Definition word_or (extra : string) (c : char) : bool :=
  is_word c || any_of (lit extra) c.

Definition VARIABLE_PATTERNS : list (re * str) :=
  [ (* [0-9a-fA-F]{8}-[0-9a-fA-F]{4}-[0-9a-fA-F]{4}-[0-9a-fA-F]{4}-[0-9a-fA-F]{12} *)
    (Seqs [Times 8 HEX; C "-"; Times 4 HEX; C "-"; Times 4 HEX; C "-";
           Times 4 HEX; C "-"; Times 12 HEX], lit "<UUID>");
    (* [0-9a-fA-F]{24} *)
    (Times 24 HEX, lit "<OBJECT_ID>");
    (* \b[0-9a-fA-F]{40}\b and \b[0-9a-fA-F]{64}\b *)
    (Seqs [WordB; Times 40 HEX; WordB], lit "<SHA>");
    (Seqs [WordB; Times 64 HEX; WordB], lit "<SHA256>");
    (* \b(?:\d{1,3}\.){3}\d{1,3}\b *)
    (Seqs [WordB; Times 3 (Seq (Range 1 3 D) (C ".")); Range 1 3 D; WordB],
     lit "<IP>");
    (* \b(?:[0-9a-fA-F]{1,4}:){7}[0-9a-fA-F]{1,4}\b *)
    (Seqs [WordB; Times 7 (Seq (Range 1 4 HEX) (C ":")); Range 1 4 HEX; WordB],
     lit "<IPv6>");
    (* https?://[^\s<>...]+ where ... is the double and the single quote *)
    (Seqs [L "http"; Opt (C "s"); L "://";
           Plus (Cls (fun c => negb (is_space c || any_of [ch "<"; ch ">"; QUOTE; APOS] c)))],
     lit "<URL>");
    (* /[\w\-./]+(?:\.\w+)? *)
    (Seqs [C "/"; Plus (Cls (word_or "-./")); Opt (Seq (C ".") (Plus W))],
     lit "<PATH>");
    (* \b[\w.+-]+@[\w.-]+\.\w+\b *)
    (Seqs [WordB; Plus (Cls (word_or ".+-")); C "@"; Plus (Cls (word_or ".-"));
           C "."; Plus W; WordB], lit "<EMAIL>");
    (ISO8601, lit "<TIMESTAMP>");
    (* \d{4}-\d{2}-\d{2}\s+\d{2}:\d{2}:\d{2}(?:[,\.]\d+)? *)
    (Seqs [DATE; Plus S_; CLOCK; Opt (Seq (Cls (any_of (lit ",."))) (Plus D))],
     lit "<TIMESTAMP>");
    (* \d{2}/\w{3}/\d{4}:\d{2}:\d{2}:\d{2} *)
    (Seqs [Times 2 D; C "/"; Times 3 W; C "/"; Times 4 D; C ":"; CLOCK],
     lit "<TIMESTAMP>");
    (* \d+(?:\.\d+)?(?:ms|s|m|h|ns|µs) *)
    (Seqs [Plus D; Opt (Seq (C ".") (Plus D));
           Alts [L "ms"; C "s"; C "m"; C "h"; L "ns"; Seq (Chr 181%N) (C "s")]],
     lit "<DURATION>");
    (* \b0x[0-9a-fA-F]+\b *)
    (Seqs [WordB; L "0x"; Plus HEX; WordB], lit "<HEX>");
    (* \b\d{6,}\b *)
    (Seqs [WordB; AtLeast 6 D; WordB], lit "<ID>");
    (* (?<=port\s)\d+ *)
    (Seq (Behind [N.eqb (ch "p"); N.eqb (ch "o"); N.eqb (ch "r"); N.eqb (ch "t"); is_space])
         (Plus D), lit "<PORT>");
    (* (?<=:\s)\d+(?=\s|$|,) *)
    (Seqs [Behind [N.eqb (ch ":"); is_space]; Plus D; Ahead (Alts [S_; Eol; C ","])],
     lit "<NUM>");
    (* (?<==)\d+ *)
    (Seq (Behind [N.eqb (ch "=")]) (Plus D), lit "<NUM>");
    (* \b[A-Za-z0-9]{20,}\b *)
    (Seqs [WordB; AtLeast 20 (Cls (fun c => ascii_alpha c || ascii_digit c)); WordB],
     lit "<REQUEST_ID>") ].

Definition ERROR_KEYWORDS : list str :=
  map lit [ "error"; "exception"; "fail"; "fatal"; "panic"; "crash";
            "traceback"; "timeout"; "refused"; "denied"; "unauthorized";
            "forbidden"; "not found"; "null"; "undefined"; "invalid";
            "cannot"; "unable"; "could not"; "failed to" ]%string.

(** (<\w+>)(\s*\1)+ *)
Definition REPEATED_PLACEHOLDER : re :=
  Seq (Group 1 (Seqs [C "<"; Plus W; C ">"]))
      (Plus (Group 2 (Seq (Star S_) (Backref 1)))).

(** \s+ *)
Definition WHITESPACE : re := Plus S_.

Definition apply_patterns (ps : list (re * str)) (s : str) : str :=
  fold_left (fun acc rule => re_sub (fst rule) (RLit (snd rule)) acc) ps s.

(** [LogNormalizer.normalize_message] *)
Definition normalize_message (message : str) : str :=
  let normalized := apply_patterns VARIABLE_PATTERNS message in
  let normalized := re_sub REPEATED_PLACEHOLDER (RGroup 1) normalized in
  strip (re_sub WHITESPACE (RLit (lit " ")) normalized).

(** ** parsing.py *)

(** \d{4}-\d{2}-\d{2}\s+\d{2}:\d{2}:\d{2} *)
Definition DATE_CLOCK : re := Seqs [DATE; Plus S_; CLOCK].

Definition TIMESTAMP_PATTERNS : list re :=
  [ ISO8601;
    (* \d{4}-\d{2}-\d{2}\s+\d{2}:\d{2}:\d{2}[,\.]\d{3} *)
    Seqs [DATE_CLOCK; Cls (any_of (lit ",.")); Times 3 D];
    (* \d{4}/\d{2}/\d{2}\s+\d{2}:\d{2}:\d{2} *)
    Seqs [Times 4 D; C "/"; Times 2 D; C "/"; Times 2 D; Plus S_; CLOCK];
    (* \[\d{10,13}\] *)
    Seqs [C "["; Range 10 13 D; C "]"];
    (* \[\d{4}-\d{2}-\d{2}\s+\d{2}:\d{2}:\d{2}(?:[,\.]\d+)?\] *)
    Seqs [C "["; DATE_CLOCK; Opt (Seq (Cls (any_of (lit ",."))) (Plus D)); C "]"] ].

Fixpoint number_groups (n : nat) (rs : list re) : list re :=
  match rs with
  | [] => []
  | r :: rs' => Group n r :: number_groups (S n) rs'
  end.

(** '|'.join(f'({p})' for p in TIMESTAMP_PATTERNS) *)
Definition TIMESTAMP_REGEX : re := Alts (number_groups 1 TIMESTAMP_PATTERNS).

(** \b(TRACE|DEBUG|...|PANIC)\b with re.IGNORECASE *)
Definition LOG_LEVEL_PATTERN : re :=
  Seqs [WordB;
        Group 1 (Alts (map (fun s => LitI (lit s))
          [ "TRACE"; "DEBUG"; "INFO"; "INFORMATION"; "WARN"; "WARNING"; "ERROR";
            "ERR"; "FATAL"; "CRITICAL"; "CRIT"; "SEVERE"; "PANIC" ]%string));
        WordB].

(** . *)
Definition DOT : re := Cls (fun c => negb (N.eqb c NL)).

Definition EXCEPTION_PATTERNS : list re :=
  [ (* ^\s*Traceback \(most recent call last\): with re.IGNORECASE *)
    Seqs [Bol; Star S_; LitI (lit "Traceback (most recent call last):")];
    (* ^\s*at\s+[\w\.$]+\([\w]+\.\w+:\d+\) *)
    Seqs [Bol; Star S_; L "at"; Plus S_; Plus (Cls (word_or ".$")); C "(";
          Plus W; C "."; Plus W; C ":"; Plus D; C ")"];
    (* ^\s*File QUOTE.*QUOTE, line \d+ *)
    Seqs [Bol; Star S_; L "File "; Chr QUOTE; Star DOT; Chr QUOTE; L ", line "; Plus D];
    (* ^\s+at\s+.*\(.*:\d+:\d+\) *)
    Seqs [Bol; Plus S_; L "at"; Plus S_; Star DOT; C "("; Star DOT; C ":";
          Plus D; C ":"; Plus D; C ")"];
    (* Exception|Error|Throwable with re.IGNORECASE *)
    Alts [LitI (lit "Exception"); LitI (lit "Error"); LitI (lit "Throwable")] ].

Definition CONTINUATION_PATTERNS : list re :=
  [ (* ^\s+at\s+ *)
    Seqs [Bol; Plus S_; L "at"; Plus S_];
    (* ^\s+File\s+QUOTE *)
    Seqs [Bol; Plus S_; L "File"; Plus S_; Chr QUOTE];
    (* ^\s+\w+Error: *)
    Seqs [Bol; Plus S_; Plus W; L "Error:"];
    (* ^\s{4,} *)
    Seqs [Bol; AtLeast 4 S_];
    (* ^\t+ *)
    Seqs [Bol; Plus (Chr TAB)];
    (* ^\s*\.\.\.\s*\d+\s+more *)
    Seqs [Bol; Star S_; L "..."; Star S_; Plus D; Plus S_; L "more"];
    (* ^\s*Caused by: *)
    Seqs [Bol; Star S_; L "Caused by:"] ].

Definition is_some {A : Type} (o : option A) : bool :=
  match o with Some _ => true | None => false end.

Definition matches (r : re) (s : str) : bool := is_some (re_match r s).
Definition found (r : re) (s : str) : bool := is_some (re_search r s).

(** *** JSON lines

    [json.loads] and the printing of Python values belong to the
    library; the values a JSON document decodes to are modelled, a float
    by whether it is zero and by its printed form.  [json.loads] returns
    a value or raises: [json.JSONDecodeError] on a text that is no JSON
    document, and exceptions of other classes on some texts that are
    ([ValueError] on an integer literal of more than 4300 digits,
    [RecursionError] on deep nesting). *)

#[local] Unset Elimination Schemes.
Inductive pyval : Type :=
| PNone
| PBool (b : bool)
| PInt (z : Z)
| PFloat (is_zero : bool) (printed : str)
| PStr (s : str)
| PList (l : list pyval)
| PDict (d : list (str * pyval)).
#[local] Set Elimination Schemes.

Inductive json_outcome : Type :=
| Loaded (data : pyval)
| JSONDecodeError
| OtherError.                                (* ValueError, RecursionError *)

Variable json_loads : str -> json_outcome.
Variable py_repr : pyval -> str.             (* str() of a list or a dict *)
Variable json_dumps : pyval -> str.

Definition str_of_Z (z : Z) : str := lit (NilZero.string_of_int (Z.to_int z)).

Definition truthy (v : pyval) : bool :=
  match v with
  | PNone => false
  | PBool b => b
  | PInt z => negb (Z.eqb z 0)
  | PFloat is_zero _ => negb is_zero
  | PStr s => match s with [] => false | _ => true end
  | PList l => match l with [] => false | _ => true end
  | PDict d => match d with [] => false | _ => true end
  end.

(** [str(v)] *)
Definition py_str (v : pyval) : str :=
  match v with
  | PNone => lit "None"
  | PBool true => lit "True"
  | PBool false => lit "False"
  | PInt z => str_of_Z z
  | PFloat _ printed => printed
  | PStr s => s
  | PList _ | PDict _ => py_repr v
  end.

(** [data.get(key)] *)
Definition dict_get (d : list (str * pyval)) (key : string) : pyval :=
  match assoc_get (lit key) d with
  | Some v => v
  | None => PNone
  end.

(** [data.get(k1) or data.get(k2) or ... or default] *)
Fixpoint first_truthy (d : list (str * pyval)) (keys : list string) (default : pyval) : pyval :=
  match keys with
  | [] => default
  | k :: keys' => if truthy (dict_get d k) then dict_get d k else first_truthy d keys' default
  end.

Definition opt_str (v : pyval) : option str :=
  if truthy v then Some (py_str v) else None.

(** [LogParser._parse_json_line].  The [try] catches
    [json.JSONDecodeError] only: on another exception of [json.loads]
    the method raises, which is the outer [None]; [Some None] is the
    [None] the method returns. *)
Definition _parse_json_line (line : str) (line_num : Z) : option (option ParsedLogEntry) :=
  match json_loads line with
  | Loaded (PDict data) =>
      let level_str := first_truthy data ["level"; "severity"; "log_level"; "lvl"]%string (PStr []) in
      let message := first_truthy data ["message"; "msg"; "text"; "@message"]%string
                       (PStr (py_str (PDict data))) in
      let timestamp := first_truthy data ["timestamp"; "time"; "@timestamp"; "ts"]%string PNone in
      let logger := first_truthy data ["logger"; "name"; "source"]%string PNone in
      let exception :=
        first_truthy data ["exception"; "error"; "stack_trace"; "stacktrace"; "err"]%string PNone in
      let exception :=
        match exception with PDict _ => PStr (json_dumps exception) | _ => exception end in
      Some (Some {| raw_line := line;
                    line_number := line_num;
                    level := from_string (py_str level_str);
                    message := py_str message;
                    timestamp := opt_str timestamp;
                    logger := opt_str logger;
                    exception := opt_str exception;
                    is_multiline := false |})
  | Loaded _ => Some None
  | JSONDecodeError => Some None
  | OtherError => None
  end.

(** [LogParser._parse_plain_line] *)
Definition _parse_plain_line (line : str) (line_num : Z) : ParsedLogEntry :=
  let timestamp :=
    match re_search TIMESTAMP_REGEX line with
    | Some (p0, p1, _) => Some (consumed p0 p1)
    | None => None
    end in
  let level_match := re_search LOG_LEVEL_PATTERN line in
  let level :=
    match level_match with
    | Some (p0, p1, _) => from_string (consumed p0 p1)
    | None => UNKNOWN
    end in
  let message :=
    match level_match with
    | Some (_, p1, _) =>
        let parts := strip (after p1) in
        match parts with
        | [] => line
        | _ => (* re.sub(r'^[\s\-:\]]+', '', parts) *)
            re_sub (Seq Bol (Plus (Cls (fun c => is_space c || any_of (lit "-:]") c))))
                   (RLit []) parts
        end
    | None => line
    end in
  let is_exc := existsb (fun pattern => found pattern line) EXCEPTION_PATTERNS in
  {| raw_line := line;
     line_number := line_num;
     level := if is_exc then match level with UNKNOWN => ERROR | l => l end else level;
     message := message;
     timestamp := timestamp;
     logger := None;
     exception := if is_exc then Some line else None;
     is_multiline := false |}.

(** [LogParser._parse_single_line]; [None] when [_parse_json_line]
    raises. *)
Definition _parse_single_line (line : str) (line_num : Z) : option ParsedLogEntry :=
  let stripped := strip line in
  if startswith stripped (lit "{") then
    match _parse_json_line stripped line_num with
    | Some (Some entry) => Some entry
    | Some None => Some (_parse_plain_line line line_num)
    | None => None
    end
  else Some (_parse_plain_line line line_num).

(** [LogParser._is_continuation_line] *)
Definition _is_continuation_line (line : str) : bool :=
  if existsb (fun pattern => matches pattern line) CONTINUATION_PATTERNS then true
  else if negb (matches TIMESTAMP_REGEX (strip line)) then
    let stripped := strip line in
    match stripped with
    | [] => false
    | _ =>
        if negb (matches LOG_LEVEL_PATTERN (firstn 20 stripped)) then
          startswith line [SPACE] || startswith line [TAB]
        else false
    end
  else false.

(** [LogParser._might_have_continuation] *)
Definition _might_have_continuation (entry : ParsedLogEntry) : bool :=
  if has_exception entry then true
  else if is_error entry then true
  else
    let message_lower := lower (message entry) in
    existsb (fun kw => contains message_lower (lit kw))
      ["exception"; "error"; "traceback"; "stack"; "caused by"]%string.

(** [LogParser._append_to_multiline], on the pending entry. *)
Definition _append_to_multiline (pending : ParsedLogEntry) (line : str) : ParsedLogEntry :=
  {| raw_line := raw_line pending ++ [NL] ++ line;
     line_number := line_number pending;
     level := level pending;
     message := message pending;
     timestamp := timestamp pending;
     logger := logger pending;
     exception :=
       if has_exception pending then
         match exception pending with
         | Some e => Some (e ++ [NL] ++ line)
         | None => None
         end
       else if existsb (fun pattern => found pattern line) EXCEPTION_PATTERNS
            then Some line else exception pending;
     is_multiline := true |}.

(** The parser's state while it reads: the pending multiline entry,
    the entries yielded so far, and whether an exception has ended the
    generator. *)
Record parser_state : Type := {
  _pending_multiline : option ParsedLogEntry;
  yielded : list ParsedLogEntry;
  raised : bool
}.

Definition flush (st : parser_state) : list ParsedLogEntry :=
  match _pending_multiline st with
  | Some e => yielded st ++ [e]
  | None => yielded st
  end.

(** One iteration of the loop of [parse_lines].  The pending entry is
    yielded before the new line is parsed, so it is among the entries
    yielded when [_parse_single_line] raises; after that the generator
    reads no further line. *)
Definition parse_line (st : parser_state) (line_num : Z) (line : str) : parser_state :=
  if raised st then st
  else
    match strip line with
    | [] => st
    | _ =>
        match (if _is_continuation_line line then _pending_multiline st else None) with
        | Some pending =>
            {| _pending_multiline := Some (_append_to_multiline pending line);
               yielded := yielded st;
               raised := false |}
        | None =>
            match _parse_single_line line line_num with
            | Some entry =>
                if _might_have_continuation entry
                then {| _pending_multiline := Some entry; yielded := flush st;
                        raised := false |}
                else {| _pending_multiline := None; yielded := flush st ++ [entry];
                        raised := false |}
            | None =>
                {| _pending_multiline := None; yielded := flush st; raised := true |}
            end
        end
    end.

Fixpoint parse_loop (st : parser_state) (line_num : Z) (lines : list str) : parser_state :=
  match lines with
  | [] => st
  | line :: rest => parse_loop (parse_line st line_num line) (line_num + 1) rest
  end.

(** The generator of [LogParser.parse_lines], run to its end. *)
Definition parse_run (lines : list str) : parser_state :=
  parse_loop {| _pending_multiline := None; yielded := []; raised := false |} 1 lines.

(** [LogParser.parse_lines]: the entries the generator yields, in order,
    up to the exception if it raises one. *)
Definition parse_lines (lines : list str) : list ParsedLogEntry :=
  flush (parse_run lines).

(** Whether the generator of [parse_lines] ends with an exception. *)
Definition parse_lines_raises (lines : list str) : bool :=
  raised (parse_run lines).

(** ** normalization.py: the normalizer *)

(** [LogNormalizer.is_high_signal], for a normalizer built with [min_level]. *)
Definition is_high_signal (min_level : LogLevel) (entry : ParsedLogEntry) : bool :=
  if is_error entry then true
  else if has_exception entry then true
  else
    let message_lower := lower (message entry) in
    if existsb (fun kw => contains message_lower kw) ERROR_KEYWORDS then true
    else LogLevel_eqb (level entry) WARN &&
         Z.leb (LogLevel_value min_level) (LogLevel_value WARN).

(** A Python [dict] with string keys, in insertion order. *)
Definition dict (A : Type) : Type := list (str * A).

Definition values {A : Type} (d : dict A) : list A := map snd d.

(** [d[key] = f(d[key])]: the entry keeps its place. *)
Fixpoint dict_update {A : Type} (key : str) (f : A -> A) (d : dict A) : dict A :=
  match d with
  | [] => []
  | (k, v) :: d' =>
      if str_eqb k key then (k, f v) :: d' else (k, v) :: dict_update key f d'
  end.

(** The body of the loop of [process_entries], on the pair
    (high_signal_entries, self._templates). *)
Definition process_entry (min_level : LogLevel)
  (st : list ParsedLogEntry * dict ErrorTemplate) (entry : ParsedLogEntry)
  : list ParsedLogEntry * dict ErrorTemplate :=
  let '(high_signal_entries, _templates) := st in
  if negb (is_high_signal min_level entry) then st
  else
    let template_key := normalize_message (message entry) in
    let _templates :=
      match assoc_get template_key _templates with
      | Some _ => _templates
      | None =>
          _templates ++
          [(template_key,
            {| template := template_key;
               original_messages := [];
               count := 0;
               first_occurrence_line := line_number entry |})]
      end in
    (high_signal_entries ++ [entry],
     dict_update template_key
       (fun t => add_occurrence t (message entry) (line_number entry)) _templates).

(** [LogNormalizer.process_entries] *)
Definition process_entries (min_level : LogLevel) (entries : list ParsedLogEntry)
  : list ParsedLogEntry * dict ErrorTemplate :=
  fold_left (process_entry min_level) entries ([], []).

(** [sum(t.count for t in templates)] *)
Definition sum_counts (ts : list ErrorTemplate) : Z :=
  fold_right (fun t acc => count t + acc)%Z 0%Z ts.

(** [sorted(xs, key=key, reverse=True)] and [xs.sort(key=key, reverse=True)]:
    stable, larger keys first. *)
Fixpoint insert_desc {A : Type} (key : A -> Z) (x : A) (l : list A) : list A :=
  match l with
  | [] => [x]
  | y :: l' => if Z.ltb (key x) (key y) then y :: insert_desc key x l' else x :: l
  end.

Definition sort_desc {A : Type} (key : A -> Z) (l : list A) : list A :=
  fold_right (insert_desc key) [] l.

(** [sorted(xs, key=key)]: stable, smaller keys first. *)
Fixpoint insert_asc {A : Type} (key : A -> Z) (x : A) (l : list A) : list A :=
  match l with
  | [] => [x]
  | y :: l' => if Z.ltb (key y) (key x) then y :: insert_asc key x l' else x :: l
  end.

Definition sort_asc {A : Type} (key : A -> Z) (l : list A) : list A :=
  fold_right (insert_asc key) [] l.

(** [LogNormalizer.get_top_templates] *)
Definition get_top_templates (_templates : dict ErrorTemplate) (n : nat) : list ErrorTemplate :=
  firstn n (sort_desc count (values _templates)).

(** ** clustering.py *)

Definition LOG_STOP_WORDS : list str :=
  map lit
  [ "the"; "a"; "an"; "is"; "are"; "was"; "were"; "be"; "been"; "being";
    "have"; "has"; "had"; "do"; "does"; "did"; "will"; "would"; "could";
    "should"; "may"; "might"; "must"; "shall"; "can"; "need"; "dare";
    "ought"; "used"; "to"; "of"; "in"; "for"; "on"; "with"; "at"; "by";
    "from"; "as"; "into"; "through"; "during"; "before"; "after"; "above";
    "below"; "between"; "under"; "again"; "further"; "then"; "once";
    "here"; "there"; "when"; "where"; "why"; "how"; "all"; "each"; "few";
    "more"; "most"; "other"; "some"; "such"; "no"; "nor"; "not"; "only";
    "own"; "same"; "so"; "than"; "too"; "very"; "just"; "and"; "but";
    "if"; "or"; "because"; "until"; "while"; "this"; "that"; "these";
    "those"; "it"; "its"; "log"; "logging"; "logger"; "timestamp"; "time";
    "date"; "level"; "message"; "msg"; "info"; "debug"; "warn"; "warning" ]%string.

(** scikit-learn: the fitted TF-IDF matrix, the vectorizer (built with
    [max_features], the stop words, 1- and 2-grams, [max_df=0.95] and the
    token pattern) and the seeded MiniBatchKMeans. *)
Variable Tfidf : Type.
(** [self.vectorizer.fit_transform(texts)]; [None]: ValueError. *)
Variable fit_transform : Z -> list str -> option Tfidf.
Variable get_feature_names_out : Tfidf -> list str.
(** [MiniBatchKMeans(n_clusters, random_state=42, batch_size, n_init=3).fit_predict] *)
Variable fit_predict : Z -> Z -> Tfidf -> list Z.
(** The names of the (at most 10) features of largest positive mean score
    over the rows [indices], best first. *)
Variable top_mean_features : list str -> Tfidf -> list nat -> list str.

Record ErrorClusterer : Type := {
  max_clusters : Z;
  min_samples_per_cluster : Z;
  max_features : Z
}.

(** \b[a-zA-Z_][a-zA-Z0-9_]*\b *)
Definition TOKEN : re :=
  Seqs [WordB; Cls (fun c => ascii_alpha c || N.eqb c (ch "_"));
        Star (Cls (fun c => ascii_alpha c || ascii_digit c || N.eqb c (ch "_")));
        WordB].

(** [Counter.update(words)] *)
Fixpoint counter_add (w : str) (c : dict Z) : dict Z :=
  match c with
  | [] => [(w, 1%Z)]
  | (k, n) :: c' =>
      if str_eqb k w then (k, (n + 1)%Z) :: c' else (k, n) :: counter_add w c'
  end.

Definition counter_update (c : dict Z) (words : list str) : dict Z :=
  fold_left (fun c w => counter_add w c) words c.

(** [Counter.most_common(n)] *)
Definition most_common (n : nat) (c : dict Z) : list (str * Z) :=
  firstn n (sort_desc snd c).

Definition is_keyword (w : str) : bool :=
  negb (existsb (str_eqb w) LOG_STOP_WORDS) && (2 <? length w).

(** [ErrorClusterer._extract_keywords_simple] *)
Definition _extract_keywords_simple (templates : list ErrorTemplate) : list str :=
  let word_counts :=
    fold_left (fun c t =>
                 let words := re_findall TOKEN (lower (template t)) in
                 counter_update c (filter is_keyword words))
              templates [] in
  map fst (most_common 10 word_counts).

(** [ErrorClusterer._create_single_cluster] *)
Definition _create_single_cluster (templates : list ErrorTemplate) : list ErrorCluster :=
  match templates with
  | [] => []
  | t0 :: _ =>
      [ {| cluster_id := 0;
           templates := templates;
           total_count := sum_counts templates;
           keywords := _extract_keywords_simple templates;
           representative_sample := template t0 |} ]
  end.

(** [ErrorClusterer._prepare_text] *)
Definition _prepare_text (template : str) : str :=
  (* re.sub(r'<[A-Z_]+>', '', template) *)
  let text := re_sub (Seqs [C "<"; Plus (Cls (fun c => ascii_upper c || N.eqb c (ch "_"))); C ">"])
                     (RLit []) template in
  strip (re_sub WHITESPACE (RLit (lit " ")) text).

(** [ErrorClusterer._extract_cluster_keywords] *)
Definition _extract_cluster_keywords (_feature_names : list str)
  (indices : list nat) (tfidf_matrix : Tfidf) : list str :=
  match _feature_names, indices with
  | [], _ => []
  | _, [] => []
  | _, _ => top_mean_features _feature_names tfidf_matrix indices
  end.

(** [clusters_dict[label].append(t)], the label entered on first use. *)
Fixpoint label_append (label : Z) (t : ErrorTemplate) (d : list (Z * list ErrorTemplate))
  : list (Z * list ErrorTemplate) :=
  match d with
  | [] => [(label, [t])]
  | (l, ts) :: d' =>
      if Z.eqb l label then (l, ts ++ [t]) :: d' else (l, ts) :: label_append label t d'
  end.

(** The first loop of [_build_clusters]; [None] when [templates[i]] is
    out of range. *)
Fixpoint group_by_label (templates : list ErrorTemplate) (i : nat) (labels : list Z)
  (clusters_dict : list (Z * list ErrorTemplate)) : option (list (Z * list ErrorTemplate)) :=
  match labels with
  | [] => Some clusters_dict
  | label :: rest =>
      match nth_error templates i with
      | Some t => group_by_label templates (S i) rest (label_append label t clusters_dict)
      | None => None
      end
  end.

(** [[i for i, l in enumerate(labels) if l == cluster_id]] *)
Fixpoint indices_of (cluster_id : Z) (i : nat) (labels : list Z) : list nat :=
  match labels with
  | [] => []
  | l :: rest =>
      if Z.eqb l cluster_id then i :: indices_of cluster_id (S i) rest
      else indices_of cluster_id (S i) rest
  end.

(** [max(ts, key=lambda t: t.count)]: the first template of largest
    count; [None] on the empty list, where Python raises. *)
Fixpoint max_by_count (ts : list ErrorTemplate) : option ErrorTemplate :=
  match ts with
  | [] => None
  | t :: ts' =>
      match max_by_count ts' with
      | Some b => if Z.leb (count b) (count t) then Some t else Some b
      | None => Some t
      end
  end.

Definition make_cluster (_feature_names : list str) (labels : list Z) (tfidf_matrix : Tfidf)
  (item : Z * list ErrorTemplate) : option ErrorCluster :=
  let '(cluster_id, cluster_templates) := item in
  let indices := indices_of cluster_id 0 labels in
  match max_by_count cluster_templates with
  | Some representative =>
      Some {| cluster_id := cluster_id;
              templates := cluster_templates;
              total_count := sum_counts cluster_templates;
              keywords := _extract_cluster_keywords _feature_names indices tfidf_matrix;
              representative_sample := template representative |}
  | None => None
  end.

Fixpoint all_some {A : Type} (l : list (option A)) : option (list A) :=
  match l with
  | [] => Some []
  | Some x :: l' => match all_some l' with Some xs => Some (x :: xs) | None => None end
  | None :: _ => None
  end.

Definition set_cluster_id (i : Z) (c : ErrorCluster) : ErrorCluster :=
  {| cluster_id := i;
     templates := templates c;
     total_count := total_count c;
     keywords := keywords c;
     representative_sample := representative_sample c |}.

(** [for i, cluster in enumerate(clusters): cluster.cluster_id = i] *)
Fixpoint renumber (i : Z) (clusters : list ErrorCluster) : list ErrorCluster :=
  match clusters with
  | [] => []
  | c :: rest => set_cluster_id i c :: renumber (i + 1) rest
  end.

(** [ErrorClusterer._build_clusters] *)
Definition _build_clusters (_feature_names : list str) (templates : list ErrorTemplate)
  (labels : list Z) (tfidf_matrix : Tfidf) : option (list ErrorCluster) :=
  match group_by_label templates 0 labels [] with
  | Some clusters_dict =>
      match all_some (map (make_cluster _feature_names labels tfidf_matrix)
                          (sort_asc fst clusters_dict)) with
      | Some clusters => Some (renumber 0 (sort_desc total_count clusters))
      | None => None
      end
  | None => None
  end.

(** [ErrorClusterer.cluster_templates]; [None] when an exception
    escapes (a zero [min_samples_per_cluster] divides by zero). *)
Definition cluster_templates (self : ErrorClusterer) (templates : dict ErrorTemplate)
  : option (list ErrorCluster) :=
  match templates with
  | [] => Some []
  | _ =>
      let template_list := values templates in
      if Z.ltb (Z.of_nat (length template_list)) (min_samples_per_cluster self)
      then Some (_create_single_cluster template_list)
      else
        let texts := map (fun t => _prepare_text (template t)) template_list in
        match fit_transform (max_features self) texts with
        | None => Some (_create_single_cluster template_list)
        | Some tfidf_matrix =>
            let _feature_names := get_feature_names_out tfidf_matrix in
            let n_samples := Z.of_nat (length template_list) in
            if Z.eqb (min_samples_per_cluster self) 0 then None
            else
              let n_clusters :=
                Z.min (max_clusters self)
                      (Z.max 1 (n_samples / min_samples_per_cluster self)) in
              if Z.leb n_clusters 1 then Some (_create_single_cluster template_list)
              else
                let cluster_labels :=
                  fit_predict n_clusters (Z.min 100 n_samples) tfidf_matrix in
                _build_clusters _feature_names template_list cluster_labels tfidf_matrix
        end
  end.

(** [format_clusters_for_output]: one dictionary per cluster. *)
Record ClusterOutput : Type := {
  out_cluster_id : Z;
  out_total_occurrences : Z;
  out_unique_patterns : Z;
  out_keywords : list str;
  out_representative_pattern : str;
  out_sample_messages : list str
}.

(** Up to 3 distinct original messages, in order of appearance. *)
Definition add_sample (samples : list str) (msg : str) : list str :=
  if negb (existsb (str_eqb msg) samples) && (length samples <? 3)
  then samples ++ [msg] else samples.

Definition format_clusters_for_output (clusters : list ErrorCluster) : list ClusterOutput :=
  map (fun cluster =>
         {| out_cluster_id := cluster_id cluster;
            out_total_occurrences := total_count cluster;
            out_unique_patterns := Z.of_nat (length (templates cluster));
            out_keywords := keywords cluster;
            out_representative_pattern := representative_sample cluster;
            out_sample_messages :=
              fold_left (fun samples t => fold_left add_sample (original_messages t) samples)
                        (templates cluster) [] |})
      clusters.

(** ** aggregation.py *)

Record TemplateOutput : Type := {
  out_pattern : str;
  out_count : Z;
  out_first_seen_line : Z;
  out_examples : list str
}.

(** [format_templates_for_output] *)
Definition format_templates_for_output (templates : list ErrorTemplate) (top_n : nat)
  : list TemplateOutput :=
  map (fun t =>
         {| out_pattern := template t;
            out_count := count t;
            out_first_seen_line := first_occurrence_line t;
            out_examples := firstn 3 (original_messages t) |})
      (firstn top_n templates).

(** The clock's reading and the summary text are opaque values. *)
Variable float : Type.

Record AnalysisResult : Type := {
  total_lines : Z;
  error_lines : Z;
  fatal_lines : Z;
  warning_lines : Z;
  exception_count : Z;
  top_templates : list TemplateOutput;
  clusters : list ClusterOutput;
  llm_summary : option str;
  processing_time_ms : float
}.

Definition count_if {A : Type} (f : A -> bool) (l : list A) : Z :=
  Z.of_nat (length (filter f l)).

(** [build_analysis_result] *)
Definition build_analysis_result (total_lines : Z) (error_entries : list ParsedLogEntry)
  (templates : dict ErrorTemplate) (clusters : list ErrorCluster)
  (processing_time_ms : float) (llm_summary : option str) : AnalysisResult :=
  let sorted_templates := sort_desc count (values templates) in
  {| total_lines := total_lines;
     error_lines := count_if (fun e => LogLevel_eqb (level e) ERROR) error_entries;
     fatal_lines := count_if (fun e => LogLevel_eqb (level e) FATAL) error_entries;
     warning_lines := count_if (fun e => LogLevel_eqb (level e) WARN) error_entries;
     exception_count := count_if has_exception error_entries;
     top_templates := format_templates_for_output sorted_templates 10;
     clusters := format_clusters_for_output clusters;
     llm_summary := llm_summary;
     processing_time_ms := processing_time_ms |}.

(** The five lines of the digest for one cluster, and the blank line. *)
Definition cluster_digest (cluster : ErrorCluster) : list str :=
  [ lit "Cluster " ++ str_of_Z (cluster_id cluster + 1) ++ lit ":";
    lit "  - Occurrences: " ++ str_of_Z (total_count cluster);
    lit "  - Unique patterns: " ++ str_of_Z (Z.of_nat (length (templates cluster)));
    lit "  - Keywords: " ++ join (lit ", ") (firstn 5 (keywords cluster));
    lit "  - Representative pattern: " ++ firstn 200 (representative_sample cluster);
    [] ].

(** [prepare_cluster_summary_for_llm] *)
Definition prepare_cluster_summary_for_llm (clusters : list ErrorCluster) : str :=
  match clusters with
  | [] => lit "No error clusters detected."
  | _ =>
      join [NL] ([lit "Error Cluster Summary:"; []] ++ flat_map cluster_digest clusters)
  end.

(** ** ingestion.py *)

Definition CHUNK_SIZE : nat := 64 * 1024.

(** *** [bytes.decode('utf-8')]

    One step of CPython's decoder: a code point, or an error with the
    number of bytes it spans ([errors='replace'] writes one U+FFFD for
    them and goes on after them). *)

Inductive utf8_step : Type :=
| Decoded (c : char) (rest : bytes)
| Invalid (rest : bytes).

Definition is_cont (b : N) : bool := in_range 128 191 b.

Definition bad_second (lead lo second : N) (low_lead high_lead : N) : bool :=
  negb (is_cont second) ||
  (if N.ltb second lo then N.eqb lead low_lead else N.eqb lead high_lead).

Definition utf8_next (b : bytes) : option utf8_step :=
  match b with
  | [] => None
  | c0 :: r =>
      Some (
      if N.ltb c0 128 then Decoded c0 r
      else if N.ltb c0 194 then Invalid r              (* invalid start byte *)
      else if N.ltb c0 224 then
        match r with
        | [] => Invalid []                             (* unexpected end of data *)
        | c1 :: r1 =>
            if is_cont c1 then Decoded ((c0 - 192) * 64 + (c1 - 128))%N r1
            else Invalid r                             (* invalid continuation byte *)
        end
      else if N.ltb c0 240 then
        match r with
        | [] => Invalid []
        | c1 :: r1 =>
            if bad_second c0 160 c1 224 237 then Invalid r
            else match r1 with
                 | [] => Invalid []
                 | c2 :: r2 =>
                     if is_cont c2
                     then Decoded ((c0 - 224) * 4096 + (c1 - 128) * 64 + (c2 - 128))%N r2
                     else Invalid r1
                 end
        end
      else if N.ltb c0 245 then
        match r with
        | [] => Invalid []
        | c1 :: r1 =>
            if bad_second c0 144 c1 240 244 then Invalid r
            else match r1 with
                 | [] => Invalid []
                 | c2 :: r2 =>
                     if negb (is_cont c2) then Invalid r1
                     else match r2 with
                          | [] => Invalid []
                          | c3 :: r3 =>
                              if is_cont c3
                              then Decoded ((c0 - 240) * 262144 + (c1 - 128) * 4096 +
                                            (c2 - 128) * 64 + (c3 - 128))%N r3
                              else Invalid r2
                          end
                 end
        end
      else Invalid r)
  end.

Definition REPLACEMENT : char := 65533%N.

(** [b.decode('utf-8')]; [None]: UnicodeDecodeError. *)
Fixpoint decode_strict (fuel : nat) (b : bytes) : option str :=
  match fuel with
  | O => Some []
  | S fuel' =>
      match utf8_next b with
      | None => Some []
      | Some (Decoded c rest) => option_map (cons c) (decode_strict fuel' rest)
      | Some (Invalid _) => None
      end
  end.

(** [b.decode('utf-8', errors='replace')] *)
Fixpoint decode_replace (fuel : nat) (b : bytes) : str :=
  match fuel with
  | O => []
  | S fuel' =>
      match utf8_next b with
      | None => []
      | Some (Decoded c rest) => c :: decode_replace fuel' rest
      | Some (Invalid rest) => REPLACEMENT :: decode_replace fuel' rest
      end
  end.

(** The [try]/[except UnicodeDecodeError] of [_read_plain_file]. *)
Definition decode_chunk (chunk : bytes) : str :=
  match decode_strict (length chunk) chunk with
  | Some decoded => decoded
  | None => decode_replace (length chunk) chunk
  end.

(** The loop of [_read_plain_file] over what is left of the file, with
    the lines it yields; [file.read(n)] takes the next [n] bytes. *)
Fixpoint read_plain_loop (fuel : nat) (n : nat) (file : bytes) (buffer : str) : list str :=
  match fuel with
  | O => []
  | S fuel' =>
      match firstn n file with
      | [] => match buffer with [] => [] | _ => [buffer] end
      | chunk =>
          let '(lines, last) := split_nl (buffer ++ decode_chunk chunk) in
          lines ++ read_plain_loop fuel' n (skipn n file) last
      end
  end.

(** [_read_plain_file] *)
Definition _read_plain_file (file : bytes) : list str :=
  read_plain_loop (S (length file)) CHUNK_SIZE file [].

(** [gzip.GzipFile] with [io.TextIOWrapper(gz, encoding='utf-8',
    errors='replace')]: the text of the decompressed stream; [None]
    when the stream is not gzip data. *)
Variable gzip_text : bytes -> option str.

Fixpoint read_text_loop (fuel : nat) (n : nat) (text : str) (buffer : str) : list str :=
  match fuel with
  | O => []
  | S fuel' =>
      match firstn n text with
      | [] => match buffer with [] => [] | _ => [buffer] end
      | chunk =>
          let '(lines, last) := split_nl (buffer ++ chunk) in
          lines ++ read_text_loop fuel' n (skipn n text) last
      end
  end.

(** [_read_gzip_file] *)
Definition _read_gzip_file (file : bytes) : option (list str) :=
  match gzip_text file with
  | Some text => Some (read_text_loop (S (length text)) CHUNK_SIZE text [])
  | None => None
  end.

(** [read_log_file] *)
Definition read_log_file (file : bytes) (filename : str) : option (list str) :=
  if endswith filename (lit ".gz") then _read_gzip_file file
  else Some (_read_plain_file file).

(** ** llm_summary.py *)

(** [f"{n:,}"]: decimal with a comma between groups of three digits. *)
Fixpoint commas_reversed (digits : str) : str :=
  match digits with
  | a :: b :: c :: ((_ :: _) as rest) => a :: b :: c :: ch "," :: commas_reversed rest
  | _ => digits
  end.

Definition with_commas (n : Z) : str :=
  (if Z.ltb n 0 then lit "-" else []) ++
  rev (commas_reversed (rev (str_of_Z (Z.abs n)))).

Definition SYSTEM_PROMPT : str :=
  lit "You are a senior software engineer analyzing error logs.
You will receive a sanitized summary of error clusters (not raw logs).
Your task is to:
1. Identify the dominant issues
2. Explain what likely went wrong
3. Suggest next investigation steps

Be concise (2-4 sentences). Focus on actionable insights.
Do not make up specific details not present in the data.".

(** The process environment and the service: the text of the answer to
    a prompt sent with a key, [None] when the request fails or the
    answer holds no text. *)
Variable GEMINI_API_KEY : option str.
Variable gemini : str -> str -> option str.

(** [a or b] on optional strings. *)
Definition or_str (a : option str) (b : option str) : option str :=
  match a with
  | Some (_ :: _) => a
  | _ => b
  end.

(** The prompt [generate_llm_summary] sends. *)
Definition full_prompt (clusters : list ErrorCluster) (total_lines error_count : Z) : str :=
  let cluster_summary := prepare_cluster_summary_for_llm clusters in
  let user_message :=
    lit "Analyzed " ++ with_commas total_lines ++ lit " log lines. Found " ++
    with_commas error_count ++ lit " error/warning entries." ++ [NL; NL] ++
    cluster_summary ++ [NL; NL] ++
    lit "Provide a brief summary of the main issues and suggested next steps." in
  SYSTEM_PROMPT ++ [NL; NL] ++ user_message.

(** [generate_llm_summary].  The key is
    [api_key or os.environ.get("GEMINI_API_KEY") or DEFAULT_GEMINI_API_KEY],
    evaluated before the [try]; no module defines the name
    [DEFAULT_GEMINI_API_KEY], so when neither the argument nor the
    environment gives a key the function raises [NameError], which is
    the outer [None].  With a key, the result is [Some] of what the
    function returns: the stripped answer, or [None] when the request
    fails. *)
Definition generate_llm_summary (clusters : list ErrorCluster) (total_lines error_count : Z)
  (api_key : option str) : option (option str) :=
  match or_str api_key GEMINI_API_KEY with
  | Some (k :: key) =>
      Some (option_map strip (gemini (k :: key) (full_prompt clusters total_lines error_count)))
  | _ => None
  end.

(** [generate_basic_summary] *)
Definition generate_basic_summary (clusters : list ErrorCluster)
  (total_lines error_count fatal_count : Z) : str :=
  match clusters with
  | [] =>
      if Z.eqb error_count 0
      then lit "Processed " ++ with_commas total_lines ++
           lit " lines. No significant errors detected."
      else lit "Processed " ++ with_commas total_lines ++ lit " lines with " ++
           with_commas error_count ++ lit " errors, but no patterns could be clustered."
  | top_cluster :: _ =>
      let parts := [lit "Processed " ++ with_commas total_lines ++ lit " lines."] in
      let parts :=
        if Z.ltb 0 fatal_count
        then parts ++ [lit "CRITICAL: " ++ with_commas fatal_count ++
                       lit " fatal errors detected."]
        else parts in
      let parts :=
        parts ++ [lit "Found " ++ with_commas error_count ++
                  lit " error entries grouped into " ++
                  str_of_Z (Z.of_nat (length clusters)) ++ lit " clusters."] in
      let keywords_str :=
        match keywords top_cluster with
        | [] => lit "various errors"
        | _ => join (lit ", ") (firstn 3 (keywords top_cluster))
        end in
      let parts :=
        parts ++ [lit "Most frequent issue (" ++ with_commas (total_count top_cluster) ++
                  lit " occurrences): related to " ++ keywords_str ++ lit "."] in
      let parts :=
        match keywords top_cluster with
        | [] => parts
        | k0 :: _ =>
            parts ++ [lit "Suggested investigation: Search codebase for " ++ [APOS] ++
                      k0 ++ [APOS] ++ lit "."]
        end in
      join (lit " ") parts
  end.

(** ** analyzer.py *)

(** [time.perf_counter() - start_time], in milliseconds. *)
Variable perf_counter_ms : float.

Record LogAnalyzer : Type := {
  min_level : LogLevel;
  clusterer : ErrorClusterer;
  use_llm : bool;
  llm_api_key : option str
}.

(** [LogAnalyzer.__init__] *)
Definition new_LogAnalyzer (max_clusters : Z) (min_level : LogLevel) (use_llm : bool)
  (llm_api_key : option str) : LogAnalyzer :=
  {| min_level := min_level;
     clusterer := {| max_clusters := max_clusters;
                     min_samples_per_cluster := 2;
                     max_features := 1000 |};
     use_llm := use_llm;
     llm_api_key := llm_api_key |}.

(** [LogAnalyzer.analyze]; [None] when an exception escapes. *)
Definition analyze (self : LogAnalyzer) (file : bytes) (filename : str) : option AnalysisResult :=
  match read_log_file file filename with
  | None => None
  | Some lines =>
      if parse_lines_raises lines then None
      else
      let all_entries := parse_lines lines in
      let total_lines := Z.of_nat (length all_entries) in
      let '(error_entries, templates) := process_entries (min_level self) all_entries in
      match cluster_templates (clusterer self) templates with
      | None => None
      | Some clusters =>
          let error_count := Z.of_nat (length error_entries) in
          let fatal_count := count_if (fun e => LogLevel_eqb (level e) FATAL) error_entries in
          match (if use_llm self && match clusters with [] => false | _ => true end
                 then generate_llm_summary clusters total_lines error_count (llm_api_key self)
                 else Some None) with
          | None => None
          | Some llm_summary =>
              let llm_summary :=
                match llm_summary with
                | Some (c :: s) => c :: s
                | _ => generate_basic_summary clusters total_lines error_count fatal_count
                end in
              Some (build_analysis_result total_lines error_entries templates clusters
                                          perf_counter_ms (Some llm_summary))
          end
      end
  end.

(** ** normalization.py: [extract_error_context] *)

(** [s[:k]]: for a negative [k], all but the last [-k] characters. *)
Definition slice_to (s : str) (k : Z) : str :=
  if Z.ltb k 0 then firstn (Z.to_nat (Z.of_nat (length s) + k)) s
  else firstn (Z.to_nat k) s.

Definition extract_error_context (entry : ParsedLogEntry) (max_length : Z) : str :=
  let context :=
    match exception entry with
    | Some (c :: e) => c :: e
    | _ => message entry
    end in
  if Z.ltb max_length (Z.of_nat (length context))
  then slice_to context max_length ++ lit "..."
  else context.

(** ** aggregation.py: [compute_statistics] *)

(** [level.name] *)
Definition LogLevel_name (l : LogLevel) : str :=
  match l with
  | TRACE => lit "TRACE" | DEBUG => lit "DEBUG" | INFO => lit "INFO"
  | WARN => lit "WARN" | ERROR => lit "ERROR" | FATAL => lit "FATAL"
  | UNKNOWN => lit "UNKNOWN"
  end.

(** [stats[key] += 1], for a key of the dictionary. *)
Definition increment (key : str) (stats : dict Z) : dict Z :=
  dict_update key (fun n => (n + 1)%Z) stats.

Definition compute_statistics (entries : list ParsedLogEntry) : dict Z :=
  fold_left
    (fun stats entry =>
       let stats := increment (lit "total") stats in
       let level_key := lower (LogLevel_name (level entry)) in
       let stats :=
         match assoc_get level_key stats with
         | Some _ => increment level_key stats
         | None => stats
         end in
       if has_exception entry then increment (lit "exceptions") stats else stats)
    entries
    [ (lit "total", 0%Z); (lit "trace", 0%Z); (lit "debug", 0%Z); (lit "info", 0%Z);
      (lit "warn", 0%Z); (lit "error", 0%Z); (lit "fatal", 0%Z); (lit "unknown", 0%Z);
      (lit "exceptions", 0%Z) ].

(** ** main.py: the handler of POST /analyze

    The upload is its file name (absent or empty when the client sent
    none) and its content.  The environment gives the size limit and the
    key passed to the analyzer.  The answer is an [HTTPException] with
    its status code, or the result, which the handler renders with
    [to_dict] as indented text when [pretty] is set and as a JSON
    response otherwise.  Rendering belongs to the framework and runs
    inside the handler's [try]: [renders] tells whether it succeeds (a
    string with a lone surrogate cannot be encoded as UTF-8).  The
    bounds on [max_clusters] are checked by the framework before the
    handler runs. *)
Variable MAX_FILE_SIZE_MB : Z.
Variable OPENAI_API_KEY : option str.
Variable renders : bool -> AnalysisResult -> bool.

Definition MAX_FILE_SIZE_BYTES : Z := MAX_FILE_SIZE_MB * 1024 * 1024.

Inductive response : Type :=
| HTTPException (status_code : Z)
| PlainTextResponse (result : AnalysisResult)
| JSONResponse (result : AnalysisResult).

Definition analyze_log (filename : option str) (content : bytes) (max_clusters : Z)
  (use_llm : bool) (min_level : str) (pretty : bool) : response :=
  match filename with
  | None | Some [] => HTTPException 400
  | Some filename =>
      let filename_lower := lower filename in
      if negb (existsb (fun ext => endswith filename_lower (lit ext))
                 [".log"; ".txt"; ".gz"]%string)
      then HTTPException 400
      else if Z.ltb MAX_FILE_SIZE_BYTES (Z.of_nat (length content))
      then HTTPException 413
      else if Nat.eqb (length content) 0 then HTTPException 400
      else
        let level :=
          match from_string min_level with
          | UNKNOWN => WARN
          | l => l
          end in
        let analyzer := new_LogAnalyzer max_clusters level use_llm OPENAI_API_KEY in
        match analyze analyzer content filename with
        | Some result =>
            if renders pretty result
            then (if pretty then PlainTextResponse result else JSONResponse result)
            else HTTPException 500
        | None => HTTPException 500
        end
  end.

(** ** analyze.py: the word wrap of [format_output] *)

(** [s.split()]: the maximal runs of characters that are not white
    space; [cur] is the run being read, reversed. *)
Fixpoint split_words (cur : str) (s : str) : list str :=
  match s with
  | [] => match cur with [] => [] | _ => [rev cur] end
  | c :: s' =>
      if is_space c
      then match cur with
           | [] => split_words [] s'
           | _ => rev cur :: split_words [] s'
           end
      else split_words (c :: cur) s'
  end.

Definition str_split (s : str) : list str := split_words [] s.

(** The body of the loop over the words of the summary, on the pair
    (lines, current_line). *)
Definition wrap_word (st : list str * str) (word : str) : list str * str :=
  let '(lines, current_line) := st in
  if 68 <? length current_line + length word + 1
  then (lines ++ [current_line], lit "  " ++ word)
  else (lines,
        current_line ++
        (if negb (str_eqb current_line (lit "  ")) then lit " " ++ word else word)).

(** The lines that [format_output] appends for a summary, under the
    heading "ANALYSIS". *)
Definition wrap_summary (nl_summary : str) : list str :=
  let '(lines, current_line) :=
    fold_left wrap_word (str_split nl_summary) ([], lit "  ") in
  match strip current_line with
  | [] => lines
  | _ => lines ++ [current_line]
  end.

(** ** Example inputs *)

Definition template_of (text : string) (examples : list string) (n line : Z) : ErrorTemplate :=
  {| template := lit text;
     original_messages := map lit examples;
     count := n;
     first_occurrence_line := line |}.

Definition four_templates : dict ErrorTemplate :=
  [ (lit "Connection to <IP> failed",
     template_of "Connection to <IP> failed" ["Connection to 10.0.0.1 failed"] 3 1);
    (lit "Database query failed",
     template_of "Database query failed" ["Database query failed"] 7 2);
    (lit "Connection to <IP> timeout",
     template_of "Connection to <IP> timeout" ["Connection to 10.0.0.2 timeout"] 2 5);
    (lit "Disk quota exceeded",
     template_of "Disk quota exceeded" ["Disk quota exceeded"] 1 9) ]%string.

Definition one_template : dict ErrorTemplate :=
  [ (lit "Single error", template_of "Single error" ["Single error"] 1 1) ]%string.

Definition cluster_with_messages : ErrorCluster :=
  {| cluster_id := 0;
     templates := [template_of "login failed for <EMAIL>"
                     ["login failed for alice@example.com"]%string 4 3];
     total_count := 4;
     keywords := [lit "login"; lit "failed"];
     representative_sample := lit "login failed for <EMAIL>" |}.

Definition cluster_with_other_messages : ErrorCluster :=
  {| cluster_id := 0;
     templates := [template_of "login failed for <EMAIL>"
                     ["login failed for bob@example.org"; "login failed for eve@example.net"]%string 4 8];
     total_count := 4;
     keywords := [lit "login"; lit "failed"];
     representative_sample := lit "login failed for <EMAIL>" |}.

(** ** Vocabulary of the statements *)

Definition conserved (st : list ParsedLogEntry * dict ErrorTemplate) : Prop :=
  sum_counts (values (snd st)) = Z.of_nat (length (fst st)).

(** A list of integers that never increases. *)
Definition descending (l : list Z) : Prop :=
  StronglySorted (fun a b => (b <= a)%Z) l.

Definition nonempty_groups (d : list (Z * list ErrorTemplate)) : Prop :=
  Forall (fun item => snd item <> []) d.

(** scikit-learn's contract: [fit_predict] returns one label per row of
    the matrix, and the matrix has one row per text. *)
Definition one_label_per_text : Prop :=
  forall mf texts mtx k b,
    fit_transform mf texts = Some mtx -> length (fit_predict k b mtx) = length texts.

(** The template [t] is a member of the [i]-th cluster of the list. *)
Definition member_of (cs : list ErrorCluster) (i : nat) (t : ErrorTemplate) : Prop :=
  exists c, nth_error cs i = Some c /\ In t (templates c).

(** The tokens counted for one template: the identifiers of its
    lower-cased text that are no stop words and are longer than 2
    characters, in the order of the text. *)
Definition counted_words (t : ErrorTemplate) : list str :=
  filter (fun w => negb (existsb (str_eqb w) LOG_STOP_WORDS) && (2 <? length w))
    (re_findall TOKEN (lower (template t))).

(** How often [w] occurs among the counted tokens of the templates. *)
Definition frequency (ts : list ErrorTemplate) (w : str) : Z :=
  count_if (str_eqb w) (flat_map counted_words ts).

(** The position at which [w] is first met in [l]; the length of [l]
    when it is not met. *)
Fixpoint first_index (w : str) (l : list str) : nat :=
  match l with
  | [] => 0
  | x :: l' => if str_eqb x w then 0 else S (first_index w l')
  end.

(** [a] ranks before [b] among the counted tokens of [ts]: it is more
    frequent, or as frequent and first met earlier in the texts. *)
Definition ranks_before (ts : list ErrorTemplate) (a b : str) : Prop :=
  (frequency ts b < frequency ts a)%Z \/
  (frequency ts a = frequency ts b /\
   first_index a (flat_map counted_words ts) < first_index b (flat_map counted_words ts)).

(** [ks] are the keywords obtained by frequency counting over the texts
    of [ts]: at most 10 tokens of the lower-cased texts, none a stop
    word, each longer than 2 characters; all the counted tokens when
    there are fewer than 10 of them; in the order of their rank, the
    most frequent first and the first met first among equally frequent
    ones; and every counted token left out ranks after every keyword. *)
Definition keywords_by_frequency (ts : list ErrorTemplate) (ks : list str) : Prop :=
  length ks <= 10 /\
  Forall (fun k =>
            existsb (str_eqb k) LOG_STOP_WORDS = false /\
            2 < length k /\
            exists t, In t ts /\ In k (re_findall TOKEN (lower (template t)))) ks /\
  (length ks < 10 -> forall w, In w (flat_map counted_words ts) -> In w ks) /\
  StronglySorted (ranks_before ts) ks /\
  forall w k,
    In w (flat_map counted_words ts) -> ~ In w ks -> In k ks -> ranks_before ts k w.

(** The keys of the counter [c] are words of [seen], in the order in
    which they are first met there. *)
Definition first_met_order (c : dict Z) (seen : list str) : Prop :=
  (forall k, In k (map fst c) -> In k seen) /\
  StronglySorted (fun a b => first_index a seen < first_index b seen) (map fst c).

(** The counter [c] holds, once each, the words of [seen], each with
    its number of occurrences. *)
Definition counts_of (c : dict Z) (seen : list str) : Prop :=
  NoDup (map fst c) /\
  (forall w, In w seen -> In w (map fst c)) /\
  Forall (fun kv => snd kv = count_if (str_eqb (fst kv)) seen) c.

(** Two clusters that agree on everything the digest may show. *)
Definition same_statistics (c1 c2 : ErrorCluster) : Prop :=
  cluster_id c1 = cluster_id c2 /\
  total_count c1 = total_count c2 /\
  length (templates c1) = length (templates c2) /\
  keywords c1 = keywords c2 /\
  representative_sample c1 = representative_sample c2.

(** The five lines of the multiline example. *)
Definition five_lines : list str :=
  [ lit "2024-01-15 10:30:45 ERROR Exception occurred";
    lit "Traceback (most recent call last):";
    lit "  File " ++ [QUOTE] ++ lit "app.py" ++ [QUOTE] ++ lit ", line 42";
    lit "ValueError: bad input";
    lit "2024-01-15 10:30:46 INFO Normal log" ].

Definition plain_entry (line : str) (n : Z) (l : LogLevel) (msg : str)
  (exc : option str) (multi : bool) : ParsedLogEntry :=
  {| raw_line := line; line_number := n; level := l; message := msg;
     timestamp := None; logger := None; exception := exc; is_multiline := multi |}.

Definition traceback_with_frame : str :=
  lit "Traceback (most recent call last):" ++ [NL] ++
  lit "  File " ++ [QUOTE] ++ lit "app.py" ++ [QUOTE] ++ lit ", line 42".

(** A log with one "disk failed" error followed by five "net failed". *)
Definition disk_net_log : list str :=
  lit "ERROR disk failed" :: repeat (lit "ERROR net failed") 5.

Definition default_clusterer : ErrorClusterer :=
  {| max_clusters := 10; min_samples_per_cluster := 2; max_features := 1000 |}.

(** 65535 bytes "a" and the two bytes of U+00E9: the first chunk of
    64 KiB ends between them. *)
Definition split_e_acute : bytes := repeat 97%N 65535 ++ [195; 169]%N.

(** The lines of a text: the pieces between newlines, the last piece
    kept when it is not empty. *)
Definition lines_of (text : str) : list str :=
  let '(lines, last) := split_nl text in
  lines ++ match last with [] => [] | _ => [last] end.

(** Following the spec's words: the lines of the UTF-8 decoding of the
    whole stream (one replacement character per invalid sequence), split
    on newline, the last piece kept when it is not empty. *)
Definition spec_plain_lines (file : bytes) : list str :=
  lines_of (decode_replace (length file) file).

(** No newline in [s]. *)
Definition no_newline (s : str) : bool := forallb (fun c => negb (N.eqb c NL)) s.

(** The representative of [c] is the text of a member of largest count. *)
Definition represents_largest (c : ErrorCluster) : Prop :=
  exists rep,
    In rep (templates c) /\
    representative_sample c = template rep /\
    Forall (fun t => (count t <= count rep)%Z) (templates c).

(** The length of a line and what follows its first 65535 characters. *)
Definition line_end (line : str) : N * str := (N.of_nat (length line), skipn 65535 line).

(** Three lines, the second one blank. *)
Definition blank_line_file : bytes :=
  lit "INFO started" ++ [NL; NL] ++ lit "INFO done" ++ [NL].

(** No substitution rule of [normalize_message] finds a match in [s]. *)
Definition settled (s : str) : bool :=
  forallb (fun rule => negb (found (fst rule) s)) VARIABLE_PATTERNS &&
  negb (found REPEATED_PLACEHOLDER s).

(** Every run of white space becomes one space; [prev] tells that the
    character before was white space. *)
Fixpoint squeeze (prev : bool) (s : str) : str :=
  match s with
  | [] => []
  | c :: s' =>
      if is_space c then (if prev then squeeze true s' else SPACE :: squeeze true s')
      else c :: squeeze false s'
  end.

Definition no_space (s : str) : bool := forallb (fun c => negb (is_space c)) s.

(** White space occurs only as single spaces ([prev]: the character
    before was one). *)
Fixpoint spaced (prev : bool) (s : str) : bool :=
  match s with
  | [] => true
  | c :: s' =>
      if is_space c then negb prev && N.eqb c SPACE && spaced true s'
      else spaced false s'
  end.

(** The entries of [entries] whose normalized message is [key]. *)
Definition occurrences (key : str) (entries : list ParsedLogEntry) : list ParsedLogEntry :=
  filter (fun e => str_eqb (normalize_message (message e)) key) entries.

(** The first number of the list that is not 0, and 0 when there is none. *)
Fixpoint first_nonzero (l : list Z) : Z :=
  match l with
  | [] => 0
  | x :: l' => if Z.eqb x 0 then first_nonzero l' else x
  end.

Definition distinct_add (seen : list str) (k : str) : list str :=
  if existsb (str_eqb k) seen then seen else seen ++ [k].

(** The distinct strings of a list, in the order of their first occurrence. *)
Definition distinct (l : list str) : list str := fold_left distinct_add l [].

(** The template [snd kv] records the entries of [hs] whose normalized
    message is the key [fst kv]: their number, the first three of their
    messages and the first of their line numbers that is not 0. *)
Definition tracks (hs : list ParsedLogEntry) (kv : str * ErrorTemplate) : Prop :=
  template (snd kv) = fst kv /\
  count (snd kv) = Z.of_nat (length (occurrences (fst kv) hs)) /\
  original_messages (snd kv) = firstn 3 (map message (occurrences (fst kv) hs)) /\
  first_occurrence_line (snd kv) = first_nonzero (map line_number (occurrences (fst kv) hs)).

(** [sum(...)] of a list of integers. *)
Definition sumZ (l : list Z) : Z := fold_right Z.add 0%Z l.

(** A cluster has at least one member, and its total is the sum of the
    counts of its members. *)
Definition well_formed_cluster (c : ErrorCluster) : Prop :=
  templates c <> [] /\ total_count c = sum_counts (templates c).

(** Four lines: an error, a warning, an information and a fatal error
    that names an exception. *)
Definition mixed_log : bytes :=
  lit "ERROR disk failed" ++ [NL] ++ lit "WARN slow reply" ++ [NL] ++
  lit "INFO ok" ++ [NL] ++ lit "FATAL NullPointerException at boot" ++ [NL].

Definition mixed_lines : list str :=
  [ lit "ERROR disk failed"; lit "WARN slow reply"; lit "INFO ok";
    lit "FATAL NullPointerException at boot" ].

(** [s.split('\n')]: all the pieces. *)
Definition pieces (s : str) : list str := fst (split_nl s) ++ [snd (split_nl s)].

(** [line.strip()] is not empty. *)
Definition nonblank (line : str) : bool :=
  match strip line with [] => false | _ => true end.

(** The entry [e] was started by the line of number [line_number e], a
    line that is not blank: its level, message, timestamp and logger are
    those parsed from that line alone. *)
Definition started_by (lines : list str) (e : ParsedLogEntry) : Prop :=
  exists line parsed,
    nth_error lines (Z.to_nat (line_number e - 1)) = Some line /\
    nonblank line = true /\
    _parse_single_line line (line_number e) = Some parsed /\
    level e = level parsed /\
    message e = message parsed /\
    timestamp e = timestamp parsed /\
    logger e = logger parsed.

(** A key for the summarisation service is at hand: the analyzer was
    given one that is not empty, or the environment holds one. *)
Definition key_available (api_key : option str) : bool :=
  match or_str api_key GEMINI_API_KEY with
  | Some (_ :: _) => true
  | _ => false
  end.

(** The level the handler configures for the text [min_level]. *)
Definition requested_level (min_level : str) : LogLevel :=
  match from_string min_level with
  | UNKNOWN => WARN
  | l => l
  end.

(** A line of a plain-text log: it holds no newline, and it is not
    tried as JSON. *)
Definition plain_line (line : str) : bool :=
  no_newline line && negb (startswith (strip line) (lit "{")).

(** The chunks that [file.read(n)] returns until the end of the file. *)
Fixpoint chunks (fuel : nat) (n : nat) (file : bytes) : list bytes :=
  match fuel with
  | O => []
  | S fuel' =>
      match firstn n file with
      | [] => []
      | chunk => chunk :: chunks fuel' n (skipn n file)
      end
  end.

(** Every chunk of 64 KiB decoded on its own, the results put together. *)
Definition chunkwise_text (file : bytes) : str :=
  concat (map decode_chunk (chunks (S (length file)) CHUNK_SIZE file)).

(** The text that [read_log_file] splits into lines. *)
Definition decoded_text (file : bytes) (filename : str) : option str :=
  if endswith filename (lit ".gz") then gzip_text file
  else Some (chunkwise_text file).

(** No white space at either end, and white space inside only as
    single space characters. *)
Definition whitespace_normal (s : str) : Prop :=
  spaced false s = true /\ strip s = s.

(** The level that decides like [min_level]: WARN for every level up to
    WARN (UNKNOWN too), ERROR for ERROR and FATAL. *)
Definition effective_level (min_level : LogLevel) : LogLevel :=
  if Z.leb (LogLevel_value min_level) (LogLevel_value WARN) then WARN else ERROR.

(** [stats[key]], 0 for a key that is not there. *)
Definition stat (key : string) (stats : dict Z) : Z :=
  match assoc_get (lit key) stats with
  | Some n => n
  | None => 0%Z
  end.

(** The text [extract_error_context] starts from. *)
Definition context_of (entry : ParsedLogEntry) : str :=
  if has_exception entry
  then match exception entry with Some e => e | None => [] end
  else message entry.

(** The nine counters of [compute_statistics] after the entries [seen]. *)
Definition statistics_of (seen : list ParsedLogEntry) : dict Z :=
  [ (lit "total", Z.of_nat (length seen));
    (lit "trace", count_if (fun e => LogLevel_eqb (level e) TRACE) seen);
    (lit "debug", count_if (fun e => LogLevel_eqb (level e) DEBUG) seen);
    (lit "info", count_if (fun e => LogLevel_eqb (level e) INFO) seen);
    (lit "warn", count_if (fun e => LogLevel_eqb (level e) WARN) seen);
    (lit "error", count_if (fun e => LogLevel_eqb (level e) ERROR) seen);
    (lit "fatal", count_if (fun e => LogLevel_eqb (level e) FATAL) seen);
    (lit "unknown", count_if (fun e => LogLevel_eqb (level e) UNKNOWN) seen);
    (lit "exceptions", count_if has_exception seen) ].

(** Six bytes: "a", the two bytes of U+00E9, the byte FF that no UTF-8
    sequence holds, a newline and "b". *)
Definition short_file : bytes := [97; 195; 169; 255; 10; 98]%N.

(** scikit-learn's contract: asked for [k >= 1] clusters, [fit_predict]
    labels every row with one of 0, ..., k - 1. *)
Definition labels_in_range : Prop :=
  forall k b mtx, (0 < k)%Z -> Forall (fun l => (0 <= l < k)%Z) (fit_predict k b mtx).

(** A word: not empty, and without white space. *)
Definition is_word_of_text (w : str) : Prop := w <> [] /\ no_space w = true.

(** A line of the wrapped summary: it starts with the indent of two
    blanks, and it has at most 68 characters unless it holds one word of
    the summary only. *)
Definition wrapped_line (words : list str) (line : str) : Prop :=
  startswith line (lit "  ") = true /\
  (length line <= 68 \/ exists word, In word words /\ line = lit "  " ++ word).

(** * Properties *)

(** ** Strings and dictionaries *)

Lemma str_eqb_refl (s : str) : str_eqb s s = true.
Proof.
  induction s as [| c s IH]; simpl.
  - reflexivity.
  - now rewrite N.eqb_refl, IH.
Qed.

Lemma str_eqb_eq (a b : str) : str_eqb a b = true <-> a = b.
Proof.
  split.
  - revert b. induction a as [| x a IH]; intros [| y b] H; simpl in H;
      try discriminate; try reflexivity.
    apply andb_true_iff in H. destruct H as [Hxy Hab].
    apply N.eqb_eq in Hxy. apply IH in Hab. now subst.
  - intros ->. apply str_eqb_refl.
Qed.

Lemma values_app {A : Type} (d e : dict A) : values (d ++ e) = values d ++ values e.
Proof. unfold values. apply map_app. Qed.

Lemma assoc_get_app_fresh {A : Type} (key : str) (v : A) (d : dict A) :
  assoc_get key d = None -> assoc_get key (d ++ [(key, v)]) = Some v.
Proof.
  induction d as [| [k w] d IH]; simpl; intros H.
  - now rewrite str_eqb_refl.
  - destruct (str_eqb k key); [discriminate | now apply IH].
Qed.

Lemma sum_counts_app (ts us : list ErrorTemplate) :
  sum_counts (ts ++ us) = (sum_counts ts + sum_counts us)%Z.
Proof.
  induction ts as [| t ts IH]; simpl.
  - reflexivity.
  - rewrite IH. lia.
Qed.

(** Updating a key that is present adds [f]'s increment to the sum once. *)
Lemma sum_counts_dict_update (key : str) (f : ErrorTemplate -> ErrorTemplate)
  (d : dict ErrorTemplate) (v : ErrorTemplate) :
  (forall t, count (f t) = (count t + 1)%Z) ->
  assoc_get key d = Some v ->
  sum_counts (values (dict_update key f d)) = (sum_counts (values d) + 1)%Z.
Proof.
  intros Hf. induction d as [| [k w] d IH]; simpl; intros H.
  - discriminate.
  - destruct (str_eqb k key); simpl.
    + rewrite Hf. lia.
    + rewrite IH by exact H. lia.
Qed.

Lemma count_add_occurrence (t : ErrorTemplate) (msg : str) (line : Z) :
  count (add_occurrence t msg line) = (count t + 1)%Z.
Proof. reflexivity. Qed.

(** ** Normalizer: counting *)

Lemma process_entry_conserved (min_level : LogLevel)
  (st : list ParsedLogEntry * dict ErrorTemplate) (entry : ParsedLogEntry) :
  conserved st -> conserved (process_entry min_level st entry).
Proof.
  destruct st as [hs d]. unfold conserved, process_entry. simpl. intros Hst.
  destruct (is_high_signal min_level entry); simpl; [| exact Hst].
  rewrite length_app, Nat2Z.inj_add. simpl.
  destruct (assoc_get (normalize_message (message entry)) d) as [v |] eqn:Hget.
  - rewrite sum_counts_dict_update with (v := v);
      [lia | intros t; apply count_add_occurrence | exact Hget].
  - apply (assoc_get_app_fresh (A := ErrorTemplate)) with
      (v := {| template := normalize_message (message entry);
               original_messages := [];
               count := 0;
               first_occurrence_line := line_number entry |}) in Hget.
    rewrite sum_counts_dict_update with (1 := fun t => count_add_occurrence t _ _) (2 := Hget).
    rewrite values_app, sum_counts_app. simpl. lia.
Qed.

Lemma fold_process_entry_conserved (min_level : LogLevel) (entries : list ParsedLogEntry) :
  forall st, conserved st -> conserved (fold_left (process_entry min_level) entries st).
Proof.
  induction entries as [| e entries IH]; simpl; intros st Hst.
  - exact Hst.
  - apply IH, process_entry_conserved, Hst.
Qed.

(** C3. After [process_entries], the counts of all templates of the
    returned map add up to the number of high-signal entries returned,
    for every sequence of parsed entries and every configured level. *)
Theorem process_entries_count_conservation (min_level : LogLevel)
  (entries : list ParsedLogEntry) :
  sum_counts (values (snd (process_entries min_level entries))) =
  Z.of_nat (length (fst (process_entries min_level entries))).
Proof.
  unfold process_entries.
  apply fold_process_entry_conserved.
  unfold conserved. reflexivity.
Qed.

(** ** Sorting *)

Lemma insert_desc_perm {A : Type} (key : A -> Z) (x : A) (l : list A) :
  Permutation (insert_desc key x l) (x :: l).
Proof.
  induction l as [| y l IH]; simpl.
  - apply Permutation_refl.
  - destruct (Z.ltb (key x) (key y)).
    + rewrite IH. apply perm_swap.
    + apply Permutation_refl.
Qed.

Lemma sort_desc_perm {A : Type} (key : A -> Z) (l : list A) :
  Permutation (sort_desc key l) l.
Proof.
  induction l as [| x l IH]; simpl.
  - apply perm_nil.
  - rewrite insert_desc_perm. now apply perm_skip.
Qed.

Lemma insert_asc_perm {A : Type} (key : A -> Z) (x : A) (l : list A) :
  Permutation (insert_asc key x l) (x :: l).
Proof.
  induction l as [| y l IH]; simpl.
  - apply Permutation_refl.
  - destruct (Z.ltb (key y) (key x)).
    + rewrite IH. apply perm_swap.
    + apply Permutation_refl.
Qed.

Lemma sort_asc_perm {A : Type} (key : A -> Z) (l : list A) :
  Permutation (sort_asc key l) l.
Proof.
  induction l as [| x l IH]; simpl.
  - apply perm_nil.
  - rewrite insert_asc_perm. now apply perm_skip.
Qed.

Lemma insert_desc_descending {A : Type} (key : A -> Z) (x : A) (l : list A) :
  descending (map key l) -> descending (map key (insert_desc key x l)).
Proof.
  unfold descending. induction l as [| y l IH]; simpl; intros Hl.
  - repeat constructor.
  - inversion Hl as [| ? ? Hsorted Hall]; subst.
    destruct (Z.ltb (key x) (key y)) eqn:Hxy; simpl.
    + constructor.
      * now apply IH.
      * apply Z.ltb_lt in Hxy.
        assert (Hperm : Permutation (map key (insert_desc key x l)) (key x :: map key l))
          by (rewrite insert_desc_perm; reflexivity).
        eapply Permutation_Forall; [symmetry; exact Hperm |].
        constructor; [lia | exact Hall].
    + apply Z.ltb_ge in Hxy.
      constructor; [exact Hl |].
      constructor; [exact Hxy |].
      eapply Forall_impl; [| exact Hall]. simpl. intros; lia.
Qed.

Lemma sort_desc_descending {A : Type} (key : A -> Z) (l : list A) :
  descending (map key (sort_desc key l)).
Proof.
  induction l as [| x l IH]; simpl.
  - constructor.
  - now apply insert_desc_descending.
Qed.

(** ** Clustering: grouping by label *)

Lemma label_append_perm (label : Z) (t : ErrorTemplate) (d : list (Z * list ErrorTemplate)) :
  Permutation (flat_map snd (label_append label t d)) (t :: flat_map snd d).
Proof.
  induction d as [| [l ts] d IH]; simpl.
  - apply Permutation_refl.
  - destruct (Z.eqb l label); simpl.
    + rewrite <- app_assoc. simpl.
      rewrite <- Permutation_middle. reflexivity.
    + rewrite IH. symmetry. apply Permutation_middle.
Qed.

Lemma label_append_nonempty (label : Z) (t : ErrorTemplate) (d : list (Z * list ErrorTemplate)) :
  nonempty_groups d -> nonempty_groups (label_append label t d).
Proof.
  unfold nonempty_groups. induction d as [| [l ts] d IH]; simpl; intros Hd.
  - repeat constructor. discriminate.
  - inversion Hd; subst. destruct (Z.eqb l label); constructor; simpl; auto.
    now destruct ts.
Qed.

Lemma skipn_nth_error {A : Type} (l : list A) :
  forall i t, nth_error l i = Some t -> skipn i l = t :: skipn (S i) l.
Proof.
  induction l as [| x l IH]; intros [| i] t H; simpl in *; try discriminate.
  - now injection H as ->.
  - now apply IH.
Qed.

Lemma group_by_label_ok (templates : list ErrorTemplate) (labels : list Z) :
  forall i d,
    i + length labels <= length templates ->
    nonempty_groups d ->
    exists d',
      group_by_label templates i labels d = Some d' /\
      nonempty_groups d' /\
      Permutation (flat_map snd d')
                  (flat_map snd d ++ firstn (length labels) (skipn i templates)).
Proof.
  induction labels as [| label labels IH]; simpl; intros i d Hlen Hd.
  - exists d. rewrite app_nil_r. auto.
  - destruct (nth_error templates i) as [t |] eqn:Hnth.
    + destruct (IH (S i) (label_append label t d)) as (d' & Hrun & Hne & Hperm).
      * lia.
      * now apply label_append_nonempty.
      * exists d'. split; [exact Hrun | split; [exact Hne |]].
        rewrite Hperm, label_append_perm, (skipn_nth_error _ _ _ Hnth). simpl.
        apply Permutation_middle.
    + apply nth_error_None in Hnth. lia.
Qed.

Lemma max_by_count_nonempty (ts : list ErrorTemplate) :
  ts <> [] -> exists rep, max_by_count ts = Some rep.
Proof.
  destruct ts as [| t ts]; [congruence | intros _; simpl].
  destruct (max_by_count ts) as [b |]; [destruct (Z.leb (count b) (count t)) |]; eauto.
Qed.

Lemma make_clusters_ok (fn : list str) (labels : list Z) (mtx : Tfidf)
  (items : list (Z * list ErrorTemplate)) :
  nonempty_groups items ->
  exists cs,
    all_some (map (make_cluster fn labels mtx) items) = Some cs /\
    map templates cs = map snd items.
Proof.
  unfold nonempty_groups. induction items as [| [l ts] items IH]; simpl; intros Hne.
  - exists []. auto.
  - inversion Hne as [| ? ? Hts Hrest]; subst. simpl in Hts.
    destruct (max_by_count_nonempty _ Hts) as [rep ->].
    destruct (IH Hrest) as (cs & -> & Hcs).
    eexists. split; [reflexivity |]. simpl. now rewrite Hcs.
Qed.

Lemma renumber_templates (cs : list ErrorCluster) :
  forall i, map templates (renumber i cs) = map templates cs.
Proof. induction cs as [| c cs IH]; intros i; simpl; [| rewrite IH]; reflexivity. Qed.

Lemma renumber_total_count (cs : list ErrorCluster) :
  forall i, map total_count (renumber i cs) = map total_count cs.
Proof. induction cs as [| c cs IH]; intros i; simpl; [| rewrite IH]; reflexivity. Qed.

Lemma renumber_length (cs : list ErrorCluster) :
  forall i, length (renumber i cs) = length cs.
Proof. induction cs as [| c cs IH]; intros i; simpl; [| rewrite IH]; reflexivity. Qed.

Lemma renumber_ids (cs : list ErrorCluster) :
  forall i, map cluster_id (renumber i cs) =
            map (fun k => (i + Z.of_nat k)%Z) (seq 0 (length cs)).
Proof.
  induction cs as [| c cs IH]; intros i; simpl.
  - reflexivity.
  - rewrite IH, <- seq_shift, map_map. f_equal; [lia |].
    apply map_ext. intros k. lia.
Qed.

Lemma flat_map_templates (cs : list ErrorCluster) (ls : list (list ErrorTemplate)) :
  map templates cs = ls -> flat_map templates cs = concat ls.
Proof. intros <-. apply flat_map_concat_map. Qed.

(** What [_build_clusters] returns when there is one label per template. *)
Lemma build_clusters_ok (fn : list str) (ts : list ErrorTemplate) (labels : list Z)
  (mtx : Tfidf) :
  length labels = length ts ->
  exists cs,
    _build_clusters fn ts labels mtx = Some cs /\
    Permutation (flat_map templates cs) ts /\
    descending (map total_count cs) /\
    map cluster_id cs = map Z.of_nat (seq 0 (length cs)).
Proof.
  intros Hlen. unfold _build_clusters.
  destruct (group_by_label_ok ts labels 0 []) as (d & -> & Hne & Hperm);
    [simpl; lia | constructor |].
  assert (Hsorted : nonempty_groups (sort_asc fst d)).
  { unfold nonempty_groups.
    eapply Permutation_Forall; [symmetry; apply sort_asc_perm | exact Hne]. }
  destruct (make_clusters_ok fn labels mtx _ Hsorted) as (cs & -> & Hcs).
  eexists. split; [reflexivity |]. split; [| split].
  - rewrite (flat_map_templates _ _ (renumber_templates _ 0)).
    rewrite <- flat_map_concat_map.
    rewrite (Permutation_flat_map templates (sort_desc_perm total_count cs)).
    rewrite (flat_map_templates _ _ Hcs), <- flat_map_concat_map.
    rewrite (Permutation_flat_map snd (sort_asc_perm fst d)).
    rewrite Hperm. simpl. rewrite Hlen, firstn_all. reflexivity.
  - rewrite renumber_total_count. apply sort_desc_descending.
  - rewrite renumber_ids, renumber_length. reflexivity.
Qed.

(** ** Clustering: the result of [cluster_templates] *)

Lemma cluster_templates_cases (self : ErrorClusterer) (d : dict ErrorTemplate) :
  min_samples_per_cluster self <> 0%Z ->
  one_label_per_text ->
  cluster_templates self d = Some (_create_single_cluster (values d)) \/
  exists fn labels mtx,
    length labels = length (values d) /\
    cluster_templates self d = _build_clusters fn (values d) labels mtx.
Proof.
  intros Hmin Hlabels. unfold cluster_templates.
  destruct d as [| kv d]; [left; reflexivity |].
  set (ts := values (kv :: d)).
  destruct (Z.ltb (Z.of_nat (length ts)) (min_samples_per_cluster self)); [now left |].
  destruct (fit_transform (max_features self) _) as [mtx |] eqn:Hfit; [| now left].
  destruct (Z.eqb_spec (min_samples_per_cluster self) 0) as [H0 | _]; [contradiction |].
  destruct (Z.leb _ 1); [now left |].
  right. do 3 eexists. split; [| reflexivity].
  rewrite (Hlabels _ _ _ _ _ Hfit). apply length_map.
Qed.

Lemma single_cluster_members (ts : list ErrorTemplate) :
  flat_map templates (_create_single_cluster ts) = ts.
Proof.
  destruct ts as [| t ts]; simpl; [reflexivity |].
  now rewrite app_nil_r.
Qed.

Lemma NoDup_app_disjoint {A : Type} (l l' : list A) (x : A) :
  NoDup (l ++ l') -> In x l -> In x l' -> False.
Proof.
  induction l as [| a l IH]; simpl; intros Hnd Hl Hl'.
  - exact Hl.
  - inversion Hnd as [| ? ? Hnotin Hrest]; subst.
    destruct Hl as [-> | Hl].
    + apply Hnotin, in_or_app. now right.
    + now apply IH.
Qed.

Lemma member_of_flat_map (cs : list ErrorCluster) (i : nat) (t : ErrorTemplate) :
  member_of cs i t -> In t (flat_map templates cs).
Proof.
  intros (c & Hnth & Hin). apply in_flat_map. exists c.
  split; [eapply nth_error_In; exact Hnth | exact Hin].
Qed.

Lemma member_of_unique (cs : list ErrorCluster) (t : ErrorTemplate) :
  NoDup (flat_map templates cs) ->
  forall i j, member_of cs i t -> member_of cs j t -> i = j.
Proof.
  induction cs as [| c cs IH]; simpl; intros Hnd i j Hi Hj.
  - destruct Hi as (c & Hnth & _). now destruct i.
  - destruct i as [| i], j as [| j].
    + reflexivity.
    + exfalso. destruct Hi as (ci & Hci & Hin). injection Hci as <-.
      eapply NoDup_app_disjoint; [exact Hnd | exact Hin |].
      apply (member_of_flat_map _ j). exact Hj.
    + exfalso. destruct Hj as (cj & Hcj & Hin). injection Hcj as <-.
      eapply NoDup_app_disjoint; [exact Hnd | exact Hin |].
      apply (member_of_flat_map _ i). exact Hi.
    + f_equal. apply IH; [eapply NoDup_app_remove_l; exact Hnd | exact Hi | exact Hj].
Qed.

Lemma member_of_exists (cs : list ErrorCluster) (t : ErrorTemplate) :
  In t (flat_map templates cs) -> exists i, member_of cs i t.
Proof.
  intros Hin. apply in_flat_map in Hin. destruct Hin as (c & Hc & Ht).
  apply In_nth_error in Hc. destruct Hc as [i Hi]. exists i, c. auto.
Qed.

(** C4. The clusters returned by [cluster_templates] partition the
    templates of the map: the member lists together are a rearrangement
    of the input templates, and each template (the templates of a map
    are distinct) is a member of exactly one cluster.  The clusterer's
    minimum cluster size is not zero and scikit-learn returns one label
    per text. *)
Theorem cluster_templates_partition (self : ErrorClusterer) (d : dict ErrorTemplate) :
  min_samples_per_cluster self <> 0%Z ->
  one_label_per_text ->
  exists cs,
    cluster_templates self d = Some cs /\
    Permutation (flat_map templates cs) (values d) /\
    (NoDup (values d) ->
     forall t, In t (values d) ->
       exists i, member_of cs i t /\ forall j, member_of cs j t -> j = i).
Proof.
  intros Hmin Hlabels.
  assert (Hperm : exists cs, cluster_templates self d = Some cs /\
                             Permutation (flat_map templates cs) (values d)).
  { destruct (cluster_templates_cases self d Hmin Hlabels)
      as [-> | (fn & labels & mtx & Hlen & ->)].
    - eexists. split; [reflexivity |]. now rewrite single_cluster_members.
    - destruct (build_clusters_ok fn _ _ mtx Hlen) as (cs & Hcs & Hp & _).
      exists cs. auto. }
  destruct Hperm as (cs & Hcs & Hp). exists cs.
  split; [exact Hcs | split; [exact Hp |]].
  intros Hnd t Ht.
  assert (Hnd' : NoDup (flat_map templates cs))
    by (eapply Permutation_NoDup; [symmetry; exact Hp | exact Hnd]).
  destruct (member_of_exists cs t) as [i Hi].
  { eapply Permutation_in; [symmetry; exact Hp | exact Ht]. }
  exists i. split; [exact Hi |].
  intros j Hj. eapply member_of_unique; eauto.
Qed.

Lemma single_cluster_ranked (ts : list ErrorTemplate) :
  descending (map total_count (_create_single_cluster ts)) /\
  map cluster_id (_create_single_cluster ts) =
  map Z.of_nat (seq 0 (length (_create_single_cluster ts))).
Proof.
  destruct ts as [| t ts]; simpl; split; try reflexivity; repeat constructor.
Qed.

(** C5. The list returned by [cluster_templates] is ordered by total
    count, largest first, and the ids are 0, 1, ..., k-1 in list order;
    so the first cluster has id 0 and no cluster has a larger total
    count.  Same conditions as for the partition. *)
Theorem cluster_templates_ranked (self : ErrorClusterer) (d : dict ErrorTemplate) :
  min_samples_per_cluster self <> 0%Z ->
  one_label_per_text ->
  exists cs,
    cluster_templates self d = Some cs /\
    descending (map total_count cs) /\
    map cluster_id cs = map Z.of_nat (seq 0 (length cs)) /\
    match cs with
    | [] => d = []
    | c0 :: rest =>
        cluster_id c0 = 0%Z /\
        Forall (fun c => (total_count c <= total_count c0)%Z) rest
    end.
Proof.
  intros Hmin Hlabels.
  assert (Hrank : exists cs, cluster_templates self d = Some cs /\
                    descending (map total_count cs) /\
                    map cluster_id cs = map Z.of_nat (seq 0 (length cs)) /\
                    Permutation (flat_map templates cs) (values d)).
  { destruct (cluster_templates_cases self d Hmin Hlabels)
      as [-> | (fn & labels & mtx & Hlen & ->)].
    - eexists. split; [reflexivity |].
      destruct (single_cluster_ranked (values d)) as [Hdesc Hids].
      repeat split; auto.
      now rewrite single_cluster_members.
    - destruct (build_clusters_ok fn _ _ mtx Hlen) as (cs & Hcs & Hp & Hdesc & Hids).
      exists cs. repeat split; auto. }
  destruct Hrank as (cs & Hcs & Hdesc & Hids & Hp). exists cs.
  split; [exact Hcs | split; [exact Hdesc | split; [exact Hids |]]].
  destruct cs as [| c0 rest].
  - simpl in Hp. apply Permutation_nil in Hp. destruct d; [reflexivity | discriminate].
  - simpl in Hids. injection Hids as Hid0 _. split; [exact Hid0 |].
    simpl in Hdesc. inversion Hdesc as [| ? ? _ Hall]; subst.
    rewrite Forall_map in Hall. exact Hall.
Qed.

(** ** Clustering: keywords of the single-cluster fallback *)

Lemma counter_add_keys (w : str) (c : dict Z) (k : str) :
  In k (map fst (counter_add w c)) -> k = w \/ In k (map fst c).
Proof.
  induction c as [| [k' n] c IH]; simpl.
  - intros [<- | []]. now left.
  - destruct (str_eqb k' w); simpl; intros [<- | H]; auto.
    destruct (IH H); auto.
Qed.

Lemma counter_update_keys (words : list str) :
  forall (c : dict Z) (k : str),
    In k (map fst (counter_update c words)) -> In k words \/ In k (map fst c).
Proof.
  unfold counter_update.
  induction words as [| w words IH]; simpl; intros c k H.
  - now right.
  - destruct (IH _ _ H) as [Hw | Hc]; [now left; right |].
    destruct (counter_add_keys _ _ _ Hc) as [-> | Hc']; [left; now left | now right].
Qed.

Lemma word_counts_keys (ts : list ErrorTemplate) :
  forall (c : dict Z) (k : str),
    In k (map fst (fold_left (fun c t => counter_update c (counted_words t)) ts c)) ->
    (exists t, In t ts /\ In k (counted_words t)) \/ In k (map fst c).
Proof.
  induction ts as [| t ts IH]; simpl; intros c k H.
  - now right.
  - destruct (IH _ _ H) as [(t' & Ht' & Hk) | Hc].
    + left. exists t'. auto.
    + destruct (counter_update_keys _ _ _ Hc) as [Hw | Hc']; [| now right].
      left. exists t. auto.
Qed.

Lemma In_firstn {A : Type} (n : nat) (l : list A) (x : A) :
  In x (firstn n l) -> In x l.
Proof.
  revert l. induction n as [| n IH]; intros l H; simpl in H.
  - destruct H.
  - destruct l as [| y l]; simpl in H; [destruct H |].
    destruct H as [-> | H]; [now left | right; now apply IH].
Qed.

(** Every keyword of the fallback is a token of some template's
    lower-cased text that is no stop word and is longer than 2
    characters; there are at most 10. *)
Lemma extract_keywords_simple_sound (ts : list ErrorTemplate) :
  length (_extract_keywords_simple ts) <= 10 /\
  Forall (fun k =>
            existsb (str_eqb k) LOG_STOP_WORDS = false /\
            2 < length k /\
            exists t, In t ts /\ In k (re_findall TOKEN (lower (template t))))
         (_extract_keywords_simple ts).
Proof.
  unfold _extract_keywords_simple, most_common. split.
  - rewrite length_map. apply firstn_le_length.
  - apply Forall_forall. intros k Hk.
    apply in_map_iff in Hk. destruct Hk as ([k' n] & <- & Hin). simpl.
    apply In_firstn in Hin.
    apply (Permutation_in _ (sort_desc_perm snd _)) in Hin.
    apply (in_map fst) in Hin. simpl in Hin.
    destruct (word_counts_keys ts [] k' Hin) as [(t & Ht & Hw) | []].
    unfold counted_words in Hw. apply filter_In in Hw. destruct Hw as [Htok Hkw].
    unfold is_keyword in Hkw. apply andb_true_iff in Hkw. destruct Hkw as [Hstop Hlen].
    apply negb_true_iff in Hstop. apply Nat.ltb_lt in Hlen.
    split; [exact Hstop | split; [exact Hlen |]]. exists t. auto.
Qed.

(** *** The counter counts *)

Lemma count_if_app {A : Type} (f : A -> bool) (a b : list A) :
  count_if f (a ++ b) = (count_if f a + count_if f b)%Z.
Proof.
  unfold count_if. rewrite filter_app, length_app. lia.
Qed.

Lemma count_if_absent (w : str) (seen : list str) :
  ~ In w seen -> count_if (str_eqb w) seen = 0%Z.
Proof.
  unfold count_if. induction seen as [| x seen IH]; simpl; intros Hnot.
  - reflexivity.
  - destruct (str_eqb w x) eqn:Hwx.
    + apply str_eqb_eq in Hwx. exfalso. apply Hnot. now left.
    + apply IH. intros Hin. apply Hnot. now right.
Qed.

Lemma str_eqb_neq (a b : str) : a <> b -> str_eqb a b = false.
Proof.
  intros Hne. destruct (str_eqb a b) eqn:H; [| reflexivity].
  apply str_eqb_eq in H. contradiction.
Qed.

Lemma str_in_dec (w : str) (l : list str) : In w l \/ ~ In w l.
Proof.
  induction l as [| x l IH]; simpl; [now right |].
  destruct (str_eqb x w) eqn:Hx.
  - apply str_eqb_eq in Hx. now left; left.
  - destruct IH as [Hin | Hnot]; [now left; right |].
    right. intros [-> | Hin]; [| contradiction].
    now rewrite str_eqb_refl in Hx.
Qed.

Lemma counter_add_keys_eq (w : str) (c : dict Z) :
  (In w (map fst c) /\ map fst (counter_add w c) = map fst c) \/
  (~ In w (map fst c) /\ map fst (counter_add w c) = map fst c ++ [w]).
Proof.
  induction c as [| [k n] c IH]; simpl.
  - right. auto.
  - destruct (str_eqb k w) eqn:Hk; simpl.
    + apply str_eqb_eq in Hk. left. auto.
    + destruct IH as [[Hin Heq] | [Hnot Heq]]; rewrite Heq.
      * left. auto.
      * right. split; [| reflexivity].
        intros [-> | Hin]; [| contradiction].
        now rewrite str_eqb_refl in Hk.
Qed.

Lemma counter_add_values (w : str) (seen : list str) (c : dict Z) :
  NoDup (map fst c) ->
  (In w (map fst c) \/ count_if (str_eqb w) seen = 0%Z) ->
  Forall (fun kv => snd kv = count_if (str_eqb (fst kv)) seen) c ->
  Forall (fun kv => snd kv = count_if (str_eqb (fst kv)) (seen ++ [w])) (counter_add w c).
Proof.
  induction c as [| [k n] c IH]; simpl; intros Hnd Hw Hall.
  - constructor; [| constructor]. simpl.
    rewrite count_if_app. destruct Hw as [[] | ->].
    unfold count_if. simpl. now rewrite str_eqb_refl.
  - inversion Hnd as [| ? ? Hk Hnd']; subst.
    inversion Hall as [| ? ? Hn Hall']; subst. simpl in Hn.
    destruct (str_eqb k w) eqn:Hkw.
    + constructor.
      * simpl. rewrite count_if_app. unfold count_if at 2. simpl.
        rewrite Hkw. simpl. lia.
      * apply str_eqb_eq in Hkw. subst k.
        rewrite Forall_forall in Hall' |- *. intros [k' n'] Hin.
        pose proof (Hall' _ Hin) as Hn'. simpl in Hn' |- *.
        rewrite count_if_app. unfold count_if at 2. simpl.
        rewrite str_eqb_neq; [simpl; lia |].
        intros ->. apply Hk. apply (in_map fst) in Hin. exact Hin.
    + constructor.
      * simpl. rewrite count_if_app. unfold count_if at 2. simpl.
        rewrite Hkw. simpl. lia.
      * apply IH; [exact Hnd' | | exact Hall'].
        destruct Hw as [[-> | Hin] | H0]; [| now left | now right].
        now rewrite str_eqb_refl in Hkw.
Qed.

Lemma counter_add_counts (w : str) (c : dict Z) (seen : list str) :
  counts_of c seen -> counts_of (counter_add w c) (seen ++ [w]).
Proof.
  intros (Hnd & Hcover & Hall). repeat split.
  - destruct (counter_add_keys_eq w c) as [[_ ->] | [Hnot ->]]; [exact Hnd |].
    apply NoDup_app; [exact Hnd | constructor; [intros [] | constructor] |].
    intros a Ha [<- | []]. contradiction.
  - intros x Hx. apply in_app_or in Hx.
    destruct (counter_add_keys_eq w c) as [[Hin ->] | [_ ->]].
    + destruct Hx as [Hx | [<- | []]]; auto.
    + apply in_or_app. destruct Hx as [Hx | Hx]; auto.
  - apply counter_add_values; [exact Hnd | | exact Hall].
    destruct (str_in_dec w seen) as [Hin | Hnot].
    + left. now apply Hcover.
    + right. now apply count_if_absent.
Qed.

Lemma counter_update_counts (words : list str) :
  forall (c : dict Z) (seen : list str),
    counts_of c seen -> counts_of (counter_update c words) (seen ++ words).
Proof.
  unfold counter_update.
  induction words as [| w words IH]; simpl; intros c seen Hc.
  - now rewrite app_nil_r.
  - replace (seen ++ w :: words) with ((seen ++ [w]) ++ words)
      by (rewrite <- app_assoc; reflexivity).
    apply IH, counter_add_counts, Hc.
Qed.

Lemma word_counts_counts (ts : list ErrorTemplate) :
  forall (c : dict Z) (seen : list str),
    counts_of c seen ->
    counts_of (fold_left (fun c t => counter_update c (counted_words t)) ts c)
              (seen ++ flat_map counted_words ts).
Proof.
  induction ts as [| t ts IH]; simpl; intros c seen Hc.
  - now rewrite app_nil_r.
  - rewrite app_assoc. apply IH, counter_update_counts, Hc.
Qed.

Lemma descending_firstn (n : nat) (l : list Z) :
  descending l -> descending (firstn n l).
Proof.
  unfold descending. revert l. induction n as [| n IH]; intros [| x l] H; simpl;
    try constructor.
  - inversion H; subst. now apply IH.
  - inversion H as [| ? ? _ Hall]; subst.
    rewrite Forall_forall in Hall |- *. intros y Hy. apply Hall.
    now apply In_firstn in Hy.
Qed.

Lemma descending_app (a b : list Z) :
  descending (a ++ b) -> forall x y, In x a -> In y b -> (y <= x)%Z.
Proof.
  unfold descending. induction a as [| z a IH]; simpl; intros H x y Hx Hy.
  - destruct Hx.
  - inversion H as [| ? ? Hs Hall]; subst.
    destruct Hx as [<- | Hx].
    + rewrite Forall_forall in Hall. apply Hall, in_or_app. now right.
    + now apply (IH Hs x y).
Qed.

Lemma extract_keywords_simple_eq (ts : list ErrorTemplate) :
  _extract_keywords_simple ts =
  map fst (firstn 10 (sort_desc snd
    (fold_left (fun c t => counter_update c (counted_words t)) ts []))).
Proof. reflexivity. Qed.

(** *** Sorted lists *)

Lemma StronglySorted_snoc {A : Type} (R : A -> A -> Prop) (l : list A) (y : A) :
  StronglySorted R l -> Forall (fun x => R x y) l -> StronglySorted R (l ++ [y]).
Proof.
  induction 1 as [| x l Hl IH Hx]; intros Hall; simpl.
  - repeat constructor.
  - inversion Hall as [| ? ? Hxy Hrest]; subst. constructor.
    + now apply IH.
    + apply Forall_app. split; [exact Hx | now repeat constructor].
Qed.

Lemma StronglySorted_app_inv {A : Type} (R : A -> A -> Prop) (l1 l2 : list A) :
  StronglySorted R (l1 ++ l2) ->
  StronglySorted R l1 /\ StronglySorted R l2 /\
  forall a b, In a l1 -> In b l2 -> R a b.
Proof.
  induction l1 as [| x l1 IH]; cbn [app]; intros H.
  - split; [constructor | split; [exact H | intros a b []]].
  - inversion H as [| ? ? Hs Hall]; subst.
    destruct (IH Hs) as (H1 & H2 & H12).
    apply Forall_app in Hall. destruct Hall as (Hx1 & Hx2).
    split; [constructor; assumption | split; [exact H2 |]].
    intros a b [<- | Ha] Hb.
    + rewrite Forall_forall in Hx2. now apply Hx2.
    + now apply H12.
Qed.

Lemma StronglySorted_impl_in {A : Type} (R R' : A -> A -> Prop) (l : list A) :
  StronglySorted R l ->
  (forall a b, In a l -> In b l -> R a b -> R' a b) ->
  StronglySorted R' l.
Proof.
  induction 1 as [| x l Hs IH Hall]; intros Himpl.
  - constructor.
  - constructor.
    + apply IH. intros a b Ha Hb. apply Himpl; now right.
    + rewrite Forall_forall in Hall |- *. intros b Hb.
      apply Himpl; [now left | now right | now apply Hall].
Qed.

Lemma StronglySorted_map {A B : Type} (f : A -> B) (R : B -> B -> Prop) (l : list A) :
  StronglySorted (fun a b => R (f a) (f b)) l <-> StronglySorted R (map f l).
Proof.
  induction l as [| x l IH]; cbn [map].
  - split; constructor.
  - split; intros H; inversion H as [| ? ? Hs Hall]; subst; constructor.
    + now apply IH.
    + now rewrite Forall_map.
    + now apply IH.
    + now rewrite Forall_map in Hall.
Qed.

Lemma StronglySorted_NoDup {A : Type} (R : A -> A -> Prop) (l : list A) :
  (forall a, ~ R a a) -> StronglySorted R l -> NoDup l.
Proof.
  intros Hirr. induction 1 as [| x l Hs IH Hall]; constructor; [| exact IH].
  intros Hin. rewrite Forall_forall in Hall. exact (Hirr x (Hall x Hin)).
Qed.

(** Two lists in the order of a relation that no two elements satisfy
    both ways, with the same elements, are the same list. *)
Lemma StronglySorted_unique {A : Type} (R : A -> A -> Prop) :
  (forall a b, R a b -> R b a -> False) ->
  forall l1 l2 : list A,
    StronglySorted R l1 -> StronglySorted R l2 ->
    incl l1 l2 -> incl l2 l1 -> l1 = l2.
Proof.
  intros Hasym. induction l1 as [| x l1 IH]; intros [| y l2] H1 H2 H12 H21.
  - reflexivity.
  - destruct (H21 y (or_introl eq_refl)).
  - destruct (H12 x (or_introl eq_refl)).
  - inversion H1 as [| ? ? Hs1 Hall1]; inversion H2 as [| ? ? Hs2 Hall2]; subst.
    rewrite Forall_forall in Hall1, Hall2.
    assert (Hxy : x = y).
    { destruct (H12 x (or_introl eq_refl)) as [Hyx | Hx2]; [now symmetry |].
      destruct (H21 y (or_introl eq_refl)) as [Hxy | Hy1]; [exact Hxy |].
      destruct (Hasym x y (Hall1 y Hy1) (Hall2 x Hx2)). }
    subst y. f_equal. apply IH; [exact Hs1 | exact Hs2 | |].
    + intros a Ha. destruct (H12 a (or_intror Ha)) as [<- | Ha2]; [| exact Ha2].
      destruct (Hasym x x (Hall1 x Ha) (Hall1 x Ha)).
    + intros a Ha. destruct (H21 a (or_intror Ha)) as [<- | Ha1]; [| exact Ha1].
      destruct (Hasym x x (Hall2 x Ha) (Hall2 x Ha)).
Qed.

(** [sort_desc] puts the larger keys first and keeps the order of the
    list among equal keys. *)
Lemma insert_desc_ranked {A : Type} (key : A -> Z) (R : A -> A -> Prop) (x : A)
  (l : list A) :
  StronglySorted (fun a b => (key b < key a)%Z \/ (key a = key b /\ R a b)) l ->
  Forall (R x) l ->
  StronglySorted (fun a b => (key b < key a)%Z \/ (key a = key b /\ R a b))
    (insert_desc key x l).
Proof.
  induction l as [| y l IH]; intros Hs Hall; cbn [insert_desc].
  - repeat constructor.
  - inversion Hs as [| ? ? Hs' Hy]; inversion Hall as [| ? ? Hxy' Hall']; subst.
    destruct (Z.ltb (key x) (key y)) eqn:Hxy.
    + constructor; [now apply IH |].
      eapply Permutation_Forall; [apply Permutation_sym, insert_desc_perm |].
      constructor; [left; now apply Z.ltb_lt | exact Hy].
    + apply Z.ltb_ge in Hxy. constructor; [exact Hs |].
      rewrite Forall_forall in Hy, Hall |- *. intros z Hz.
      assert (Hzy : (key z <= key y)%Z).
      { destruct Hz as [<- | Hz]; [lia |].
        destruct (Hy z Hz) as [Hlt | [Heq _]]; lia. }
      destruct (Z.eq_dec (key x) (key z)) as [Heq | Hne].
      * right. split; [exact Heq | now apply Hall].
      * left. lia.
Qed.

Lemma sort_desc_ranked {A : Type} (key : A -> Z) (R : A -> A -> Prop) (l : list A) :
  StronglySorted R l ->
  StronglySorted (fun a b => (key b < key a)%Z \/ (key a = key b /\ R a b))
    (sort_desc key l).
Proof.
  induction 1 as [| x l Hs IH Hall]; unfold sort_desc; cbn [fold_right].
  - constructor.
  - apply insert_desc_ranked; [exact IH |].
    eapply Permutation_Forall; [apply Permutation_sym, sort_desc_perm | exact Hall].
Qed.

(** *** The counter keeps its words in the order they are first met *)

Lemma first_index_app_in (w : str) (seen l : list str) :
  In w seen -> first_index w (seen ++ l) = first_index w seen.
Proof.
  induction seen as [| x seen IH]; cbn [first_index app]; intros H; [destruct H |].
  destruct (str_eqb x w) eqn:Hx; [reflexivity |]. f_equal. apply IH.
  destruct H as [-> | H]; [| exact H]. now rewrite str_eqb_refl in Hx.
Qed.

Lemma first_index_in_lt (w : str) (seen : list str) :
  In w seen -> first_index w seen < length seen.
Proof.
  induction seen as [| x seen IH]; cbn [first_index length]; intros H; [destruct H |].
  destruct (str_eqb x w) eqn:Hx; [lia |].
  destruct H as [-> | H]; [now rewrite str_eqb_refl in Hx |].
  specialize (IH H). lia.
Qed.

Lemma first_index_app_absent (w : str) (seen : list str) :
  ~ In w seen -> first_index w (seen ++ [w]) = length seen.
Proof.
  induction seen as [| x seen IH]; cbn [first_index app length]; intros H.
  - now rewrite str_eqb_refl.
  - destruct (str_eqb x w) eqn:Hx.
    + apply str_eqb_eq in Hx. exfalso. apply H. now left.
    + f_equal. apply IH. intros Hin. apply H. now right.
Qed.

Lemma counter_add_order (w : str) (c : dict Z) (seen : list str) :
  counts_of c seen -> first_met_order c seen ->
  first_met_order (counter_add w c) (seen ++ [w]).
Proof.
  intros (_ & Hcover & _) (Hkeys & Hsorted).
  assert (Hold : StronglySorted
                   (fun a b => first_index a (seen ++ [w]) < first_index b (seen ++ [w]))
                   (map fst c)).
  { apply (StronglySorted_impl_in _ _ _ Hsorted). intros a b Ha Hb Hab.
    now rewrite !first_index_app_in by now apply Hkeys. }
  unfold first_met_order.
  destruct (counter_add_keys_eq w c) as [[Hin ->] | [Hnot ->]]; split.
  - intros k Hk. apply in_or_app. left. now apply Hkeys.
  - exact Hold.
  - intros k Hk. apply in_or_app. apply in_app_or in Hk.
    destruct Hk as [Hk | Hk]; [left; now apply Hkeys | now right].
  - apply StronglySorted_snoc; [exact Hold |].
    apply Forall_forall. intros k Hk.
    assert (Hw : ~ In w seen) by (intros Hw; apply Hnot; now apply Hcover).
    rewrite (first_index_app_absent w seen Hw), first_index_app_in by now apply Hkeys.
    apply first_index_in_lt. now apply Hkeys.
Qed.

Lemma counter_update_order (words : list str) :
  forall (c : dict Z) (seen : list str),
    counts_of c seen -> first_met_order c seen ->
    first_met_order (counter_update c words) (seen ++ words).
Proof.
  unfold counter_update.
  induction words as [| w words IH]; simpl; intros c seen Hc Ho.
  - now rewrite app_nil_r.
  - replace (seen ++ w :: words) with ((seen ++ [w]) ++ words)
      by (rewrite <- app_assoc; reflexivity).
    apply IH; [now apply counter_add_counts | now apply counter_add_order].
Qed.

Lemma word_counts_order (ts : list ErrorTemplate) :
  forall (c : dict Z) (seen : list str),
    counts_of c seen -> first_met_order c seen ->
    first_met_order (fold_left (fun c t => counter_update c (counted_words t)) ts c)
                    (seen ++ flat_map counted_words ts).
Proof.
  induction ts as [| t ts IH]; simpl; intros c seen Hc Ho.
  - now rewrite app_nil_r.
  - rewrite app_assoc.
    apply IH; [now apply counter_update_counts | now apply counter_update_order].
Qed.

(** *** The keywords of the fallback are the best-ranked counted tokens *)

Lemma extract_keywords_simple_ranked (ts : list ErrorTemplate) :
  keywords_by_frequency ts (_extract_keywords_simple ts).
Proof.
  destruct (extract_keywords_simple_sound ts) as [Hlen Hsound].
  split; [exact Hlen |]. split; [exact Hsound |].
  rewrite extract_keywords_simple_eq.
  set (wc := fold_left (fun c t => counter_update c (counted_words t)) ts []).
  assert (Hcounts : counts_of wc (flat_map counted_words ts)).
  { apply (word_counts_counts ts [] []).
    repeat split; [constructor | intros w [] | constructor]. }
  assert (Horder : first_met_order wc (flat_map counted_words ts)).
  { apply (word_counts_order ts [] []).
    - repeat split; [constructor | intros w [] | constructor].
    - split; [intros k [] | constructor]. }
  destruct Hcounts as (_ & Hcover & Hall). destruct Horder as (_ & Hsorted).
  set (sorted := sort_desc snd wc).
  assert (Hperm : Permutation sorted wc) by apply sort_desc_perm.
  assert (Hranked : StronglySorted (ranks_before ts) (map fst sorted)).
  { apply (proj1 (StronglySorted_map fst (ranks_before ts) sorted)).
    apply (StronglySorted_impl_in
             (fun a b => (snd b < snd a)%Z \/
                         (snd a = snd b /\
                          first_index (fst a) (flat_map counted_words ts) <
                          first_index (fst b) (flat_map counted_words ts)))).
    - apply sort_desc_ranked.
      apply (proj2 (StronglySorted_map fst
                      (fun a b => first_index a (flat_map counted_words ts) <
                                  first_index b (flat_map counted_words ts)) wc)).
      exact Hsorted.
    - intros a b Ha Hb Hab. rewrite Forall_forall in Hall.
      pose proof (Hall a (Permutation_in _ Hperm Ha)) as Hfa.
      pose proof (Hall b (Permutation_in _ Hperm Hb)) as Hfb.
      unfold ranks_before, frequency. rewrite <- Hfa, <- Hfb. exact Hab. }
  rewrite <- (firstn_skipn 10 sorted), map_app in Hranked.
  destruct (StronglySorted_app_inv _ _ _ Hranked) as (Hfirst & _ & Htop).
  assert (Hin : forall w, In w (flat_map counted_words ts) -> In w (map fst sorted)).
  { intros w Hw.
    apply (Permutation_in _ (Permutation_map fst (Permutation_sym Hperm))).
    now apply Hcover. }
  split; [| split; [exact Hfirst |]].
  - intros Hfew w Hw. rewrite length_map, length_firstn in Hfew.
    rewrite firstn_all2 by lia. now apply Hin.
  - intros w k Hw Hnot Hk. apply Htop; [exact Hk |].
    specialize (Hin w Hw). rewrite <- (firstn_skipn 10 sorted), map_app in Hin.
    apply in_app_or in Hin. destruct Hin as [Hin | Hin]; [contradiction | exact Hin].
Qed.

Lemma ranks_before_asymmetric (ts : list ErrorTemplate) (a b : str) :
  ranks_before ts a b -> ranks_before ts b a -> False.
Proof. unfold ranks_before. intros [H1 | [H1 H1']] [H2 | [H2 H2']]; lia. Qed.

Lemma keywords_counted (ts : list ErrorTemplate) (ks : list str) (k : str) :
  keywords_by_frequency ts ks -> In k ks -> In k (flat_map counted_words ts).
Proof.
  intros (_ & Hsound & _) Hk. rewrite Forall_forall in Hsound.
  destruct (Hsound k Hk) as (Hstop & Hlong & t & Ht & Htoken).
  apply in_flat_map. exists t. split; [exact Ht |].
  unfold counted_words. apply filter_In. split; [exact Htoken |].
  rewrite Hstop. apply Nat.ltb_lt in Hlong. now rewrite Hlong.
Qed.

Lemma incl_or_not (l l' : list str) : incl l l' \/ exists x, In x l /\ ~ In x l'.
Proof.
  induction l as [| x l IH].
  - left. intros a [].
  - destruct (str_in_dec x l') as [Hx | Hx]; [| right; exists x; split; [now left | exact Hx]].
    destruct IH as [Hincl | (y & Hy & Hnot)].
    + left. intros a [<- | Ha]; [exact Hx | now apply Hincl].
    + right. exists y. split; [now right | exact Hnot].
Qed.

Lemma keywords_by_frequency_incl (ts : list ErrorTemplate) (ks1 ks2 : list str) :
  keywords_by_frequency ts ks1 -> keywords_by_frequency ts ks2 -> incl ks1 ks2.
Proof.
  intros H1 H2 w Hw1.
  destruct (str_in_dec w ks2) as [Hw2 | Hw2]; [exact Hw2 | exfalso].
  pose proof (keywords_counted ts ks1 w H1 Hw1) as Hw.
  destruct H1 as (Hlen1 & _ & _ & Hsorted1 & Htop1).
  pose proof (keywords_counted ts ks2) as Hcounted2.
  destruct H2 as (Hlen2 & Hsound2 & Hall2 & Hsorted2 & Htop2).
  assert (Hfull : length ks2 = 10).
  { destruct (Nat.lt_ge_cases (length ks2) 10) as [Hfew | Hfull]; [| lia].
    destruct (Hw2 (Hall2 Hfew w Hw)). }
  assert (Hnd2 : NoDup ks2).
  { apply (StronglySorted_NoDup (ranks_before ts)); [| exact Hsorted2].
    intros a Ha. exact (ranks_before_asymmetric ts a a Ha Ha). }
  destruct (incl_or_not ks2 ks1) as [Hincl | (k & Hk2 & Hk1)].
  - apply Hw2. apply (@NoDup_length_incl str ks2 ks1 Hnd2); [lia | exact Hincl | exact Hw1].
  - apply (ranks_before_asymmetric ts w k).
    + apply Htop1; [| exact Hk1 | exact Hw1].
      apply Hcounted2; [| exact Hk2]. now repeat split.
    + now apply Htop2.
Qed.

(** The description by frequency and rank leaves no choice: it fits
    one list only. *)
Lemma keywords_by_frequency_unique (ts : list ErrorTemplate) (ks1 ks2 : list str) :
  keywords_by_frequency ts ks1 -> keywords_by_frequency ts ks2 -> ks1 = ks2.
Proof.
  intros H1 H2.
  apply (StronglySorted_unique (ranks_before ts) (ranks_before_asymmetric ts)).
  - now destruct H1 as (_ & _ & _ & Hsorted & _).
  - now destruct H2 as (_ & _ & _ & Hsorted & _).
  - now apply (keywords_by_frequency_incl ts).
  - now apply (keywords_by_frequency_incl ts).
Qed.

(** C7. [cluster_templates] returns on degenerate input: the empty list
    for an empty map; and for a non-empty map with fewer templates than
    the minimum cluster size, or whose texts the vectorizer rejects (no
    usable feature), one cluster with id 0 that holds every template,
    whose keywords are those of [_extract_keywords_simple].  These are
    the keywords obtained by frequency counting of the tokens that are
    no stop words and longer than 2 characters: the 10 best-ranked of
    them (all of them when there are fewer), the most frequent first and
    the first met first among equally frequent ones; no other list fits
    this description. *)
Theorem cluster_templates_degenerate (self : ErrorClusterer) (d : dict ErrorTemplate) :
  d = [] \/
  (Z.of_nat (length (values d)) < min_samples_per_cluster self)%Z \/
  fit_transform (max_features self)
    (map (fun t => _prepare_text (template t)) (values d)) = None ->
  (d = [] -> cluster_templates self d = Some []) /\
  (d <> [] ->
   exists c,
     cluster_templates self d = Some [c] /\
     cluster_id c = 0%Z /\
     templates c = values d /\
     total_count c = sum_counts (values d) /\
     keywords c = _extract_keywords_simple (values d) /\
     keywords_by_frequency (values d) (keywords c) /\
     forall ks, keywords_by_frequency (values d) ks -> ks = keywords c).
Proof.
  intros Hdeg. split.
  - intros ->. reflexivity.
  - intros Hne.
    assert (Hsingle : cluster_templates self d = Some (_create_single_cluster (values d))).
    { unfold cluster_templates. destruct d as [| kv d]; [congruence |].
      destruct Hdeg as [Hd | [Hfew | Hfit]].
      - discriminate.
      - apply Z.ltb_lt in Hfew. now rewrite Hfew.
      - destruct (Z.ltb _ _); [reflexivity |]. now rewrite Hfit. }
    rewrite Hsingle.
    destruct d as [| [k t0] d]; [congruence |]. simpl.
    eexists. split; [reflexivity |]. simpl.
    pose proof (extract_keywords_simple_ranked (t0 :: values d)) as Hranked.
    split; [reflexivity |]. split; [reflexivity |]. split; [reflexivity |].
    split; [reflexivity |]. split; [exact Hranked |].
    intros ks Hks. exact (keywords_by_frequency_unique _ _ _ Hks Hranked).
Qed.

(** ** Aggregation: the digest for the summarisation service *)

Lemma cluster_digest_same (c1 c2 : ErrorCluster) :
  same_statistics c1 c2 -> cluster_digest c1 = cluster_digest c2.
Proof.
  intros (Hid & Hcount & Hlen & Hkw & Hrep).
  unfold cluster_digest. now rewrite Hid, Hcount, Hlen, Hkw, Hrep.
Qed.

(** C9. The digest depends only on each cluster's id, total count,
    number of member templates, keywords and representative template:
    two cluster lists that agree on these, whatever their templates'
    stored original messages are, give the same string. *)
Theorem prepare_cluster_summary_for_llm_noninterference (cs1 cs2 : list ErrorCluster) :
  Forall2 same_statistics cs1 cs2 ->
  prepare_cluster_summary_for_llm cs1 = prepare_cluster_summary_for_llm cs2.
Proof.
  intros Hsame.
  assert (Hdigest : flat_map cluster_digest cs1 = flat_map cluster_digest cs2).
  { induction Hsame as [| c1 c2 cs1 cs2 Hc _ IH]; cbn [flat_map].
    - reflexivity.
    - now rewrite (cluster_digest_same c1 c2 Hc), IH. }
  unfold prepare_cluster_summary_for_llm.
  destruct Hsame; [reflexivity |]. now rewrite Hdigest.
Qed.

(** ** Clustering: the representative on the k-means path *)

Lemma max_by_count_largest (ts : list ErrorTemplate) :
  forall rep,
    max_by_count ts = Some rep ->
    In rep ts /\ Forall (fun t => (count t <= count rep)%Z) ts.
Proof.
  induction ts as [| t ts IH]; simpl; intros rep H; [discriminate |].
  destruct (max_by_count ts) as [b |] eqn:Hb.
  - destruct (IH b eq_refl) as [Hin Hall].
    destruct (Z.leb (count b) (count t)) eqn:Hle; injection H as <-.
    + apply Z.leb_le in Hle. split; [now left |].
      constructor; [lia |].
      eapply Forall_impl; [| exact Hall]. simpl. intros; lia.
    + apply Z.leb_gt in Hle. split; [now right |].
      constructor; [lia | exact Hall].
  - injection H as <-. destruct ts as [| t' ts].
    + split; [now left |]. constructor; [lia | constructor].
    + simpl in Hb. destruct (max_by_count ts) as [b |];
        [destruct (Z.leb (count b) (count t')) |]; discriminate.
Qed.

Lemma make_clusters_represent (fn : list str) (labels : list Z) (mtx : Tfidf)
  (items : list (Z * list ErrorTemplate)) :
  forall cs,
    all_some (map (make_cluster fn labels mtx) items) = Some cs ->
    Forall represents_largest cs.
Proof.
  induction items as [| [l ts] items IH]; simpl; intros cs H.
  - injection H as <-. constructor.
  - destruct (max_by_count ts) as [rep |] eqn:Hrep; [| discriminate].
    destruct (all_some _) as [cs' |]; [| discriminate].
    injection H as <-. constructor; [| now apply IH].
    destruct (max_by_count_largest ts rep Hrep) as [Hin Hall].
    exists rep. simpl. auto.
Qed.

Lemma renumber_represents (cs : list ErrorCluster) :
  forall i, Forall represents_largest cs -> Forall represents_largest (renumber i cs).
Proof.
  induction cs as [| c cs IH]; simpl; intros i H; [constructor |].
  inversion H; subst. constructor; [assumption | now apply IH].
Qed.

(** X2. On the k-means path ([_build_clusters]) every cluster's
    representative is the text of a member of largest count (what C6
    says, and what the single-cluster fallback does not do). *)
Lemma build_clusters_representative (fn : list str) (ts : list ErrorTemplate)
  (labels : list Z) (mtx : Tfidf) :
  forall cs,
    _build_clusters fn ts labels mtx = Some cs -> Forall represents_largest cs.
Proof.
  unfold _build_clusters. intros cs H.
  destruct (group_by_label ts 0 labels []) as [d |]; [| discriminate].
  destruct (all_some _) as [cs0 |] eqn:Hcs0; [| discriminate].
  injection H as <-. apply renumber_represents.
  eapply Permutation_Forall; [symmetry; apply sort_desc_perm |].
  eapply make_clusters_represent. exact Hcs0.
Qed.

(** ** Ingestion: splitting into lines *)

Lemma split_nl_app (a b : str) :
  split_nl (a ++ b) =
  let '(la, lasta) := split_nl a in
  let '(lb, lastb) := split_nl (lasta ++ b) in
  (la ++ lb, lastb).
Proof.
  induction a as [| c a IH]; simpl.
  - now destruct (split_nl b).
  - rewrite IH. destruct (split_nl a) as [la lasta].
    destruct (N.eqb c NL) eqn:Hc.
    + now destruct (split_nl (lasta ++ b)).
    + destruct la as [| l la]; simpl.
      * rewrite Hc. now destruct (split_nl (lasta ++ b)) as [[| l lb] lastb].
      * now destruct (split_nl (lasta ++ b)).
Qed.

Lemma split_nl_no_newline (s : str) :
  no_newline s = true -> split_nl s = ([], s).
Proof.
  unfold no_newline. induction s as [| c s IH]; simpl; intros H; [reflexivity |].
  apply andb_true_iff in H. destruct H as [Hc Hs].
  apply negb_true_iff in Hc. now rewrite (IH Hs), Hc.
Qed.

Lemma split_nl_last (s : str) : no_newline (snd (split_nl s)) = true.
Proof.
  unfold no_newline. induction s as [| c s IH]; simpl; [reflexivity |].
  destruct (split_nl s) as [ls last]. simpl in IH.
  destruct (N.eqb c NL) eqn:Hc; simpl; [exact IH |].
  destruct ls; simpl; [now rewrite Hc | exact IH].
Qed.

Lemma firstn_nil_inv {A : Type} (n : nat) (l : list A) :
  0 < n -> firstn n l = [] -> l = [].
Proof.
  destruct n; [lia |]. now destruct l.
Qed.

(** The chunked loop over a text yields the lines of the buffer followed
    by the text, whatever the chunk size. *)
Lemma read_text_loop_lines (n : nat) (fuel : nat) :
  0 < n ->
  forall text buffer,
    length text < fuel ->
    no_newline buffer = true ->
    read_text_loop fuel n text buffer = lines_of (buffer ++ text).
Proof.
  intros Hn. induction fuel as [| fuel IH]; intros text buffer Hlen Hbuf; [lia |].
  cbn [read_text_loop].
  destruct (firstn n text) as [| c chunk] eqn:Hchunk.
  - apply (firstn_nil_inv n text Hn) in Hchunk. subst text.
    rewrite app_nil_r. unfold lines_of. rewrite (split_nl_no_newline _ Hbuf).
    reflexivity.
  - rewrite <- Hchunk.
    replace (buffer ++ text) with ((buffer ++ firstn n text) ++ skipn n text)
      by (rewrite <- app_assoc, firstn_skipn; reflexivity).
    unfold lines_of.
    rewrite (split_nl_app (buffer ++ firstn n text) (skipn n text)).
    pose proof (split_nl_last (buffer ++ firstn n text)) as Hlast.
    destruct (split_nl (buffer ++ firstn n text)) as [lines last]. simpl in Hlast.
    cbv beta iota. rewrite IH.
    + unfold lines_of. destruct (split_nl (last ++ skipn n text)) as [lb lastb].
      now rewrite app_assoc.
    + rewrite length_skipn.
      assert (length (firstn n text) <> 0) by (rewrite Hchunk; discriminate).
      rewrite length_firstn in H. lia.
    + exact Hlast.
Qed.

Lemma decode_strict_ascii (fuel : nat) :
  forall b : bytes,
    length b <= fuel -> forallb is_ascii b = true -> decode_strict fuel b = Some b.
Proof.
  induction fuel as [| fuel IH]; intros [| c b] Hlen Hascii; simpl in *;
    try reflexivity; try lia.
  apply andb_true_iff in Hascii. destruct Hascii as [Hc Hb].
  unfold is_ascii in Hc. rewrite Hc. simpl.
  rewrite IH by (auto; lia). reflexivity.
Qed.

Lemma decode_replace_ascii (fuel : nat) :
  forall b : bytes,
    length b <= fuel -> forallb is_ascii b = true -> decode_replace fuel b = b.
Proof.
  induction fuel as [| fuel IH]; intros [| c b] Hlen Hascii; simpl in *;
    try reflexivity; try lia.
  apply andb_true_iff in Hascii. destruct Hascii as [Hc Hb].
  unfold is_ascii in Hc. rewrite Hc.
  rewrite IH by (auto; lia). reflexivity.
Qed.

Lemma forallb_firstn {A : Type} (f : A -> bool) (n : nat) (l : list A) :
  forallb f l = true -> forallb f (firstn n l) = true.
Proof.
  revert l. induction n as [| n IH]; intros [| x l]; simpl; auto.
  intros H. apply andb_true_iff in H. destruct H as [-> H]. now apply IH.
Qed.

Lemma forallb_skipn {A : Type} (f : A -> bool) (n : nat) (l : list A) :
  forallb f l = true -> forallb f (skipn n l) = true.
Proof.
  revert l. induction n as [| n IH]; intros [| x l]; simpl; auto.
  intros H. apply andb_true_iff in H. destruct H as [_ H]. now apply IH.
Qed.

(** On a file of ASCII bytes the plain loop is the loop over its text. *)
Lemma read_plain_loop_ascii (n : nat) (fuel : nat) :
  forall (file : bytes) (buffer : str),
    forallb is_ascii file = true ->
    read_plain_loop fuel n file buffer = read_text_loop fuel n file buffer.
Proof.
  induction fuel as [| fuel IH]; intros file buffer Hascii; [reflexivity |].
  cbn [read_plain_loop read_text_loop]. unfold bytes, str, char in *.
  destruct (firstn n file) as [| c chunk] eqn:Hchunk; [reflexivity |].
  rewrite <- Hchunk. unfold decode_chunk.
  rewrite decode_strict_ascii by (auto using forallb_firstn).
  destruct (split_nl (buffer ++ firstn n file)) as [lines last].
  rewrite IH by now apply forallb_skipn. reflexivity.
Qed.

(** X1. On a stream of ASCII bytes [_read_plain_file] yields exactly the
    lines of the decoded stream split on newline, the trailing piece
    when it is not empty (the part of C8 that holds: no character can
    straddle a chunk boundary). *)
Lemma read_plain_file_ascii (file : bytes) :
  forallb is_ascii file = true -> _read_plain_file file = spec_plain_lines file.
Proof.
  intros Hascii. unfold _read_plain_file, spec_plain_lines.
  rewrite read_plain_loop_ascii by exact Hascii.
  rewrite decode_replace_ascii by auto.
  apply (read_text_loop_lines CHUNK_SIZE (S (length file))).
  - unfold CHUNK_SIZE. lia.
  - apply Nat.lt_succ_diag_r.
  - reflexivity.
Qed.

(** ** The pipeline on concrete inputs *)

(** C2. On the five lines the parser yields four entries, not two: the
    line "Traceback (most recent call last):" does not start with white
    space and matches no continuation pattern, so it ends the pending
    ERROR entry (left single-line, without the traceback) and starts an
    entry of its own, which takes the "File" line; "ValueError: bad
    input" is a third entry and the INFO line the fourth. *)
Theorem parse_lines_five_lines :
  parse_lines five_lines =
  [ plain_entry (lit "2024-01-15 10:30:45 ERROR Exception occurred") 1 ERROR
      (lit "Exception occurred")
      (Some (lit "2024-01-15 10:30:45 ERROR Exception occurred")) false;
    plain_entry traceback_with_frame 2 ERROR
      (lit "Traceback (most recent call last):") (Some traceback_with_frame) true;
    plain_entry (lit "ValueError: bad input") 4 ERROR
      (lit "ValueError: bad input") (Some (lit "ValueError: bad input")) false;
    plain_entry (lit "2024-01-15 10:30:46 INFO Normal log") 5 INFO
      (lit "Normal log") None false ] /\
  _is_continuation_line (lit "Traceback (most recent call last):") = false.
Proof.
  split.
  - vm_compute. reflexivity.
  - vm_compute. reflexivity.
Qed.

(** C6. In the single-cluster fallback the representative is the first
    template of the map, not the one of highest count: for the log
    above the cluster's representative is "disk failed" (count 1) while
    its member of highest count is "net failed" (count 5). *)
Theorem single_cluster_representative_is_first :
  exists c t,
    cluster_templates default_clusterer
      (snd (process_entries WARN (parse_lines disk_net_log))) = Some [c] /\
    representative_sample c = lit "disk failed" /\
    max_by_count (templates c) = Some t /\
    template t = lit "net failed" /\
    count t = 5%Z /\
    map count (templates c) = [1; 5]%Z.
Proof.
  assert (Hmap : snd (process_entries WARN (parse_lines disk_net_log)) =
                 [ (lit "disk failed",
                    {| template := lit "disk failed";
                       original_messages := [lit "disk failed"];
                       count := 1; first_occurrence_line := 1 |});
                   (lit "net failed",
                    {| template := lit "net failed";
                       original_messages := repeat (lit "net failed") 3;
                       count := 5; first_occurrence_line := 2 |}) ])
    by (vm_compute; reflexivity).
  rewrite Hmap. unfold cluster_templates, default_clusterer.
  cbn [values map snd length min_samples_per_cluster max_clusters max_features Z.of_nat].
  change (Z.ltb _ 2) with false. cbv iota.
  destruct (fit_transform _ _) as [mtx |].
  - change (Z.eqb 2 0) with false. cbv iota.
    change (Z.leb _ 1) with true. cbv iota.
    do 2 eexists. split; [reflexivity |]. vm_compute. repeat split; reflexivity.
  - do 2 eexists. split; [reflexivity |]. vm_compute. repeat split; reflexivity.
Qed.

(** C8. A character whose bytes straddle a chunk boundary is decoded as
    two replacement characters: the file above is one valid line of
    65536 characters ending in U+00E9, and [_read_plain_file] yields a
    line of 65537 characters ending in U+FFFD U+FFFD. *)
Theorem read_plain_file_splits_character :
  map line_end (_read_plain_file split_e_acute) =
    [(65537%N, [REPLACEMENT; REPLACEMENT])] /\
  map line_end (spec_plain_lines split_e_acute) = [(65536%N, [233%N])] /\
  decode_strict (length split_e_acute) split_e_acute <> None.
Proof.
  split; [| split].
  - vm_compute. reflexivity.
  - vm_compute. reflexivity.
  - intros H.
    assert (Hsome : is_some (decode_strict (length split_e_acute) split_e_acute) = true)
      by (vm_compute; reflexivity).
    rewrite H in Hsome. discriminate.
Qed.

(** C10. [analyze] counts parsed entries, not lines: the file above has
    three lines, and the result reports two (and its summary says
    "Processed 2 lines"). *)
Theorem analyze_counts_entries :
  read_log_file blank_line_file (lit "app.log") =
    Some [lit "INFO started"; []; lit "INFO done"] /\
  exists r,
    analyze (new_LogAnalyzer 10 WARN false None) blank_line_file (lit "app.log") = Some r /\
    total_lines r = 2%Z /\
    llm_summary r = Some (lit "Processed 2 lines. No significant errors detected.").
Proof.
  split.
  - vm_compute. reflexivity.
  - eexists. split.
    + vm_compute. reflexivity.
    + split; vm_compute; reflexivity.
Qed.

(** ** The repository's tests, on the model *)

(** test_parse_plain_text_log *)
Example parse_plain_text_log :
  map level (parse_lines [lit "2024-01-15 10:30:45 ERROR Connection failed to database"]) =
  [ERROR].
Proof. vm_compute. reflexivity. Qed.

(** test_parse_various_levels *)
Example parse_various_levels :
  map level (parse_lines
    [ lit "2024-01-15 DEBUG Debug message";
      lit "2024-01-15 INFO Info message";
      lit "2024-01-15 WARN Warning message";
      lit "2024-01-15 ERROR Error message";
      lit "2024-01-15 FATAL Fatal message" ]) =
  [DEBUG; INFO; WARN; ERROR; FATAL].
Proof. vm_compute. reflexivity. Qed.

(** test_parse_multiline_stacktrace: its six lines give four entries,
    the first one single-line; the test expects two, the first one
    multiline. *)
Example parse_multiline_stacktrace :
  map (fun e => (line_number e, is_multiline e))
    (parse_lines
      [ lit "2024-01-15 10:30:45 ERROR Exception occurred";
        lit "Traceback (most recent call last):";
        lit "  File " ++ [QUOTE] ++ lit "app.py" ++ [QUOTE] ++ lit ", line 42, in process";
        lit "    raise ValueError(" ++ [QUOTE] ++ lit "Invalid input" ++ [QUOTE] ++ lit ")";
        lit "ValueError: Invalid input";
        lit "2024-01-15 10:30:46 INFO Normal log" ]) =
  [(1, false); (2, true); (5, false); (6, false)]%Z.
Proof. vm_compute. reflexivity. Qed.

(** test_normalize_uuid, test_normalize_ip, test_normalize_timestamp,
    test_normalize_url *)
Example normalize_examples :
  map normalize_message
    [ lit "User 123e4567-e89b-12d3-a456-426614174000 logged in";
      lit "Connection from 192.168.1.100 refused";
      lit "Event at 2024-01-15T10:30:45Z processed";
      lit "Failed to connect to https://api.example.com/v1/users" ] =
  [ lit "User <UUID> logged in";
    lit "Connection from <IP> refused";
    lit "Event at <TIMESTAMP> processed";
    lit "Failed to connect to <URL>" ].
Proof. vm_compute. reflexivity. Qed.

(** test_is_high_signal_error, test_is_high_signal_exception,
    test_is_not_high_signal_debug *)
Example is_high_signal_examples :
  map (is_high_signal WARN)
    [ plain_entry (lit "ERROR: Something failed") 1 ERROR (lit "Something failed") None false;
      plain_entry (lit "INFO: Exception caught") 1 INFO (lit "Processing request")
        (Some (lit "NullPointerException")) false;
      plain_entry (lit "DEBUG: Entering method") 1 DEBUG (lit "Entering method") None false ] =
  [true; true; false].
Proof. vm_compute. reflexivity. Qed.

(** test_empty_templates, test_single_template *)
Example cluster_small_maps :
  cluster_templates default_clusterer [] = Some [] /\
  option_map (map total_count) (cluster_templates default_clusterer one_template) = Some [1%Z].
Proof. split; vm_compute; reflexivity. Qed.

(** ** Normalization: when a second pass changes nothing *)

Lemma not_found_no_match (r : re) (s : str) :
  negb (found r s) = true -> re_search r s = None.
Proof.
  unfold found. destruct (re_search r s); simpl; [discriminate | reflexivity].
Qed.

Lemma re_sub_no_match (r : re) (t : repl) (s : str) :
  re_search r s = None -> re_sub r t s = s.
Proof.
  unfold re_sub, re_search. intros H. cbn [sub_loop before after].
  now rewrite H.
Qed.

Lemma apply_patterns_no_match (ps : list (re * str)) (s : str) :
  forallb (fun rule => negb (found (fst rule) s)) ps = true ->
  apply_patterns ps s = s.
Proof.
  unfold apply_patterns. induction ps as [| rule ps IH]; simpl; intros H.
  - reflexivity.
  - apply andb_true_iff in H. destruct H as [Hrule Hps].
    rewrite re_sub_no_match by now apply not_found_no_match.
    now apply IH.
Qed.

(** *** The whitespace pass, read off the matcher *)

Lemma lstrip_length (s : str) : length (lstrip s) <= length s.
Proof.
  induction s as [| c s IH]; simpl; [lia |].
  destruct (is_space c); simpl; lia.
Qed.

Lemma squeeze_lstrip (s : str) : squeeze true s = squeeze false (lstrip s).
Proof.
  induction s as [| c s IH]; simpl; [reflexivity |].
  destruct (is_space c) eqn:Hc; [exact IH |].
  simpl. now rewrite Hc.
Qed.

Lemma squeeze_no_space (pre rest : str) :
  no_space pre = true -> squeeze false (pre ++ rest) = pre ++ squeeze false rest.
Proof.
  unfold no_space. induction pre as [| c pre IH]; simpl; intros H; [reflexivity |].
  apply andb_true_iff in H. destruct H as [Hc Hpre].
  apply negb_true_iff in Hc. rewrite Hc. now rewrite IH.
Qed.

Lemma space_split (s : str) :
  no_space s = true \/
  exists pre c rest, s = pre ++ c :: rest /\ no_space pre = true /\ is_space c = true.
Proof.
  unfold no_space. induction s as [| c s IH]; simpl; [now left |].
  destruct (is_space c) eqn:Hc.
  - right. exists [], c, s. auto.
  - destruct IH as [Hs | (pre & x & rest & -> & Hpre & Hx)].
    + now left.
    + right. exists (c :: pre), x, rest. simpl. rewrite Hc. auto.
Qed.

Lemma m_Cls (c : char -> bool) (p : pos) (g : groups) (k : pos -> groups -> option result) :
  m (Cls c) p g k =
  match after p with
  | x :: rest => if c x then k (Pos (x :: before p) rest) g else None
  | [] => None
  end.
Proof. reflexivity. Qed.

Lemma m_Seq (r1 r2 : re) (p : pos) (g : groups) (k : pos -> groups -> option result) :
  m (Seq r1 r2) p g k = m r1 p g (fun p' g' => m r2 p' g' k).
Proof. reflexivity. Qed.

Lemma m_Star (r : re) (p : pos) (g : groups) (k : pos -> groups -> option result) :
  m (Star r) p g k = star_loop (m r) k (S (length (after p))) p g.
Proof. reflexivity. Qed.

Lemma star_space_loop (fuel : nat) :
  forall (a b : str) (g : groups),
    length a < fuel ->
    exists b', star_loop (m S_) ret fuel (Pos b a) g = Some (Pos b' (lstrip a), g).
Proof.
  induction fuel as [| fuel IH]; intros a b g Hlen; [lia |].
  cbn [star_loop]. unfold S_ at 1. rewrite m_Cls. cbn [after before].
  destruct a as [| x rest].
  - exists b. reflexivity.
  - simpl lstrip. destruct (is_space x) eqn:Hx.
    + assert (Hlt : (length rest <? length (x :: rest)) = true)
        by (apply Nat.ltb_lt; simpl; lia).
      rewrite Hlt.
      destruct (IH rest (x :: b) g) as [b' Hb']; [simpl in Hlen; lia |].
      rewrite Hb'. exists b'. reflexivity.
    + exists b. reflexivity.
Qed.

Lemma match_whitespace_at_space (c : char) (rest b : str) :
  is_space c = true ->
  exists b', m WHITESPACE (Pos b (c :: rest)) [] ret = Some (Pos b' (lstrip rest), []).
Proof.
  intros Hc. unfold WHITESPACE, Plus. rewrite m_Seq. unfold S_ at 1.
  rewrite m_Cls. cbn [after before]. rewrite Hc, m_Star. cbn [after].
  apply star_space_loop. lia.
Qed.

Lemma match_whitespace_elsewhere (a b : str) :
  match a with [] => True | c :: _ => is_space c = false end ->
  m WHITESPACE (Pos b a) [] ret = None.
Proof.
  unfold WHITESPACE, Plus. rewrite m_Seq. unfold S_ at 1.
  rewrite m_Cls. cbn [after before].
  destruct a as [| c rest]; [reflexivity |]. now intros ->.
Qed.

Lemma search_from_eq (r : re) (b a : str) :
  search_from r b a =
  match m r (Pos b a) [] ret with
  | Some (p', g) => Some (Pos b a, p', g)
  | None => match a with [] => None | c :: a' => search_from r (c :: b) a' end
  end.
Proof. destruct a; reflexivity. Qed.

Lemma search_whitespace_none (a : str) :
  forall b, no_space a = true -> search_from WHITESPACE b a = None.
Proof.
  unfold no_space. induction a as [| c a IH]; intros b H; rewrite search_from_eq.
  - now rewrite match_whitespace_elsewhere.
  - simpl in H. apply andb_true_iff in H. destruct H as [Hc Ha].
    apply negb_true_iff in Hc.
    rewrite match_whitespace_elsewhere by exact Hc. now apply IH.
Qed.

Lemma search_whitespace_some (pre : str) :
  forall (b : str) (c : char) (rest : str),
    no_space pre = true -> is_space c = true ->
    exists b0 b1,
      search_from WHITESPACE b (pre ++ c :: rest) =
      Some (Pos b0 (c :: rest), Pos b1 (lstrip rest), []).
Proof.
  unfold no_space. induction pre as [| x pre IH]; intros b c rest Hpre Hc;
    rewrite search_from_eq.
  - destruct (match_whitespace_at_space c rest b Hc) as [b' Hb'].
    simpl app. rewrite Hb'. now exists b, b'.
  - simpl in Hpre. apply andb_true_iff in Hpre. destruct Hpre as [Hx Hpre].
    apply negb_true_iff in Hx. simpl app.
    rewrite match_whitespace_elsewhere by exact Hx. now apply IH.
Qed.

Lemma firstn_consumed (pre rest : str) :
  firstn (length (pre ++ rest) - length rest) (pre ++ rest) = pre.
Proof.
  rewrite length_app, Nat.add_sub.
  rewrite firstn_app, Nat.sub_diag, firstn_all. simpl. apply app_nil_r.
Qed.

Lemma sub_whitespace_loop (fuel : nat) :
  forall a b : str,
    length a < fuel ->
    sub_loop fuel WHITESPACE (RLit [SPACE]) (Pos b a) = squeeze false a.
Proof.
  induction fuel as [| fuel IH]; intros a b Hlen; [lia |].
  cbn [sub_loop before after].
  destruct (space_split a) as [Hnone | (pre & c & rest & -> & Hpre & Hc)].
  - rewrite search_whitespace_none by exact Hnone.
    rewrite <- (app_nil_r a) at 2. rewrite squeeze_no_space by exact Hnone.
    simpl. now rewrite app_nil_r.
  - destruct (search_whitespace_some pre b c rest Hpre Hc) as (b0 & b1 & ->).
    unfold consumed. cbn [after expand].
    rewrite firstn_consumed.
    assert (Hlt : (length (lstrip rest) <? length (c :: rest)) = true).
    { apply Nat.ltb_lt. pose proof (lstrip_length rest). simpl. lia. }
    rewrite Hlt, IH.
    + rewrite squeeze_no_space by exact Hpre. simpl. rewrite Hc.
      now rewrite squeeze_lstrip.
    + pose proof (lstrip_length rest). rewrite length_app in Hlen. simpl in Hlen. lia.
Qed.

(** [re.sub(r'\s+', ' ', s)] is [squeeze]. *)
Lemma re_sub_whitespace (s : str) :
  re_sub WHITESPACE (RLit (lit " ")) s = squeeze false s.
Proof.
  unfold re_sub. change (lit " ") with [SPACE].
  apply sub_whitespace_loop. lia.
Qed.

(** *** Single-spaced strings *)

Lemma spaced_squeeze (s : str) : forall prev, spaced prev (squeeze prev s) = true.
Proof.
  induction s as [| c s IH]; intros prev; simpl; [reflexivity |].
  destruct (is_space c) eqn:Hc.
  - destruct prev; [apply IH |].
    simpl. change (is_space SPACE) with true. cbv iota. simpl. apply IH.
  - simpl. rewrite Hc. apply IH.
Qed.

Lemma squeeze_spaced (s : str) : forall prev, spaced prev s = true -> squeeze prev s = s.
Proof.
  induction s as [| c s IH]; intros prev; simpl; [reflexivity |].
  destruct (is_space c) eqn:Hc; intros H.
  - apply andb_true_iff in H. destruct H as [H Hs].
    apply andb_true_iff in H. destruct H as [Hprev Heq].
    apply negb_true_iff in Hprev. apply N.eqb_eq in Heq. subst.
    now rewrite (IH true Hs).
  - now rewrite (IH false H).
Qed.

Lemma spaced_weaken (s : str) : spaced true s = true -> spaced false s = true.
Proof.
  destruct s as [| c s]; simpl; [reflexivity |].
  destruct (is_space c); [discriminate | auto].
Qed.

Lemma spaced_lstrip (s : str) : forall prev, spaced prev s = true -> spaced false (lstrip s) = true.
Proof.
  induction s as [| c s IH]; intros prev; simpl; [reflexivity |].
  destruct (is_space c) eqn:Hc; intros H.
  - apply andb_true_iff in H. destruct H as [_ Hs]. now apply (IH true).
  - simpl. now rewrite Hc.
Qed.

Lemma lstrip_app (a b : str) :
  lstrip (a ++ b) = if forallb is_space a then lstrip b else lstrip a ++ b.
Proof.
  induction a as [| c a IH]; simpl; [reflexivity |].
  destruct (is_space c); simpl; [exact IH | reflexivity].
Qed.

Lemma lstrip_all_space (s : str) : forallb is_space s = true -> lstrip s = [].
Proof.
  induction s as [| c s IH]; simpl; [reflexivity |].
  destruct (is_space c); simpl; [exact IH | discriminate].
Qed.

Lemma forallb_reversed {A : Type} (f : A -> bool) (l : list A) :
  forallb f (rev l) = forallb f l.
Proof.
  induction l as [| x l IH]; simpl; [reflexivity |].
  rewrite forallb_app, IH. simpl. rewrite andb_true_r. apply andb_comm.
Qed.

Lemma rstrip_cons (c : char) (s : str) :
  rstrip (c :: s) =
  if forallb is_space s then (if is_space c then [] else [c]) else c :: rstrip s.
Proof.
  unfold rstrip. simpl rev. rewrite lstrip_app, forallb_reversed.
  destruct (forallb is_space s) eqn:Hs.
  - simpl. destruct (is_space c); reflexivity.
  - rewrite rev_app_distr. reflexivity.
Qed.

Lemma spaced_rstrip (s : str) : forall prev, spaced prev s = true -> spaced prev (rstrip s) = true.
Proof.
  induction s as [| c s IH]; intros prev H; [reflexivity |].
  rewrite rstrip_cons. simpl in H.
  destruct (forallb is_space s).
  - destruct (is_space c) eqn:Hc; simpl; [reflexivity | now rewrite Hc].
  - simpl. destruct (is_space c).
    + apply andb_true_iff in H. destruct H as [H Hs]. rewrite H. now apply IH.
    + now apply IH.
Qed.

Lemma lstrip_idempotent (s : str) : lstrip (lstrip s) = lstrip s.
Proof.
  induction s as [| c s IH]; simpl; [reflexivity |].
  destruct (is_space c) eqn:Hc; [exact IH |]. simpl. now rewrite Hc.
Qed.

Lemma rstrip_idempotent (s : str) : rstrip (rstrip s) = rstrip s.
Proof.
  unfold rstrip. now rewrite rev_involutive, lstrip_idempotent.
Qed.

Lemma lstrip_rstrip_lstrip (s : str) : lstrip (rstrip (lstrip s)) = rstrip (lstrip s).
Proof.
  assert (Hhead : forall z, lstrip z = z -> lstrip (rstrip z) = rstrip z).
  { intros [| c z] Hz; [reflexivity |].
    rewrite rstrip_cons. simpl in Hz.
    destruct (is_space c) eqn:Hc.
    - pose proof (lstrip_length z) as Hlen. rewrite Hz in Hlen. simpl in Hlen. lia.
    - destruct (forallb is_space z); simpl; now rewrite Hc. }
  apply Hhead, lstrip_idempotent.
Qed.

Lemma strip_idempotent (s : str) : strip (strip s) = strip s.
Proof.
  unfold strip. now rewrite lstrip_rstrip_lstrip, rstrip_idempotent.
Qed.

(** The last step of [normalize_message] does nothing on its own output. *)
Lemma collapse_whitespace_idempotent (s : str) :
  strip (squeeze false (strip (squeeze false s))) = strip (squeeze false s).
Proof.
  rewrite (squeeze_spaced (strip (squeeze false s)) false).
  - apply strip_idempotent.
  - unfold strip. apply spaced_rstrip, (spaced_lstrip _ false), spaced_squeeze.
Qed.

Lemma normalize_message_eq (message : str) :
  normalize_message message =
  strip (re_sub WHITESPACE (RLit (lit " "))
           (re_sub REPEATED_PLACEHOLDER (RGroup 1)
              (apply_patterns VARIABLE_PATTERNS message))).
Proof. reflexivity. Qed.

Lemma whitespace_pass_fixpoint (x n : str) :
  n = strip (re_sub WHITESPACE (RLit (lit " ")) x) ->
  strip (re_sub WHITESPACE (RLit (lit " ")) n) = n.
Proof.
  intros ->. rewrite !re_sub_whitespace. apply collapse_whitespace_idempotent.
Qed.

Lemma settled_pass (n : str) :
  settled n = true ->
  normalize_message n = strip (re_sub WHITESPACE (RLit (lit " ")) n).
Proof.
  intros Hsettled. unfold settled in Hsettled.
  apply andb_true_iff in Hsettled. destruct Hsettled as [Hrules Hrepeat].
  rewrite normalize_message_eq.
  rewrite (apply_patterns_no_match _ _ Hrules).
  rewrite (re_sub_no_match _ _ _ (not_found_no_match _ _ Hrepeat)).
  reflexivity.
Qed.

(** C1 (amended). A second normalization changes nothing whenever no
    substitution rule finds a match in the result of the first:
    collapsing white space and trimming are idempotent, and the only way
    a second pass differs is a rule that fires on the output. *)
Theorem normalize_message_idempotent_once_settled (message : str) :
  settled (normalize_message message) = true ->
  normalize_message (normalize_message message) = normalize_message message.
Proof.
  intros Hsettled.
  rewrite (settled_pass _ Hsettled).
  eapply whitespace_pass_fixpoint. apply normalize_message_eq.
Qed.

(** ** Normalizer: what a template records *)

Lemma existsb_str_eqb (k : str) (l : list str) :
  existsb (str_eqb k) l = true <-> In k l.
Proof.
  rewrite existsb_exists. split.
  - intros [x [Hin Heq]]. apply str_eqb_eq in Heq. now subst.
  - intros Hin. exists k. split; [exact Hin | apply str_eqb_refl].
Qed.

Lemma distinct_snoc (l : list str) (k : str) :
  distinct (l ++ [k]) = distinct_add (distinct l) k.
Proof. unfold distinct. now rewrite fold_left_app. Qed.

Lemma distinct_add_In (seen : list str) (k x : str) :
  In x (distinct_add seen k) <-> In x seen \/ x = k.
Proof.
  unfold distinct_add. destruct (existsb (str_eqb k) seen) eqn:Hk.
  - apply existsb_str_eqb in Hk. split.
    + intros H. now left.
    + intros [H | ->]; assumption.
  - rewrite in_app_iff. simpl. split.
    + intros [H | [H | []]]; [now left | now right].
    + intros [H | ->]; [now left | right; now left].
Qed.

Lemma distinct_In (l : list str) (x : str) : In x (distinct l) <-> In x l.
Proof.
  induction l as [| k l IH] using rev_ind.
  - reflexivity.
  - rewrite distinct_snoc, distinct_add_In, in_app_iff, IH. simpl.
    split.
    + intros [H | ->]; [now left | right; now left].
    + intros [H | [-> | []]]; [now left | now right].
Qed.

Lemma distinct_NoDup (l : list str) : NoDup (distinct l).
Proof.
  induction l as [| k l IH] using rev_ind.
  - constructor.
  - rewrite distinct_snoc. unfold distinct_add.
    destruct (existsb (str_eqb k) (distinct l)) eqn:Hk; [exact IH |].
    apply Permutation_NoDup with (l := k :: distinct l).
    + apply Permutation_cons_append.
    + constructor; [| exact IH].
      intros Hin. apply existsb_str_eqb in Hin. congruence.
Qed.

Lemma assoc_get_In {A : Type} (key : str) (d : dict A) (v : A) :
  assoc_get key d = Some v -> In (key, v) d.
Proof.
  induction d as [| [k w] d IH]; simpl; [discriminate |].
  destruct (str_eqb k key) eqn:Hk.
  - intros [= ->]. apply str_eqb_eq in Hk. subst. now left.
  - intros H. right. now apply IH.
Qed.

Lemma assoc_get_None {A : Type} (key : str) (d : dict A) :
  assoc_get key d = None <-> ~ In key (map fst d).
Proof.
  induction d as [| [k w] d IH]; simpl.
  - split; [intros _ [] | reflexivity].
  - destruct (str_eqb k key) eqn:Hk.
    + apply str_eqb_eq in Hk. subst. split; [discriminate |].
      intros H. exfalso. apply H. now left.
    + rewrite IH. split.
      * intros H [Heq | Hin]; [| now apply H].
        subst. rewrite str_eqb_refl in Hk. discriminate.
      * intros H Hin. apply H. now right.
Qed.

Lemma In_assoc_get {A : Type} (key : str) (d : dict A) (v : A) :
  NoDup (map fst d) -> In (key, v) d -> assoc_get key d = Some v.
Proof.
  induction d as [| [k w] d IH]; simpl; intros Hnd Hin; [destruct Hin |].
  destruct Hin as [Heq | Hin].
  - injection Heq as -> ->. now rewrite str_eqb_refl.
  - inversion Hnd as [| ? ? Hnotin Hrest]; subst.
    destruct (str_eqb k key) eqn:Hk.
    + apply str_eqb_eq in Hk. subst. exfalso. apply Hnotin.
      apply in_map_iff. exists (key, v). split; [reflexivity | exact Hin].
    + now apply IH.
Qed.

Lemma dict_update_keys {A : Type} (key : str) (f : A -> A) (d : dict A) :
  map fst (dict_update key f d) = map fst d.
Proof.
  induction d as [| [k w] d IH]; simpl; [reflexivity |].
  destruct (str_eqb k key); simpl; [reflexivity | now rewrite IH].
Qed.

Lemma dict_update_app_fresh {A : Type} (key : str) (f : A -> A) (d : dict A) (v : A) :
  assoc_get key d = None ->
  dict_update key f (d ++ [(key, v)]) = d ++ [(key, f v)].
Proof.
  induction d as [| [k w] d IH]; simpl; intros H.
  - now rewrite str_eqb_refl.
  - destruct (str_eqb k key); [discriminate | now rewrite IH].
Qed.

Lemma firstn_3_snoc {A : Type} (l : list A) (x : A) :
  firstn 3 (l ++ [x]) =
  if length (firstn 3 l) <? 3 then firstn 3 l ++ [x] else firstn 3 l.
Proof. destruct l as [| a [| b [| c l]]]; reflexivity. Qed.

Lemma first_nonzero_snoc (l : list Z) (x : Z) :
  first_nonzero (l ++ [x]) = if Z.eqb (first_nonzero l) 0 then x else first_nonzero l.
Proof.
  induction l as [| y l IH]; simpl.
  - destruct (Z.eqb x 0) eqn:Hx; [| reflexivity].
    apply Z.eqb_eq in Hx. now subst.
  - destruct (Z.eqb y 0) eqn:Hy; [exact IH |].
    now rewrite Hy.
Qed.

Lemma occurrences_snoc (key : str) (hs : list ParsedLogEntry) (e : ParsedLogEntry) :
  occurrences key (hs ++ [e]) =
  occurrences key hs ++
  (if str_eqb (normalize_message (message e)) key then [e] else []).
Proof. unfold occurrences. now rewrite filter_app. Qed.

Lemma occurrences_absent (key : str) (hs : list ParsedLogEntry) :
  ~ In key (map (fun e => normalize_message (message e)) hs) -> occurrences key hs = [].
Proof.
  induction hs as [| e hs IH]; intros H; [reflexivity |].
  unfold occurrences in *. cbn [filter map In] in *.
  destruct (str_eqb (normalize_message (message e)) key) eqn:He.
  - apply str_eqb_eq in He. exfalso. apply H. now left.
  - apply IH. intros Hin. apply H. now right.
Qed.

Lemma tracks_other (hs : list ParsedLogEntry) (e : ParsedLogEntry)
  (kv : str * ErrorTemplate) :
  fst kv <> normalize_message (message e) -> tracks hs kv -> tracks (hs ++ [e]) kv.
Proof.
  intros Hne. unfold tracks. rewrite occurrences_snoc.
  destruct (str_eqb (normalize_message (message e)) (fst kv)) eqn:He.
  - apply str_eqb_eq in He. congruence.
  - now rewrite app_nil_r.
Qed.

Lemma tracks_same (hs : list ParsedLogEntry) (e : ParsedLogEntry) (t : ErrorTemplate) :
  tracks hs (normalize_message (message e), t) ->
  tracks (hs ++ [e])
    (normalize_message (message e), add_occurrence t (message e) (line_number e)).
Proof.
  unfold tracks. cbn [fst snd]. intros (Htext & Hcount & Hmsgs & Hline).
  rewrite occurrences_snoc, str_eqb_refl.
  rewrite length_app, !map_app. cbn [map].
  rewrite firstn_3_snoc, first_nonzero_snoc.
  rewrite <- Hmsgs, <- Hline.
  unfold add_occurrence.
  cbn [template count original_messages first_occurrence_line length map].
  rewrite Hcount.
  repeat split; [exact Htext | lia].
Qed.

Lemma tracks_fresh (hs : list ParsedLogEntry) (e : ParsedLogEntry) :
  occurrences (normalize_message (message e)) hs = [] ->
  tracks (hs ++ [e])
    (normalize_message (message e),
     add_occurrence
       {| template := normalize_message (message e);
          original_messages := [];
          count := 0;
          first_occurrence_line := line_number e |}
       (message e) (line_number e)).
Proof.
  intros Hocc. unfold tracks, add_occurrence.
  cbn [fst snd template count original_messages first_occurrence_line length].
  rewrite occurrences_snoc, str_eqb_refl, Hocc.
  cbn [app map length firstn first_nonzero].
  repeat split.
  destruct (Z.eqb (line_number e) 0) eqn:Hz; [| reflexivity].
  apply Z.eqb_eq in Hz. exact Hz.
Qed.

Lemma tracks_dict_update (hs : list ParsedLogEntry) (e : ParsedLogEntry)
  (d : dict ErrorTemplate) (key : str) :
  key = normalize_message (message e) ->
  NoDup (map fst d) ->
  Forall (tracks hs) d ->
  Forall (tracks (hs ++ [e]))
    (dict_update key (fun t => add_occurrence t (message e) (line_number e)) d).
Proof.
  intros Hkey.
  induction d as [| [k t] d IH]; simpl; intros Hnd Hall; [constructor |].
  apply NoDup_cons_iff in Hnd. destruct Hnd as [Hnotin Hrest].
  apply Forall_cons_iff in Hall. destruct Hall as [Hkt Hd].
  destruct (str_eqb k key) eqn:Hk.
  - apply str_eqb_eq in Hk. constructor.
    + rewrite Hk, Hkey. apply tracks_same. rewrite <- Hkey, <- Hk. exact Hkt.
    + rewrite Forall_forall in *. intros kv Hin. apply tracks_other; [| now apply Hd].
      intros Heq. apply Hnotin. rewrite Hk, Hkey, <- Heq. now apply in_map.
  - constructor.
    + apply tracks_other; [| exact Hkt].
      cbn [fst]. intros Heq. rewrite <- Hkey in Heq.
      rewrite Heq, str_eqb_refl in Hk. discriminate.
    + now apply IH.
Qed.

(** What the loop of [process_entries] keeps true of its two variables. *)
Lemma process_entry_tracks (min_level : LogLevel)
  (st : list ParsedLogEntry * dict ErrorTemplate) (e : ParsedLogEntry) :
  map fst (snd st) = distinct (map (fun e => normalize_message (message e)) (fst st)) ->
  Forall (tracks (fst st)) (snd st) ->
  fst (process_entry min_level st e) =
    fst st ++ (if is_high_signal min_level e then [e] else []) /\
  map fst (snd (process_entry min_level st e)) =
    distinct (map (fun e => normalize_message (message e))
                (fst (process_entry min_level st e))) /\
  Forall (tracks (fst (process_entry min_level st e))) (snd (process_entry min_level st e)).
Proof.
  destruct st as [hs d]. unfold process_entry. cbn [fst snd]. intros Hkeys Hall.
  destruct (is_high_signal min_level e); cbn [negb fst snd].
  2: { rewrite app_nil_r. now repeat split. }
  split; [reflexivity |].
  assert (Hnd : NoDup (map fst d)) by (rewrite Hkeys; apply distinct_NoDup).
  rewrite map_app. cbn [map]. rewrite distinct_snoc, <- Hkeys. unfold distinct_add.
  set (key := normalize_message (message e)).
  assert (Hkey : key = normalize_message (message e)) by reflexivity.
  clearbody key.
  destruct (assoc_get key d) as [v |] eqn:Hget.
  - apply assoc_get_In in Hget.
    assert (Hin : In key (map fst d))
      by (apply in_map_iff; exists (key, v); now split).
    apply existsb_str_eqb in Hin. rewrite Hin. split.
    + apply dict_update_keys.
    + now apply tracks_dict_update.
  - rewrite dict_update_app_fresh by exact Hget.
    apply assoc_get_None in Hget.
    destruct (existsb (str_eqb key) (map fst d)) eqn:Hex.
    + apply existsb_str_eqb in Hex. contradiction.
    + split.
      * rewrite map_app. reflexivity.
      * apply Forall_app. split.
        -- rewrite Forall_forall in *. intros kv Hin. apply tracks_other; [| now apply Hall].
           intros Heq. apply Hget. rewrite Hkey, <- Heq. now apply in_map.
        -- constructor; [| constructor]. rewrite Hkey. apply tracks_fresh.
           apply occurrences_absent. intros Hin. apply Hget.
           rewrite Hkeys, Hkey. now apply distinct_In.
Qed.

Lemma fold_process_entry_tracks (min_level : LogLevel) (entries : list ParsedLogEntry) :
  forall st,
    map fst (snd st) = distinct (map (fun e => normalize_message (message e)) (fst st)) ->
    Forall (tracks (fst st)) (snd st) ->
    fst (fold_left (process_entry min_level) entries st) =
      fst st ++ filter (is_high_signal min_level) entries /\
    map fst (snd (fold_left (process_entry min_level) entries st)) =
      distinct (map (fun e => normalize_message (message e))
                  (fst (fold_left (process_entry min_level) entries st))) /\
    Forall (tracks (fst (fold_left (process_entry min_level) entries st)))
      (snd (fold_left (process_entry min_level) entries st)).
Proof.
  induction entries as [| e entries IH]; cbn [fold_left filter]; intros st Hkeys Hall.
  - rewrite app_nil_r. now repeat split.
  - destruct (process_entry_tracks min_level st e Hkeys Hall) as (Hfst & Hkeys' & Hall').
    destruct (IH _ Hkeys' Hall') as (Hfst2 & Hrest).
    split; [| exact Hrest].
    rewrite Hfst2.
    transitivity ((fst st ++ (if is_high_signal min_level e then [e] else [])) ++
                  filter (is_high_signal min_level) entries).
    + f_equal. exact Hfst.
    + rewrite <- app_assoc. f_equal.
      now destruct (is_high_signal min_level e).
Qed.

Lemma process_entries_tracks (min_level : LogLevel) (entries : list ParsedLogEntry) :
  fst (process_entries min_level entries) = filter (is_high_signal min_level) entries /\
  map fst (snd (process_entries min_level entries)) =
    distinct (map (fun e => normalize_message (message e))
                (filter (is_high_signal min_level) entries)) /\
  Forall (tracks (filter (is_high_signal min_level) entries))
    (snd (process_entries min_level entries)).
Proof.
  unfold process_entries.
  destruct (fold_process_entry_tracks min_level entries ([], []))
    as (Hfst & Hkeys & Hall); [reflexivity | constructor |].
  cbn [fst app] in Hfst. rewrite Hfst in Hkeys, Hall. now repeat split.
Qed.

(** X3. [process_entries] returns the high-signal entries of its input,
    all of them and in the order of the input, and the keys of the
    template map are the distinct normalized messages of those entries,
    each once, in the order in which they first occur. *)
Theorem process_entries_keys (min_level : LogLevel) (entries : list ParsedLogEntry) :
  fst (process_entries min_level entries) = filter (is_high_signal min_level) entries /\
  map fst (snd (process_entries min_level entries)) =
    distinct (map (fun e => normalize_message (message e))
                (filter (is_high_signal min_level) entries)) /\
  NoDup (map fst (snd (process_entries min_level entries))).
Proof.
  destruct (process_entries_tracks min_level entries) as (Hfst & Hkeys & _).
  repeat split; [exact Hfst | exact Hkeys |].
  rewrite Hkeys. apply distinct_NoDup.
Qed.

(** X4. Every template of the map returned by [process_entries] carries
    its key as its text, and its count is the number of high-signal
    entries of the input whose normalized message is that key; the count
    is at least 1. *)
Theorem process_entries_template_count (min_level : LogLevel)
  (entries : list ParsedLogEntry) :
  Forall (fun kv =>
            template (snd kv) = fst kv /\
            count (snd kv) =
              Z.of_nat (length (occurrences (fst kv)
                                  (filter (is_high_signal min_level) entries))) /\
            (1 <= count (snd kv))%Z)
    (snd (process_entries min_level entries)).
Proof.
  destruct (process_entries_tracks min_level entries) as (_ & Hkeys & Hall).
  rewrite Forall_forall in *. intros kv Hin.
  destruct (Hall kv Hin) as (Htext & Hcount & _).
  repeat split; [exact Htext | exact Hcount |].
  rewrite Hcount.
  assert (Hk : In (fst kv)
                 (map (fun e => normalize_message (message e))
                    (filter (is_high_signal min_level) entries))).
  { apply distinct_In. rewrite <- Hkeys. now apply in_map. }
  apply in_map_iff in Hk. destruct Hk as (e & He & Hine).
  assert (Hocc : In e (occurrences (fst kv) (filter (is_high_signal min_level) entries))).
  { apply filter_In. split; [exact Hine |]. apply str_eqb_eq. exact He. }
  destruct (occurrences (fst kv) (filter (is_high_signal min_level) entries));
    [destruct Hocc | cbn [length]; lia].
Qed.

(** X5. Every template of the map returned by [process_entries] keeps
    as examples the original messages of the first three high-signal
    entries with its key (all of them when there are fewer), in input
    order, and as first line the first line number other than 0 among the
    entries with its key. *)
Theorem process_entries_template_examples (min_level : LogLevel)
  (entries : list ParsedLogEntry) :
  Forall (fun kv =>
            original_messages (snd kv) =
              firstn 3 (map message
                          (occurrences (fst kv)
                             (filter (is_high_signal min_level) entries))) /\
            first_occurrence_line (snd kv) =
              first_nonzero (map line_number
                               (occurrences (fst kv)
                                  (filter (is_high_signal min_level) entries))))
    (snd (process_entries min_level entries)).
Proof.
  destruct (process_entries_tracks min_level entries) as (_ & _ & Hall).
  eapply Forall_impl; [| exact Hall].
  intros kv (_ & _ & Hmsgs & Hline). now split.
Qed.

(** ** Sorting: the most frequent templates *)

Lemma insert_desc_filter {A : Type} (key : A -> Z) (k : Z) (x : A) (l : list A) :
  filter (fun y => Z.eqb (key y) k) (insert_desc key x l) =
  filter (fun y => Z.eqb (key y) k) (x :: l).
Proof.
  induction l as [| y l IH]; [reflexivity |].
  cbn [insert_desc]. destruct (Z.ltb (key x) (key y)) eqn:Hxy; [| reflexivity].
  cbn [filter] in *. rewrite IH. apply Z.ltb_lt in Hxy.
  destruct (Z.eqb (key x) k) eqn:Hx; destruct (Z.eqb (key y) k) eqn:Hy; try reflexivity.
  apply Z.eqb_eq in Hx. apply Z.eqb_eq in Hy. lia.
Qed.

(** The sort is stable: elements of equal key keep their order. *)
Lemma sort_desc_stable {A : Type} (key : A -> Z) (k : Z) (l : list A) :
  filter (fun y => Z.eqb (key y) k) (sort_desc key l) =
  filter (fun y => Z.eqb (key y) k) l.
Proof.
  induction l as [| x l IH]; [reflexivity |].
  cbn [sort_desc fold_right]. rewrite insert_desc_filter.
  cbn [filter]. fold (sort_desc key l). now rewrite IH.
Qed.

(** The first [n] of a list sorted by count: what is cut off is no
    more frequent than what is kept. *)
Lemma top_of_sorted (ts : list ErrorTemplate) (n : nat) :
  length (firstn n (sort_desc count ts)) = Nat.min n (length ts) /\
  descending (map count (firstn n (sort_desc count ts))) /\
  Permutation (firstn n (sort_desc count ts) ++ skipn n (sort_desc count ts)) ts /\
  forall t r,
    In t (firstn n (sort_desc count ts)) -> In r (skipn n (sort_desc count ts)) ->
    (count r <= count t)%Z.
Proof.
  repeat split.
  - rewrite length_firstn. f_equal. apply Permutation_length, sort_desc_perm.
  - rewrite <- firstn_map. apply descending_firstn, sort_desc_descending.
  - rewrite firstn_skipn. apply sort_desc_perm.
  - intros t r Ht Hr.
    apply (descending_app (map count (firstn n (sort_desc count ts)))
                          (map count (skipn n (sort_desc count ts)))).
    + rewrite <- map_app, firstn_skipn. apply sort_desc_descending.
    + now apply in_map.
    + now apply in_map.
Qed.

(** X6. [get_top_templates] with [n >= 0] returns [n] templates of the
    map (all of them when the map has fewer), most frequent first, and no
    template that it leaves out occurs more often than one it returns. *)
Theorem get_top_templates_most_frequent (d : dict ErrorTemplate) (n : nat) :
  length (get_top_templates d n) = Nat.min n (length d) /\
  descending (map count (get_top_templates d n)) /\
  exists rest,
    Permutation (get_top_templates d n ++ rest) (values d) /\
    forall t r, In t (get_top_templates d n) -> In r rest -> (count r <= count t)%Z.
Proof.
  unfold get_top_templates.
  destruct (top_of_sorted (values d) n) as (Hlen & Hdesc & Hperm & Htop).
  split; [| split; [exact Hdesc |]].
  - rewrite Hlen. unfold values. now rewrite length_map.
  - exists (skipn n (sort_desc count (values d))). now split.
Qed.

(** X7. Ties are broken by the order of the map: among the templates
    of any one count, [get_top_templates] returns the earliest ones of
    the map, in the order of the map. *)
Theorem get_top_templates_ties (d : dict ErrorTemplate) (n : nat) (k : Z) :
  exists rest,
    filter (fun t => Z.eqb (count t) k) (values d) =
    filter (fun t => Z.eqb (count t) k) (get_top_templates d n) ++ rest.
Proof.
  unfold get_top_templates.
  exists (filter (fun t => Z.eqb (count t) k) (skipn n (sort_desc count (values d)))).
  rewrite <- filter_app, firstn_skipn. symmetry. apply sort_desc_stable.
Qed.

(** ** Aggregation: the result record *)

(** X8. The [top_templates] of the result of [build_analysis_result]:
    at most 10 entries (one per template when the map has fewer), counts
    never increasing; each entry shows the text, count, first line and at
    most three examples of a template of the map; and a template of the
    map whose text is not shown has a count no larger than any count
    shown. *)
Theorem build_analysis_result_top_templates (total : Z) (es : list ParsedLogEntry)
  (d : dict ErrorTemplate) (cs : list ErrorCluster) (time : float) (summary : option str) :
  length (top_templates (build_analysis_result total es d cs time summary)) =
    Nat.min 10 (length d) /\
  descending (map out_count (top_templates (build_analysis_result total es d cs time summary))) /\
  Forall (fun o => exists t,
            In t (values d) /\
            out_pattern o = template t /\ out_count o = count t /\
            out_first_seen_line o = first_occurrence_line t /\
            out_examples o = firstn 3 (original_messages t))
    (top_templates (build_analysis_result total es d cs time summary)) /\
  forall t,
    In t (values d) ->
    ~ In (template t)
        (map out_pattern (top_templates (build_analysis_result total es d cs time summary))) ->
    Forall (fun o => (count t <= out_count o)%Z)
      (top_templates (build_analysis_result total es d cs time summary)).
Proof.
  unfold build_analysis_result, format_templates_for_output.
  cbn [top_templates].
  destruct (top_of_sorted (values d) 10) as (Hlen & Hdesc & Hperm & Htop).
  set (top := firstn 10 (sort_desc count (values d))) in *.
  repeat split.
  - rewrite length_map, Hlen. unfold values. now rewrite length_map.
  - rewrite map_map. cbn [out_count]. exact Hdesc.
  - apply Forall_forall. intros o Ho. apply in_map_iff in Ho.
    destruct Ho as (t & <- & Ht). exists t. repeat split.
    apply (Permutation_in t Hperm). apply in_or_app. now left.
  - intros t Ht Hnot. apply Forall_forall. intros o Ho.
    apply in_map_iff in Ho. destruct Ho as (t' & <- & Ht'). cbn [out_count].
    apply Htop; [exact Ht' |].
    apply Permutation_sym in Hperm.
    apply (Permutation_in t Hperm) in Ht. apply in_app_or in Ht.
    destruct Ht as [Ht | Ht]; [| exact Ht].
    exfalso. apply Hnot. rewrite map_map. cbn [out_pattern].
    now apply in_map.
Qed.

(** ** Clustering: totals *)

Lemma sum_counts_perm (a b : list ErrorTemplate) :
  Permutation a b -> sum_counts a = sum_counts b.
Proof.
  induction 1 as [| x a b _ IH | x y a | a b c _ IHab _ IHbc]; simpl.
  - reflexivity.
  - now rewrite IH.
  - lia.
  - now rewrite IHab.
Qed.

Lemma sumZ_total_count (cs : list ErrorCluster) :
  Forall well_formed_cluster cs ->
  sumZ (map total_count cs) = sum_counts (flat_map templates cs).
Proof.
  induction 1 as [| c cs [_ Hc] _ IH]; simpl.
  - reflexivity.
  - rewrite sum_counts_app, IH, Hc. reflexivity.
Qed.

Lemma nonempty_clusters_length (cs : list ErrorCluster) :
  Forall well_formed_cluster cs -> length cs <= length (flat_map templates cs).
Proof.
  induction 1 as [| c cs [Hc _] _ IH]; simpl.
  - lia.
  - rewrite length_app. destruct (templates c); [contradiction | simpl; lia].
Qed.

Lemma make_cluster_well_formed (fn : list str) (labels : list Z) (mtx : Tfidf)
  (item : Z * list ErrorTemplate) (c : ErrorCluster) :
  make_cluster fn labels mtx item = Some c -> well_formed_cluster c.
Proof.
  destruct item as [id ts]. unfold make_cluster.
  destruct ts as [| t ts]; [discriminate |].
  destruct (max_by_count (t :: ts)); [| discriminate].
  intros [= <-]. split; [discriminate | reflexivity].
Qed.

Lemma all_some_Forall {A B : Type} (f : A -> option B) (P : B -> Prop) (items : list A) :
  (forall x y, f x = Some y -> P y) ->
  forall ys, all_some (map f items) = Some ys -> Forall P ys.
Proof.
  intros Hf. induction items as [| x items IH]; simpl; intros ys H.
  - injection H as <-. constructor.
  - destruct (f x) as [y |] eqn:Hx; [| discriminate].
    destruct (all_some (map f items)) as [ys' |]; [| discriminate].
    injection H as <-. constructor; [now apply (Hf x) | now apply IH].
Qed.

Lemma renumber_well_formed (cs : list ErrorCluster) :
  forall i, Forall well_formed_cluster cs -> Forall well_formed_cluster (renumber i cs).
Proof.
  induction cs as [| c cs IH]; simpl; intros i H; [constructor |].
  inversion H as [| ? ? Hc Hcs]; subst.
  constructor; [exact Hc | now apply IH].
Qed.

Lemma build_clusters_well_formed (fn : list str) (ts : list ErrorTemplate)
  (labels : list Z) (mtx : Tfidf) (cs : list ErrorCluster) :
  _build_clusters fn ts labels mtx = Some cs -> Forall well_formed_cluster cs.
Proof.
  unfold _build_clusters.
  destruct (group_by_label ts 0 labels []) as [d |]; [| discriminate].
  destruct (all_some (map (make_cluster fn labels mtx) (sort_asc fst d))) as [made |] eqn:Hmade;
    [| discriminate].
  intros [= <-]. apply renumber_well_formed.
  eapply Permutation_Forall.
  - symmetry. apply sort_desc_perm.
  - apply (all_some_Forall (make_cluster fn labels mtx) well_formed_cluster (sort_asc fst d));
      [| exact Hmade].
    intros x y. apply make_cluster_well_formed.
Qed.

Lemma single_cluster_well_formed (ts : list ErrorTemplate) :
  Forall well_formed_cluster (_create_single_cluster ts).
Proof.
  destruct ts as [| t ts]; simpl; constructor; [| constructor].
  split; [discriminate | reflexivity].
Qed.

Lemma cluster_templates_well_formed (self : ErrorClusterer) (d : dict ErrorTemplate) :
  min_samples_per_cluster self <> 0%Z ->
  one_label_per_text ->
  exists cs,
    cluster_templates self d = Some cs /\
    Forall well_formed_cluster cs /\
    Permutation (flat_map templates cs) (values d).
Proof.
  intros Hmin Hlabels.
  destruct (cluster_templates_cases self d Hmin Hlabels)
    as [Hsingle | (fn & labels & mtx & Hlen & Hbuild)].
  - exists (_create_single_cluster (values d)). split; [exact Hsingle |]. split.
    + apply single_cluster_well_formed.
    + rewrite single_cluster_members. apply Permutation_refl.
  - destruct (build_clusters_ok fn (values d) labels mtx Hlen) as (cs & Hcs & Hperm & _).
    exists cs. split; [now rewrite Hbuild |]. split; [| exact Hperm].
    now apply (build_clusters_well_formed fn (values d) labels mtx).
Qed.

(** X9. When the minimum cluster size is not zero and the vectorizer
    gives one label per text, the clusters that [cluster_templates]
    returns are not empty, the total of each is the sum of the counts of
    its members, the totals of all clusters add up to the sum of the
    counts of all templates of the map, and there are no more clusters
    than templates. *)
Theorem cluster_templates_totals (self : ErrorClusterer) (d : dict ErrorTemplate) :
  min_samples_per_cluster self <> 0%Z ->
  one_label_per_text ->
  exists cs,
    cluster_templates self d = Some cs /\
    Forall well_formed_cluster cs /\
    sumZ (map total_count cs) = sum_counts (values d) /\
    length cs <= length d.
Proof.
  intros Hmin Hlabels.
  destruct (cluster_templates_well_formed self d Hmin Hlabels) as (cs & Hcs & Hwf & Hperm).
  exists cs. repeat split; try assumption.
  - rewrite (sumZ_total_count cs Hwf). now apply sum_counts_perm.
  - apply Nat.le_trans with (length (flat_map templates cs)).
    + now apply nonempty_clusters_length.
    + rewrite (Permutation_length Hperm). unfold values. now rewrite length_map.
Qed.

(** ** Clustering: the sample messages of the output *)

Lemma fold_left_flat_map {A B C : Type} (f : C -> B -> C) (g : A -> list B) (l : list A) :
  forall acc,
    fold_left (fun acc x => fold_left f (g x) acc) l acc = fold_left f (flat_map g l) acc.
Proof.
  induction l as [| x l IH]; simpl; intros acc; [reflexivity |].
  now rewrite fold_left_app, IH.
Qed.

Lemma In_firstn_short {A : Type} (n : nat) (l : list A) (x : A) :
  In x l -> ~ In x (firstn n l) -> length (firstn n l) = n.
Proof.
  revert l. induction n as [| n IH]; intros [| y l] Hin Hnot; simpl in *;
    try reflexivity; try contradiction.
  f_equal. destruct Hin as [-> | Hin].
  - exfalso. apply Hnot. now left.
  - apply IH; [exact Hin |]. intros H. apply Hnot. now right.
Qed.

Lemma add_sample_distinct (seen : list str) (msg : str) :
  add_sample (firstn 3 seen) msg = firstn 3 (distinct_add seen msg).
Proof.
  unfold add_sample, distinct_add.
  destruct (existsb (str_eqb msg) seen) eqn:Hseen.
  - destruct (existsb (str_eqb msg) (firstn 3 seen)) eqn:Hfirst; [reflexivity |].
    apply existsb_str_eqb in Hseen.
    assert (Hnot : ~ In msg (firstn 3 seen)).
    { intros H. apply existsb_str_eqb in H. congruence. }
    rewrite (In_firstn_short 3 seen msg Hseen Hnot). reflexivity.
  - assert (Hfirst : existsb (str_eqb msg) (firstn 3 seen) = false).
    { destruct (existsb (str_eqb msg) (firstn 3 seen)) eqn:H; [| reflexivity].
      apply existsb_str_eqb in H. apply In_firstn in H.
      apply existsb_str_eqb in H. congruence. }
    rewrite Hfirst, firstn_3_snoc. reflexivity.
Qed.

Lemma fold_add_sample (msgs : list str) :
  fold_left add_sample msgs [] = firstn 3 (distinct msgs).
Proof.
  induction msgs as [| msg msgs IH] using rev_ind; [reflexivity |].
  now rewrite fold_left_app, distinct_snoc, <- add_sample_distinct, <- IH.
Qed.

(** X10. [format_clusters_for_output] gives one record per cluster, in
    order, with the identifier, total, number of members, keywords and
    representative of the cluster; its sample messages are the first
    three distinct original messages of the members of the cluster, in
    order of appearance (all of them when there are fewer). *)
Theorem format_clusters_for_output_samples (cs : list ErrorCluster) :
  Forall2 (fun c o =>
             out_cluster_id o = cluster_id c /\
             out_total_occurrences o = total_count c /\
             out_unique_patterns o = Z.of_nat (length (templates c)) /\
             out_keywords o = keywords c /\
             out_representative_pattern o = representative_sample c /\
             out_sample_messages o =
               firstn 3 (distinct (flat_map original_messages (templates c))))
    cs (format_clusters_for_output cs).
Proof.
  unfold format_clusters_for_output.
  induction cs as [| c cs IH]; cbn [map]; constructor; [| exact IH].
  cbn [out_cluster_id out_total_occurrences out_unique_patterns out_keywords
       out_representative_pattern out_sample_messages].
  repeat split.
  rewrite (fold_left_flat_map add_sample original_messages). apply fold_add_sample.
Qed.

(** ** The prompt of the summarisation service *)

Lemma flat_map_cluster_digest_same (cs1 cs2 : list ErrorCluster) :
  Forall2 same_statistics cs1 cs2 ->
  flat_map cluster_digest cs1 = flat_map cluster_digest cs2.
Proof.
  induction 1 as [| c1 c2 cs1 cs2 Hc _ IH]; cbn [flat_map].
  - reflexivity.
  - now rewrite (cluster_digest_same c1 c2 Hc), IH.
Qed.

(** X11. What [generate_llm_summary] sends and returns depends on the
    clusters only through their identifiers, totals, numbers of members,
    keywords and representatives: two cluster lists that agree on these,
    whatever original messages their templates store, give the same
    prompt and the same result. *)
Theorem generate_llm_summary_noninterference (cs1 cs2 : list ErrorCluster)
  (total_lines error_count : Z) (api_key : option str) :
  Forall2 same_statistics cs1 cs2 ->
  full_prompt cs1 total_lines error_count = full_prompt cs2 total_lines error_count /\
  generate_llm_summary cs1 total_lines error_count api_key =
  generate_llm_summary cs2 total_lines error_count api_key.
Proof.
  intros Hsame.
  assert (Hprompt : full_prompt cs1 total_lines error_count =
                    full_prompt cs2 total_lines error_count).
  { unfold full_prompt, prepare_cluster_summary_for_llm.
    rewrite (flat_map_cluster_digest_same cs1 cs2 Hsame).
    destruct Hsame; reflexivity. }
  split; [exact Hprompt |].
  unfold generate_llm_summary. now rewrite Hprompt.
Qed.

(** ** The analyzer *)

Lemma analyze_some (self : LogAnalyzer) (file : bytes) (filename : str) (r : AnalysisResult) :
  analyze self file filename = Some r ->
  exists lines cs summary,
    read_log_file file filename = Some lines /\
    parse_lines_raises lines = false /\
    cluster_templates (clusterer self)
      (snd (process_entries (min_level self) (parse_lines lines))) = Some cs /\
    r = build_analysis_result (Z.of_nat (length (parse_lines lines)))
          (fst (process_entries (min_level self) (parse_lines lines)))
          (snd (process_entries (min_level self) (parse_lines lines)))
          cs perf_counter_ms (Some summary).
Proof.
  unfold analyze. destruct (read_log_file file filename) as [lines |]; [| discriminate].
  destruct (parse_lines_raises lines) eqn:Hraises; [discriminate |].
  intros H. exists lines.
  destruct (process_entries (min_level self) (parse_lines lines)) as [es d].
  cbn [fst snd] in *.
  destruct (cluster_templates (clusterer self) d) as [cs |]; [| discriminate].
  match type of H with
  | match ?x with _ => _ end = _ => destruct x as [summary |]; [| discriminate]
  end.
  injection H as <-. eexists cs, _.
  split; [reflexivity | split; [exact Hraises | split; reflexivity]].
Qed.

(** With a key at hand, or when it is not asked for, the summary of
    the service is a value: nothing is raised. *)
Lemma llm_summary_returns (self : LogAnalyzer) (cs : list ErrorCluster)
  (total_lines error_count : Z) :
  use_llm self = false \/ key_available (llm_api_key self) = true ->
  exists summary,
    (if use_llm self && match cs with [] => false | _ => true end
     then generate_llm_summary cs total_lines error_count (llm_api_key self)
     else Some None) = Some summary.
Proof.
  intros [Huse | Hkey].
  - rewrite Huse. eexists. reflexivity.
  - unfold generate_llm_summary. unfold key_available in Hkey.
    destruct (or_str (llm_api_key self) GEMINI_API_KEY) as [[| k key] |]; try discriminate.
    destruct (use_llm self && _); eexists; reflexivity.
Qed.

Lemma count_if_filter {A : Type} (f g : A -> bool) (l : list A) :
  (forall x, f x = true -> g x = true) -> count_if f (filter g l) = count_if f l.
Proof.
  intros Hfg. unfold count_if. f_equal. f_equal.
  induction l as [| x l IH]; [reflexivity |].
  cbn [filter]. destruct (g x) eqn:Hg; cbn [filter]; rewrite IH; [reflexivity |].
  destruct (f x) eqn:Hf; [| reflexivity].
  apply Hfg in Hf. congruence.
Qed.

Lemma is_high_signal_error (min_level : LogLevel) (e : ParsedLogEntry) :
  LogLevel_eqb (level e) ERROR = true -> is_high_signal min_level e = true.
Proof.
  unfold is_high_signal, is_error. destruct (level e); try discriminate. reflexivity.
Qed.

Lemma is_high_signal_fatal (min_level : LogLevel) (e : ParsedLogEntry) :
  LogLevel_eqb (level e) FATAL = true -> is_high_signal min_level e = true.
Proof.
  unfold is_high_signal, is_error. destruct (level e); try discriminate. reflexivity.
Qed.

Lemma is_high_signal_exception (min_level : LogLevel) (e : ParsedLogEntry) :
  has_exception e = true -> is_high_signal min_level e = true.
Proof.
  unfold is_high_signal. intros ->. now destruct (is_error e).
Qed.

Lemma is_high_signal_warn (min_level : LogLevel) (e : ParsedLogEntry) :
  (LogLevel_value min_level <= LogLevel_value WARN)%Z ->
  LogLevel_eqb (level e) WARN = true -> is_high_signal min_level e = true.
Proof.
  unfold is_high_signal. intros Hmin ->.
  apply Z.leb_le in Hmin. rewrite Hmin.
  destruct (is_error e); [reflexivity |].
  destruct (has_exception e); [reflexivity |].
  match goal with |- (if ?c then _ else _) = _ => destruct c end; reflexivity.
Qed.

(** X12. The counters of the result of [analyze], in terms of the
    entries parsed from the lines of the file: [total_lines] is their
    number, [error_lines], [fatal_lines] and [exception_count] count the
    entries of level ERROR, of level FATAL and with an exception (none
    of them is filtered out), and, when the configured level is WARN or
    lower, [warning_lines] counts the entries of level WARN. *)
Theorem analyze_level_counts (self : LogAnalyzer) (file : bytes) (filename : str)
  (lines : list str) (r : AnalysisResult) :
  read_log_file file filename = Some lines ->
  analyze self file filename = Some r ->
  total_lines r = Z.of_nat (length (parse_lines lines)) /\
  error_lines r = count_if (fun e => LogLevel_eqb (level e) ERROR) (parse_lines lines) /\
  fatal_lines r = count_if (fun e => LogLevel_eqb (level e) FATAL) (parse_lines lines) /\
  exception_count r = count_if has_exception (parse_lines lines) /\
  ((LogLevel_value (min_level self) <= LogLevel_value WARN)%Z ->
   warning_lines r = count_if (fun e => LogLevel_eqb (level e) WARN) (parse_lines lines)).
Proof.
  intros Hread Hr.
  destruct (analyze_some self file filename r Hr)
    as (lines' & cs & summary & Hread' & _ & _ & ->).
  rewrite Hread in Hread'. injection Hread' as <-.
  destruct (process_entries_tracks (min_level self) (parse_lines lines)) as (Hfst & _).
  unfold build_analysis_result.
  cbn [total_lines error_lines fatal_lines exception_count warning_lines].
  rewrite Hfst.
  split; [reflexivity |].
  split; [apply count_if_filter; intros e; apply is_high_signal_error |].
  split; [apply count_if_filter; intros e; apply is_high_signal_fatal |].
  split; [apply count_if_filter; intros e; apply is_high_signal_exception |].
  intros Hmin. apply count_if_filter. intros e. now apply is_high_signal_warn.
Qed.

Lemma analyze_is_some (self : LogAnalyzer) (file : bytes) (filename : str)
  (lines : list str) :
  min_samples_per_cluster (clusterer self) <> 0%Z ->
  one_label_per_text ->
  read_log_file file filename = Some lines ->
  parse_lines_raises lines = false ->
  use_llm self = false \/ key_available (llm_api_key self) = true ->
  exists r, analyze self file filename = Some r.
Proof.
  intros Hmin Hlabels Hread Hraises Hkey. unfold analyze. rewrite Hread, Hraises.
  destruct (process_entries (min_level self) (parse_lines lines)) as [es d].
  destruct (cluster_templates_well_formed (clusterer self) d Hmin Hlabels)
    as (cs & Hcs & _).
  rewrite Hcs.
  destruct (llm_summary_returns self cs (Z.of_nat (length (parse_lines lines)))
              (Z.of_nat (length es)) Hkey) as (summary & ->).
  eexists. reflexivity.
Qed.

(** X13. [analyze] returns a result for a file that can be read, when
    parsing its lines raises nothing ([json.loads] fails on a line with
    [json.JSONDecodeError] only), when the summary of the service is not
    asked for or a key for it is at hand (without one the undefined
    default key is looked up, which raises [NameError]), the minimum
    cluster size is not zero (the constructor sets 2) and the vectorizer
    gives one label per text; the occurrences of the clusters of the
    result add up to the number of high-signal entries parsed from the
    file, and there are no more clusters than distinct normalized
    messages. *)
Theorem analyze_returns (self : LogAnalyzer) (file : bytes) (filename : str)
  (lines : list str) :
  min_samples_per_cluster (clusterer self) <> 0%Z ->
  one_label_per_text ->
  read_log_file file filename = Some lines ->
  parse_lines_raises lines = false ->
  use_llm self = false \/ key_available (llm_api_key self) = true ->
  exists r,
    analyze self file filename = Some r /\
    sumZ (map out_total_occurrences (clusters r)) =
      Z.of_nat (length (filter (is_high_signal (min_level self)) (parse_lines lines))) /\
    length (clusters r) <=
      length (distinct (map (fun e => normalize_message (message e))
                          (filter (is_high_signal (min_level self)) (parse_lines lines)))).
Proof.
  intros Hmin Hlabels Hread Hraises Hkey.
  destruct (process_entries_tracks (min_level self) (parse_lines lines))
    as (Hfst & Hkeys & _).
  assert (Hsum : conserved (process_entries (min_level self) (parse_lines lines))).
  { unfold process_entries. apply fold_process_entry_conserved. reflexivity. }
  unfold conserved in Hsum.
  unfold analyze. rewrite Hread, Hraises.
  destruct (process_entries (min_level self) (parse_lines lines)) as [es d].
  cbn [fst snd] in *.
  destruct (cluster_templates_well_formed (clusterer self) d Hmin Hlabels)
    as (cs & Hcs & Hwf & Hperm).
  rewrite Hcs.
  destruct (llm_summary_returns self cs (Z.of_nat (length (parse_lines lines)))
              (Z.of_nat (length es)) Hkey) as (summary & ->).
  eexists. split; [reflexivity |].
  unfold build_analysis_result, format_clusters_for_output. cbn [clusters].
  rewrite map_map, length_map. cbn [out_total_occurrences]. split.
  - transitivity (sumZ (map total_count cs)); [reflexivity |].
    rewrite (sumZ_total_count cs Hwf), (sum_counts_perm _ _ Hperm), Hsum, Hfst.
    reflexivity.
  - rewrite <- Hkeys, length_map.
    apply Nat.le_trans with (length (flat_map templates cs)).
    + now apply nonempty_clusters_length.
    + rewrite (Permutation_length Hperm). unfold values. now rewrite length_map.
Qed.

(** ** Parsing: the loop of [parse_lines] *)

Lemma parse_json_line_entry (line : str) (n : Z) (e : ParsedLogEntry) :
  _parse_json_line line n = Some (Some e) -> line_number e = n /\ is_multiline e = false.
Proof.
  unfold _parse_json_line.
  destruct (json_loads line) as [v | |]; try discriminate.
  destruct v; try discriminate. intros [= <-]. split; reflexivity.
Qed.

Lemma parse_json_line_raises (line : str) (n : Z) :
  _parse_json_line line n = None -> json_loads line = OtherError.
Proof.
  unfold _parse_json_line.
  destruct (json_loads line) as [v | |]; try discriminate; [| reflexivity].
  destruct v; discriminate.
Qed.

Lemma parse_single_line_number (line : str) (n : Z) (e : ParsedLogEntry) :
  _parse_single_line line n = Some e -> line_number e = n.
Proof.
  unfold _parse_single_line.
  destruct (startswith (strip line) (lit "{")); [| intros [= <-]; reflexivity].
  destruct (_parse_json_line (strip line) n) as [[e' |] |] eqn:He; try discriminate.
  - intros [= <-]. now apply parse_json_line_entry in He.
  - intros [= <-]. reflexivity.
Qed.

Lemma parse_single_line_not_multiline (line : str) (n : Z) (e : ParsedLogEntry) :
  _parse_single_line line n = Some e -> is_multiline e = false.
Proof.
  unfold _parse_single_line.
  destruct (startswith (strip line) (lit "{")); [| intros [= <-]; reflexivity].
  destruct (_parse_json_line (strip line) n) as [[e' |] |] eqn:He; try discriminate.
  - intros [= <-]. now apply parse_json_line_entry in He.
  - intros [= <-]. reflexivity.
Qed.

Lemma parse_plain_line_raw (line : str) (n : Z) :
  raw_line (_parse_plain_line line n) = line.
Proof. reflexivity. Qed.

Lemma parse_single_line_plain (line : str) (n : Z) :
  startswith (strip line) (lit "{") = false ->
  _parse_single_line line n = Some (_parse_plain_line line n).
Proof. unfold _parse_single_line. intros ->. reflexivity. Qed.

(** [_parse_single_line] raises on the lines that are tried as JSON and
    on which [json.loads] raises something else than
    [json.JSONDecodeError]. *)
Lemma parse_single_line_raises (line : str) (n : Z) :
  _parse_single_line line n = None ->
  startswith (strip line) (lit "{") = true /\ json_loads (strip line) = OtherError.
Proof.
  unfold _parse_single_line.
  destruct (startswith (strip line) (lit "{")); [| discriminate].
  destruct (_parse_json_line (strip line) n) as [[e' |] |] eqn:He; try discriminate.
  intros _. split; [reflexivity |]. now apply parse_json_line_raises in He.
Qed.

(** The things one iteration of the loop can do with a line: nothing,
    after an exception or on a blank line; fold the line into the
    pending entry; yield the pending entry and start a new one; yield
    the pending entry and raise. *)
Lemma parse_line_cases (st : parser_state) (n : Z) (line : str) :
  ((raised st = true \/ nonblank line = false) /\ parse_line st n line = st) \/
  (raised st = false /\ nonblank line = true /\
   exists p,
     _is_continuation_line line = true /\
     _pending_multiline st = Some p /\
     parse_line st n line =
       {| _pending_multiline := Some (_append_to_multiline p line);
          yielded := yielded st;
          raised := false |}) \/
  (raised st = false /\ nonblank line = true /\
   exists entry,
     _parse_single_line line n = Some entry /\
     raised (parse_line st n line) = false /\
     flush (parse_line st n line) = flush st ++ [entry] /\
     _pending_multiline (parse_line st n line) =
       if _might_have_continuation entry then Some entry else None) \/
  (raised st = false /\ nonblank line = true /\
   _parse_single_line line n = None /\
   parse_line st n line =
     {| _pending_multiline := None; yielded := flush st; raised := true |}).
Proof.
  unfold parse_line, nonblank.
  destruct (raised st) eqn:Hraised; [left; split; [now left | reflexivity] |].
  destruct (strip line) as [| c s]; [left; split; [now right | reflexivity] |].
  right.
  destruct (if _is_continuation_line line then _pending_multiline st else None)
    as [p |] eqn:Hcont.
  - left. split; [reflexivity |]. split; [reflexivity |]. exists p.
    destruct (_is_continuation_line line); [| discriminate].
    split; [reflexivity |]. split; [exact Hcont | reflexivity].
  - right. destruct (_parse_single_line line n) as [entry |].
    + left. split; [reflexivity |]. split; [reflexivity |]. exists entry.
      split; [reflexivity |].
      destruct (_might_have_continuation entry);
        (split; [reflexivity |]); (split; [reflexivity |]); reflexivity.
    + right. split; [reflexivity |]. split; [reflexivity |]. split; reflexivity.
Qed.

Lemma parse_loop_invariant (Inv : list str -> parser_state -> Prop) :
  (forall seen st line,
     Inv seen st ->
     Inv (seen ++ [line]) (parse_line st (Z.of_nat (S (length seen))) line)) ->
  forall lines seen st,
    Inv seen st ->
    Inv (seen ++ lines) (parse_loop st (Z.of_nat (S (length seen))) lines).
Proof.
  intros Hstep. induction lines as [| line lines IH]; intros seen st H; cbn [parse_loop].
  - now rewrite app_nil_r.
  - replace (seen ++ line :: lines) with ((seen ++ [line]) ++ lines)
      by (rewrite <- app_assoc; reflexivity).
    replace (Z.of_nat (S (length seen)) + 1)%Z with (Z.of_nat (S (length (seen ++ [line]))))
      by (rewrite length_app; cbn [length]; lia).
    apply IH, Hstep, H.
Qed.

Lemma parse_lines_invariant (Inv : list str -> parser_state -> Prop) (lines : list str) :
  (forall seen st line,
     Inv seen st ->
     Inv (seen ++ [line]) (parse_line st (Z.of_nat (S (length seen))) line)) ->
  Inv [] {| _pending_multiline := None; yielded := []; raised := false |} ->
  exists st,
    parse_lines lines = flush st /\ parse_lines_raises lines = raised st /\ Inv lines st.
Proof.
  intros Hstep Hinit. eexists. split; [reflexivity |]. split; [reflexivity |].
  apply (parse_loop_invariant Inv Hstep lines [] _ Hinit).
Qed.

Lemma flush_raised (entries : list ParsedLogEntry) :
  flush {| _pending_multiline := None; yielded := entries; raised := true |} = entries.
Proof. reflexivity. Qed.

Lemma flush_pending (st : parser_state) (p : ParsedLogEntry) :
  _pending_multiline st = Some p -> flush st = yielded st ++ [p].
Proof. unfold flush. now intros ->. Qed.

Lemma started_by_more (seen : list str) (line : str) (e : ParsedLogEntry) :
  (1 <= line_number e <= Z.of_nat (length seen))%Z ->
  started_by seen e -> started_by (seen ++ [line]) e.
Proof.
  intros Hn (l & parsed & Hl & Hrest). exists l, parsed. split; [| exact Hrest].
  rewrite nth_error_app1; [exact Hl | lia].
Qed.

Lemma started_by_append (seen : list str) (line : str) (p : ParsedLogEntry) :
  started_by seen p -> started_by seen (_append_to_multiline p line).
Proof. intros H. exact H. Qed.

Lemma started_by_single (seen : list str) (line : str) (entry : ParsedLogEntry) :
  nonblank line = true ->
  _parse_single_line line (Z.of_nat (S (length seen))) = Some entry ->
  started_by (seen ++ [line]) entry.
Proof.
  intros Hline Hentry. exists line, entry.
  rewrite (parse_single_line_number _ _ _ Hentry).
  split; [| now repeat split].
  replace (Z.to_nat (Z.of_nat (S (length seen)) - 1)) with (length seen) by lia.
  rewrite nth_error_app2 by lia. now rewrite Nat.sub_diag.
Qed.

(** X14. The entries of [parse_lines] come in the order of the file:
    their line numbers increase strictly and lie between 1 and the number
    of lines, and each entry was started by the line of its number, which
    is not blank: level, message, timestamp and logger are those parsed
    from that line alone, whatever lines were folded into the entry. *)
Theorem parse_lines_line_numbers (lines : list str) :
  StronglySorted Z.lt (map line_number (parse_lines lines)) /\
  Forall (fun e =>
            (1 <= line_number e <= Z.of_nat (length lines))%Z /\ started_by lines e)
    (parse_lines lines).
Proof.
  destruct (parse_lines_invariant
              (fun seen st =>
                 StronglySorted Z.lt (map line_number (flush st)) /\
                 Forall (fun e =>
                           (1 <= line_number e <= Z.of_nat (length seen))%Z /\
                           started_by seen e) (flush st))
              lines) as (st & -> & _ & H); [| split; constructor | exact H].
  intros seen st line (Hsorted & Hall).
  assert (Hmore : Forall (fun e =>
                            (1 <= line_number e <= Z.of_nat (length (seen ++ [line])))%Z /\
                            started_by (seen ++ [line]) e) (flush st)).
  { eapply Forall_impl; [| exact Hall]. intros e (Hn & Hstart). split.
    - rewrite length_app. cbn [length]. lia.
    - now apply started_by_more. }
  destruct (parse_line_cases st (Z.of_nat (S (length seen))) line)
    as [(_ & ->) | [(_ & _ & p & _ & Hp & ->) |
        [(_ & Hline & entry & Hentry & _ & Hflush & _) | (_ & _ & _ & ->)]]].
  - now split.
  - rewrite (flush_pending st p Hp) in Hsorted, Hmore.
    unfold flush. cbn [_pending_multiline yielded].
    rewrite map_app in *. split; [exact Hsorted |].
    apply Forall_app in Hmore. destruct Hmore as (Hyielded & Hlast).
    apply Forall_app. split; [exact Hyielded |].
    inversion Hlast as [| ? ? (Hn & Hstart) _]; subst.
    constructor; [| constructor]. split; [exact Hn | exact Hstart].
  - rewrite Hflush, map_app. cbn [map].
    rewrite (parse_single_line_number _ _ _ Hentry). split.
    + apply StronglySorted_snoc; [exact Hsorted |].
      rewrite Forall_map. eapply Forall_impl; [| exact Hall].
      intros e ((_ & Hn) & _). lia.
    + apply Forall_app. split; [exact Hmore |].
      constructor; [| constructor].
      rewrite (parse_single_line_number _ _ _ Hentry). split.
      * rewrite length_app. cbn [length]. lia.
      * now apply started_by_single.
  - rewrite flush_raised. now split.
Qed.

Lemma might_have_continuation_append (p : ParsedLogEntry) (line : str) :
  _might_have_continuation p = true ->
  _might_have_continuation (_append_to_multiline p line) = true.
Proof.
  unfold _might_have_continuation, _append_to_multiline, is_error, has_exception.
  cbn [exception level message].
  destruct (exception p) as [[| c e] |].
  - intros H. match goal with |- (if ?x then _ else _) = _ => destruct x end;
      [reflexivity | exact H].
  - intros _. reflexivity.
  - intros H. match goal with |- (if ?x then _ else _) = _ => destruct x end;
      [reflexivity | exact H].
Qed.

(** X15. An entry of [parse_lines] is either the parse of one line, not
    marked multiline, or it is marked multiline and then it is one that
    [_might_have_continuation] accepts: it has an exception, its level is
    ERROR or FATAL, or its message holds one of the keywords. *)
Theorem parse_lines_multiline (lines : list str) :
  Forall (fun e =>
            (is_multiline e = false /\
             exists line,
               In line lines /\ _parse_single_line line (line_number e) = Some e) \/
            (is_multiline e = true /\ _might_have_continuation e = true))
    (parse_lines lines).
Proof.
  destruct (parse_lines_invariant
              (fun seen st =>
                 (forall p, _pending_multiline st = Some p ->
                            _might_have_continuation p = true) /\
                 Forall (fun e =>
                           (is_multiline e = false /\
                            exists line,
                              In line seen /\
                              _parse_single_line line (line_number e) = Some e) \/
                           (is_multiline e = true /\ _might_have_continuation e = true))
                   (flush st))
              lines) as (st & -> & _ & _ & H);
    [| split; [discriminate | constructor] | exact H].
  intros seen st line (Hpending & Hall).
  assert (Hmore : Forall (fun e =>
                            (is_multiline e = false /\
                             exists l,
                               In l (seen ++ [line]) /\
                               _parse_single_line l (line_number e) = Some e) \/
                            (is_multiline e = true /\ _might_have_continuation e = true))
                    (flush st)).
  { eapply Forall_impl; [| exact Hall].
    intros e [(Hsingle & l & Hl & He) | Hmulti]; [left | now right].
    split; [exact Hsingle |]. exists l. split; [| exact He].
    apply in_or_app. now left. }
  destruct (parse_line_cases st (Z.of_nat (S (length seen))) line)
    as [(_ & ->) | [(_ & _ & p & _ & Hp & ->) |
        [(_ & _ & entry & Hentry & _ & Hflush & Hnew) | (_ & _ & _ & ->)]]].
  - now split.
  - cbn [_pending_multiline]. split.
    + intros q [= <-]. apply might_have_continuation_append. now apply Hpending.
    + rewrite (flush_pending st p Hp) in Hmore.
      unfold flush. cbn [_pending_multiline yielded].
      apply Forall_app in Hmore. destruct Hmore as (Hyielded & _).
      apply Forall_app. split; [exact Hyielded |].
      constructor; [| constructor]. right. split; [reflexivity |].
      apply might_have_continuation_append. now apply Hpending.
  - split.
    + rewrite Hnew. intros q.
      destruct (_might_have_continuation entry) eqn:Hmight; [| discriminate].
      now intros [= <-].
    + rewrite Hflush. apply Forall_app. split; [exact Hmore |].
      constructor; [| constructor]. left.
      split; [exact (parse_single_line_not_multiline _ _ _ Hentry) |].
      exists line. split; [apply in_or_app; right; now left |].
      now rewrite (parse_single_line_number _ _ _ Hentry).
  - rewrite flush_raised. split; [discriminate | exact Hmore].
Qed.

Lemma split_nl_sep (x y : str) :
  no_newline x = true ->
  split_nl (x ++ NL :: y) = (x :: fst (split_nl y), snd (split_nl y)).
Proof.
  unfold no_newline. induction x as [| c x IH]; intros Hx.
  - cbn [app split_nl]. rewrite N.eqb_refl. now destruct (split_nl y).
  - cbn [forallb] in Hx. apply andb_true_iff in Hx. destruct Hx as (Hc & Hx).
    apply negb_true_iff in Hc.
    cbn [app split_nl]. rewrite (IH Hx), Hc. reflexivity.
Qed.

Lemma pieces_no_newline (line : str) : no_newline line = true -> pieces line = [line].
Proof. intros H. unfold pieces. now rewrite (split_nl_no_newline line H). Qed.

Lemma pieces_append (r line : str) :
  no_newline line = true -> pieces (r ++ [NL] ++ line) = pieces r ++ [line].
Proof.
  intros Hline. unfold pieces. rewrite split_nl_app.
  pose proof (split_nl_last r) as Hlast.
  destruct (split_nl r) as [la lasta]. cbn [fst snd] in *.
  cbn [app]. rewrite (split_nl_sep lasta line Hlast), (split_nl_no_newline line Hline).
  cbn [fst snd]. now rewrite <- app_assoc.
Qed.

Lemma filter_nonblank_snoc (seen : list str) (line : str) :
  filter nonblank (seen ++ [line]) =
  filter nonblank seen ++ (if nonblank line then [line] else []).
Proof. now rewrite filter_app. Qed.

(** X16. On a plain-text log (no line holds a newline, and no line
    starts with a brace after stripping), [parse_lines] loses no text and
    invents none: the raw lines of the entries, split at newlines, are
    the lines of the input that are not blank, in order. *)
Theorem parse_lines_raw_lines (lines : list str) :
  forallb plain_line lines = true ->
  flat_map (fun e => pieces (raw_line e)) (parse_lines lines) = filter nonblank lines.
Proof.
  intros Hplain.
  destruct (parse_lines_invariant
              (fun seen st =>
                 forallb plain_line seen = true ->
                 raised st = false /\
                 flat_map (fun e => pieces (raw_line e)) (flush st) = filter nonblank seen)
              lines) as (st & -> & _ & H); [| now split | exact (proj2 (H Hplain))].
  clear Hplain. intros seen st line IH Hplain.
  rewrite forallb_app in Hplain. apply andb_true_iff in Hplain.
  destruct Hplain as (Hseen & Hline). destruct (IH Hseen) as (Hraised & Htext).
  cbn [forallb] in Hline. rewrite andb_true_r in Hline.
  unfold plain_line in Hline. apply andb_true_iff in Hline.
  destruct Hline as (Hnl & Hjson). apply negb_true_iff in Hjson.
  rewrite filter_nonblank_snoc.
  destruct (parse_line_cases st (Z.of_nat (S (length seen))) line)
    as [([Hstop | Hblank] & ->) | [(_ & Hline & p & _ & Hp & ->) |
        [(_ & Hline & entry & Hentry & Hgoes & Hflush & _) | (_ & _ & Hfails & _)]]].
  - congruence.
  - rewrite Hblank, app_nil_r. now split.
  - split; [reflexivity |].
    rewrite Hline, <- Htext, (flush_pending st p Hp).
    unfold flush. cbn [_pending_multiline yielded].
    rewrite !flat_map_app. cbn [flat_map raw_line _append_to_multiline].
    rewrite !app_nil_r, (pieces_append _ _ Hnl). now rewrite app_assoc.
  - split; [exact Hgoes |].
    rewrite (parse_single_line_plain _ _ Hjson) in Hentry. injection Hentry as <-.
    rewrite Hline, Hflush, flat_map_app, Htext. cbn [flat_map].
    rewrite parse_plain_line_raw, (pieces_no_newline _ Hnl). reflexivity.
  - rewrite (parse_single_line_plain _ _ Hjson) in Hfails. discriminate.
Qed.

(** When the generator of [parse_lines] raises, one of the lines is
    tried as JSON and [json.loads] raises on it something else than
    [json.JSONDecodeError]. *)
Lemma parse_lines_raises_line (lines : list str) :
  parse_lines_raises lines = true ->
  exists line,
    In line lines /\
    startswith (strip line) (lit "{") = true /\
    json_loads (strip line) = OtherError.
Proof.
  destruct (parse_lines_invariant
              (fun seen st =>
                 raised st = true ->
                 exists line,
                   In line seen /\
                   startswith (strip line) (lit "{") = true /\
                   json_loads (strip line) = OtherError)
              lines) as (st & _ & -> & H); [| discriminate | exact H].
  intros seen st line IH.
  destruct (parse_line_cases st (Z.of_nat (S (length seen))) line)
    as [(_ & ->) | [(_ & _ & p & _ & _ & ->) |
        [(_ & _ & entry & _ & Hgoes & _) | (_ & _ & Hfails & ->)]]].
  - intros Hraised. destruct (IH Hraised) as (l & Hl & Hrest).
    exists l. split; [apply in_or_app; now left | exact Hrest].
  - discriminate.
  - congruence.
  - intros _. exists line. split; [apply in_or_app; right; now left |].
    exact (parse_single_line_raises _ _ Hfails).
Qed.

(** The generator of [parse_lines] raises nothing when [json.loads]
    raises nothing but [json.JSONDecodeError] on the lines of the
    file. *)
Lemma parse_lines_raises_nothing (lines : list str) :
  (forall line, In line lines -> json_loads (strip line) <> OtherError) ->
  parse_lines_raises lines = false.
Proof.
  intros Hlines. destruct (parse_lines_raises lines) eqn:Hraises; [| reflexivity].
  destruct (parse_lines_raises_line lines Hraises) as (line & Hin & _ & Hjson).
  exfalso. exact (Hlines line Hin Hjson).
Qed.

(** ** Parsing: which lines continue an entry *)

Lemma m_Bol_start (s : str) (g : groups) (k : pos -> groups -> option result) :
  m Bol (Pos [] s) g k = k (Pos [] s) g.
Proof. reflexivity. Qed.

Lemma space_is_space : is_space SPACE = true.
Proof. reflexivity. Qed.

Lemma tab_is_space : is_space TAB = true.
Proof. reflexivity. Qed.

Lemma not_space_not_tab (c : char) : is_space c = false -> N.eqb TAB c = false.
Proof.
  intros Hc. destruct (N.eqb TAB c) eqn:H; [| reflexivity].
  apply N.eqb_eq in H. subst c. rewrite tab_is_space in Hc. discriminate.
Qed.

Lemma not_space_not_blank (c : char) : is_space c = false -> N.eqb SPACE c = false.
Proof.
  intros Hc. destruct (N.eqb SPACE c) eqn:H; [| reflexivity].
  apply N.eqb_eq in H. subst c. rewrite space_is_space in Hc. discriminate.
Qed.

(** A pattern that asks for white space at the start of the line does
    not match a line that starts with another character. *)
Lemma no_match_leading_space (r : re) (c : char) (rest : str) :
  is_space c = false -> matches (Seq Bol (Seq S_ r)) (c :: rest) = false.
Proof.
  intros Hc. unfold matches, re_match.
  rewrite m_Seq, m_Bol_start, m_Seq. unfold S_. rewrite m_Cls.
  cbn [after]. now rewrite Hc.
Qed.

Lemma no_match_leading_tab (r : re) (c : char) (rest : str) :
  is_space c = false -> matches (Seq Bol (Seq (Chr TAB) r)) (c :: rest) = false.
Proof.
  intros Hc. unfold matches, re_match.
  rewrite m_Seq, m_Bol_start, m_Seq. unfold Chr. rewrite m_Cls.
  cbn [after]. now rewrite (not_space_not_tab c Hc).
Qed.

Lemma m_Seq_assoc (r1 r2 r3 : re) (p : pos) (g : groups)
  (k : pos -> groups -> option result) :
  m (Seq (Seq r1 r2) r3) p g k = m (Seq r1 (Seq r2 r3)) p g k.
Proof. reflexivity. Qed.

Lemma matches_Seq_assoc (r0 r1 r2 r3 : re) (s : str) :
  matches (Seq r0 (Seq (Seq r1 r2) r3)) s = matches (Seq r0 (Seq r1 (Seq r2 r3))) s.
Proof. reflexivity. Qed.

Lemma matches_Seq_assoc_end (r0 r1 r2 : re) (s : str) :
  matches (Seq r0 (Seq r1 r2)) s = matches (Seq r0 (Seq r1 (Seq r2 Eps))) s.
Proof. reflexivity. Qed.

(** X17. A line that does not start with white space continues an
    entry only through the last two continuation patterns, the one for
    "... N more" and the one for "Caused by:": the five patterns for
    indented text and the rule for lines without timestamp and level all
    ask for white space at the start. *)
Theorem is_continuation_line_unindented (c : char) (rest : str) :
  is_space c = false ->
  _is_continuation_line (c :: rest) =
  existsb (fun pattern => matches pattern (c :: rest)) (skipn 5 CONTINUATION_PATTERNS).
Proof.
  intros Hc. unfold _is_continuation_line.
  assert (Hstart : startswith (c :: rest) [SPACE] || startswith (c :: rest) [TAB] = false).
  { cbn [startswith]. now rewrite (not_space_not_blank c Hc), (not_space_not_tab c Hc). }
  rewrite Hstart.
  unfold CONTINUATION_PATTERNS. cbn [existsb skipn Seqs].
  unfold Plus at 1 3 5. unfold AtLeast, Plus at 4. cbn [Times].
  rewrite !matches_Seq_assoc.
  rewrite !(no_match_leading_space _ c rest Hc).
  rewrite (matches_Seq_assoc_end Bol (Chr TAB)), (no_match_leading_tab _ c rest Hc).
  cbn [orb].
  match goal with
  | |- (if ?x then true else _) = ?y => change y with x; destruct x; [reflexivity |]
  end.
  destruct (negb (matches TIMESTAMP_REGEX (strip (c :: rest)))); [| reflexivity].
  destruct (strip (c :: rest)); [reflexivity |].
  match goal with |- (if ?x then _ else _) = _ => destruct x end; reflexivity.
Qed.

Lemma star_loop_ret
  (body : pos -> groups -> (pos -> groups -> option result) -> option result)
  (fuel : nat) (p : pos) (g : groups) :
  is_some (star_loop body ret fuel p g) = true.
Proof.
  destruct fuel; cbn [star_loop]; [reflexivity |].
  match goal with |- is_some (match ?x with _ => _ end) = _ => destruct x end; reflexivity.
Qed.

Lemma matches_tabs (rest : str) :
  matches (Seqs [Bol; Plus (Chr TAB)]) (TAB :: rest) = true.
Proof.
  unfold matches, re_match. cbn [Seqs]. unfold Plus.
  rewrite m_Seq, m_Bol_start, m_Seq. unfold Chr at 1. rewrite m_Cls.
  cbn [after before]. rewrite N.eqb_refl, m_Star. apply star_loop_ret.
Qed.

Lemma matches_four_spaces (a b c d : char) (rest : str) :
  is_space a = true -> is_space b = true -> is_space c = true -> is_space d = true ->
  matches (Seqs [Bol; AtLeast 4 S_]) (a :: b :: c :: d :: rest) = true.
Proof.
  intros Ha Hb Hc Hd. unfold matches, re_match. cbn [Seqs]. unfold AtLeast. cbn [Times].
  rewrite m_Seq, m_Bol_start. cbv beta.
  rewrite m_Seq, m_Seq. unfold S_ at 1. rewrite m_Cls. cbn [after before]. rewrite Ha.
  rewrite m_Seq. unfold S_ at 1. rewrite m_Cls. cbn [after before]. rewrite Hb.
  rewrite m_Seq. unfold S_ at 1. rewrite m_Cls. cbn [after before]. rewrite Hc.
  unfold S_ at 1. rewrite m_Cls. cbn [after before]. rewrite Hd.
  rewrite m_Star. apply star_loop_ret.
Qed.

(** X18. A line that starts with a tab, or with four or more white
    space characters, is always taken as a continuation line, whatever
    follows (a timestamp and a level too). *)
Theorem is_continuation_line_indented (line : str) :
  startswith line [TAB] = true \/
  (4 <= length line /\ forallb is_space (firstn 4 line) = true) ->
  _is_continuation_line line = true.
Proof.
  intros H. unfold _is_continuation_line.
  assert (Hex : existsb (fun pattern => matches pattern line) CONTINUATION_PATTERNS = true).
  { apply existsb_exists. destruct H as [Htab | (Hlen & Hspaces)].
    - exists (Seqs [Bol; Plus (Chr TAB)]). split.
      + unfold CONTINUATION_PATTERNS. cbn [In]. do 4 right. left. reflexivity.
      + destruct line as [| c rest]; [discriminate |].
        cbn [startswith] in Htab. apply andb_true_iff in Htab. destruct Htab as (Htab & _).
        apply N.eqb_eq in Htab. subst c. apply matches_tabs.
    - exists (Seqs [Bol; AtLeast 4 S_]). split.
      + unfold CONTINUATION_PATTERNS. cbn [In]. do 3 right. left. reflexivity.
      + destruct line as [| a [| b [| c [| d rest]]]]; cbn [length] in Hlen; try lia.
        cbn [firstn forallb] in Hspaces.
        apply andb_true_iff in Hspaces. destruct Hspaces as (Ha & Hspaces).
        apply andb_true_iff in Hspaces. destruct Hspaces as (Hb & Hspaces).
        apply andb_true_iff in Hspaces. destruct Hspaces as (Hc & Hspaces).
        apply andb_true_iff in Hspaces. destruct Hspaces as (Hd & _).
        now apply matches_four_spaces. }
  now rewrite Hex.
Qed.

(** ** Ingestion: the text behind the lines *)

Lemma read_plain_loop_lines (n : nat) (fuel : nat) :
  0 < n ->
  forall (file : bytes) (buffer : str),
    length file < fuel ->
    no_newline buffer = true ->
    read_plain_loop fuel n file buffer =
    lines_of (buffer ++ concat (map decode_chunk (chunks fuel n file))).
Proof.
  intros Hn. induction fuel as [| fuel IH]; intros file buffer Hlen Hbuf; [lia |].
  cbn [read_plain_loop chunks].
  destruct (firstn n file) as [| c chunk] eqn:Hchunk.
  - cbn [map concat]. rewrite app_nil_r. unfold lines_of.
    rewrite (split_nl_no_newline _ Hbuf). reflexivity.
  - rewrite <- Hchunk. cbn [map concat].
    rewrite app_assoc. unfold lines_of.
    rewrite (split_nl_app (buffer ++ decode_chunk (firstn n file))
               (concat (map decode_chunk (chunks fuel n (skipn n file))))).
    pose proof (split_nl_last (buffer ++ decode_chunk (firstn n file))) as Hlast.
    destruct (split_nl (buffer ++ decode_chunk (firstn n file))) as [lines last].
    cbn [snd] in Hlast. cbv beta iota. rewrite IH.
    + unfold lines_of.
      destruct (split_nl (last ++ concat (map decode_chunk (chunks fuel n (skipn n file)))))
        as [lb lastb].
      now rewrite app_assoc.
    + rewrite length_skipn.
      assert (H : length (firstn n file) <> 0) by (rewrite Hchunk; discriminate).
      rewrite length_firstn in H. lia.
    + exact Hlast.
Qed.

Lemma read_gzip_file_lines (file : bytes) :
  _read_gzip_file file = option_map lines_of (gzip_text file).
Proof.
  unfold _read_gzip_file. destruct (gzip_text file) as [text |]; [| reflexivity].
  cbn [option_map]. f_equal.
  apply (read_text_loop_lines CHUNK_SIZE (S (length text))).
  - unfold CHUNK_SIZE. lia.
  - apply Nat.lt_succ_diag_r.
  - reflexivity.
Qed.

Lemma read_plain_file_lines (file : bytes) :
  _read_plain_file file = lines_of (chunkwise_text file).
Proof.
  unfold _read_plain_file, chunkwise_text.
  apply (read_plain_loop_lines CHUNK_SIZE (S (length file))).
  - unfold CHUNK_SIZE. lia.
  - apply Nat.lt_succ_diag_r.
  - reflexivity.
Qed.

(** X19. [read_log_file] yields the lines of one text, whatever the
    chunk boundaries: the pieces between newlines, and the last piece
    when it is not empty.  For a name that ends in ".gz" the text is that
    of the decompressed stream (no result when it is not gzip data);
    for any other name it is made of the decodings of the chunks of
    64 KiB, each chunk decoded on its own. *)
Theorem read_log_file_text (file : bytes) (filename : str) :
  read_log_file file filename = option_map lines_of (decoded_text file filename).
Proof.
  unfold read_log_file, decoded_text.
  destruct (endswith filename (lit ".gz")).
  - apply read_gzip_file_lines.
  - cbn [option_map]. f_equal. apply read_plain_file_lines.
Qed.

Lemma decode_strict_replace (fuel : nat) :
  forall (b : bytes) (s : str), decode_strict fuel b = Some s -> decode_replace fuel b = s.
Proof.
  induction fuel as [| fuel IH]; intros b s; cbn [decode_strict decode_replace].
  - now intros [= <-].
  - destruct (utf8_next b) as [[c rest | rest] |].
    + destruct (decode_strict fuel rest) as [s' |] eqn:Hrest; cbn [option_map];
        [| discriminate].
      intros [= <-]. now rewrite (IH rest s' Hrest).
    + discriminate.
    + now intros [= <-].
Qed.

Lemma decode_chunk_replace (chunk : bytes) :
  decode_chunk chunk = decode_replace (length chunk) chunk.
Proof.
  unfold decode_chunk.
  destruct (decode_strict (length chunk) chunk) as [s |] eqn:H; [| reflexivity].
  symmetry. now apply decode_strict_replace.
Qed.

Lemma chunks_one (fuel n : nat) (file : bytes) :
  length file <= n -> file <> [] -> chunks (S (S fuel)) n file = [file].
Proof.
  intros Hlen Hfile. cbn [chunks]. unfold bytes in *.
  rewrite (firstn_all2 file Hlen), (skipn_all2 file Hlen).
  destruct file as [| c file]; [contradiction |].
  now rewrite firstn_nil.
Qed.

(** X20. On a file of at most 64 KiB, whatever its bytes,
    [_read_plain_file] yields the lines of the decoding of the whole
    stream, with one replacement character for each invalid sequence: the
    file is one chunk, and no character is split. *)
Theorem read_plain_file_one_chunk (file : bytes) :
  length file <= CHUNK_SIZE -> _read_plain_file file = spec_plain_lines file.
Proof.
  intros Hlen. unfold _read_plain_file, spec_plain_lines.
  rewrite (read_plain_loop_lines CHUNK_SIZE (S (length file)));
    [| unfold CHUNK_SIZE; lia | apply Nat.lt_succ_diag_r | reflexivity].
  cbn [app]. f_equal. unfold bytes in *.
  destruct file as [| c file]; [reflexivity |].
  cbn [length]. rewrite chunks_one; [| exact Hlen | discriminate].
  cbn [map concat]. rewrite app_nil_r. apply decode_chunk_replace.
Qed.

Lemma split_nl_pieces_no_newline (s : str) :
  Forall (fun l => no_newline l = true) (fst (split_nl s)).
Proof.
  induction s as [| c s IH]; cbn [split_nl]; [constructor |].
  destruct (split_nl s) as [ls last]. cbn [fst] in IH.
  destruct (N.eqb c NL) eqn:Hc; cbn [fst].
  - constructor; [reflexivity | exact IH].
  - destruct ls as [| l ls]; cbn [fst]; [constructor |].
    inversion IH as [| ? ? Hl Hls]; subst. constructor; [| exact Hls].
    unfold no_newline in *. cbn [forallb]. now rewrite Hc, Hl.
Qed.

Lemma lines_of_no_newline (text : str) :
  Forall (fun l => no_newline l = true) (lines_of text).
Proof.
  unfold lines_of.
  pose proof (split_nl_pieces_no_newline text) as Hls.
  pose proof (split_nl_last text) as Hlast.
  destruct (split_nl text) as [ls last]. cbn [fst snd] in *.
  apply Forall_app. split; [exact Hls |].
  destruct last; [constructor |]. constructor; [exact Hlast | constructor].
Qed.

Lemma join_cons_snoc (sep p : str) (l : list str) (x : str) :
  join sep (p :: l ++ [x]) = p ++ sep ++ join sep (l ++ [x]).
Proof. destruct l; reflexivity. Qed.

Lemma join_pieces (s : str) : join [NL] (pieces s) = s.
Proof.
  unfold pieces. induction s as [| c s IH]; [reflexivity |].
  cbn [split_nl]. destruct (split_nl s) as [ls last]. cbn [fst snd] in *.
  destruct (N.eqb c NL) eqn:Hc; cbn [fst snd].
  - apply N.eqb_eq in Hc. subst c.
    change (([] :: ls) ++ [last]) with ([] :: ls ++ [last]).
    now rewrite join_cons_snoc, IH.
  - destruct ls as [| l ls]; cbn [fst snd].
    + cbn [app join] in *. now rewrite IH.
    + change (((c :: l) :: ls) ++ [last]) with ((c :: l) :: ls ++ [last]).
      change ((l :: ls) ++ [last]) with (l :: ls ++ [last]) in IH.
      rewrite join_cons_snoc in *. cbn [app] in *. now rewrite IH.
Qed.

Lemma join_snoc_empty (sep : str) (l : list str) :
  l <> [] -> join sep (l ++ [[]]) = join sep l ++ sep.
Proof.
  induction l as [| p l IH]; intros Hl; [contradiction |].
  destruct l as [| q l].
  - cbn [app join]. now rewrite app_nil_r.
  - change ((p :: q :: l) ++ [[]]) with (p :: (q :: l) ++ [[]]).
    rewrite join_cons_snoc.
    transitivity (p ++ sep ++ (join sep (q :: l) ++ sep)).
    + do 2 f_equal. apply IH. discriminate.
    + cbn [join]. now rewrite !app_assoc.
Qed.

Lemma join_lines_of (text : str) :
  join [NL] (lines_of text) = text \/ join [NL] (lines_of text) ++ [NL] = text.
Proof.
  pose proof (join_pieces text) as H. unfold pieces, lines_of in *.
  destruct (split_nl text) as [ls last]. cbn [fst snd] in H.
  destruct last as [| c last]; [| now left].
  rewrite app_nil_r. destruct ls as [| l ls].
  - left. exact H.
  - right. rewrite join_snoc_empty in H by discriminate. exact H.
Qed.

(** X21. The lines that [read_log_file] yields hold no newline, and
    joined by newlines they give back the text they were cut from,
    except for one newline at its end: nothing else is dropped or
    added. *)
Theorem read_log_file_round_trip (file : bytes) (filename : str) (lines : list str) :
  read_log_file file filename = Some lines ->
  Forall (fun l => no_newline l = true) lines /\
  exists text,
    decoded_text file filename = Some text /\
    (join [NL] lines = text \/ join [NL] lines ++ [NL] = text).
Proof.
  unfold read_log_file, decoded_text.
  destruct (endswith filename (lit ".gz")).
  - rewrite read_gzip_file_lines.
    destruct (gzip_text file) as [text |]; [| discriminate].
    cbn [option_map]. intros [= <-]. split; [apply lines_of_no_newline |].
    exists text. split; [reflexivity | apply join_lines_of].
  - rewrite read_plain_file_lines. intros [= <-]. split; [apply lines_of_no_newline |].
    exists (chunkwise_text file). split; [reflexivity | apply join_lines_of].
Qed.

(** ** Normalization: white space of the result *)

Lemma strip_squeeze_normal (s : str) : whitespace_normal (strip (squeeze false s)).
Proof.
  split.
  - unfold strip. apply spaced_rstrip. apply (spaced_lstrip _ false).
    apply spaced_squeeze.
  - apply strip_idempotent.
Qed.

(** X22. The text [normalize_message] returns, and the text
    [_prepare_text] hands to the vectorizer, have no white space at
    either end, and inside them white space occurs only as single space
    characters (tabs, newlines and runs of blanks are gone). *)
Theorem normalize_message_whitespace (message template : str) :
  whitespace_normal (normalize_message message) /\
  whitespace_normal (_prepare_text template).
Proof.
  split.
  - rewrite normalize_message_eq, re_sub_whitespace. apply strip_squeeze_normal.
  - unfold _prepare_text. cbv zeta. rewrite re_sub_whitespace. apply strip_squeeze_normal.
Qed.

(** ** Normalizer: the configured level *)

Lemma is_high_signal_effective (min_level : LogLevel) (e : ParsedLogEntry) :
  is_high_signal min_level e = is_high_signal (effective_level min_level) e.
Proof. destruct min_level; reflexivity. Qed.

Lemma fold_process_entry_effective (min_level : LogLevel) (entries : list ParsedLogEntry) :
  forall st,
    fold_left (process_entry min_level) entries st =
    fold_left (process_entry (effective_level min_level)) entries st.
Proof.
  induction entries as [| e entries IH]; intros st; cbn [fold_left]; [reflexivity |].
  rewrite IH. f_equal. unfold process_entry. destruct st as [hs d].
  rewrite (is_high_signal_effective min_level e). reflexivity.
Qed.

(** X23. The configured minimum level acts only through one
    comparison with WARN: a normalizer configured with TRACE, DEBUG,
    INFO, WARN or UNKNOWN behaves as one configured with WARN, and one
    configured with ERROR or FATAL as one configured with ERROR.  So
    TRACE, DEBUG and INFO admit no more entries than WARN does, and
    FATAL does not leave out the entries of level ERROR. *)
Theorem process_entries_effective_level (min_level : LogLevel)
  (entries : list ParsedLogEntry) :
  process_entries min_level entries =
  process_entries (effective_level min_level) entries /\
  (effective_level min_level = WARN \/ effective_level min_level = ERROR) /\
  incl (filter (fun e => LogLevel_eqb (level e) ERROR) entries)
       (fst (process_entries min_level entries)).
Proof.
  split; [apply fold_process_entry_effective |].
  split; [destruct min_level; [left | left | left | left | right | right | left]; reflexivity |].
  destruct (process_entries_tracks min_level entries) as (Hfst & _).
  rewrite Hfst. intros e He. apply filter_In in He. destruct He as (Hin & Herror).
  apply filter_In. split; [exact Hin | now apply is_high_signal_error].
Qed.

(** ** Level names *)

Lemma to_upper_lower_ascii (c : char) : to_upper_ascii (to_lower_ascii c) = to_upper_ascii c.
Proof.
  unfold to_upper_ascii, to_lower_ascii, ascii_lower, ascii_upper, in_range.
  destruct (N.leb_spec 65 c); destruct (N.leb_spec c 90); cbn [andb];
    repeat match goal with
           | |- context [N.leb ?a ?b] => destruct (N.leb_spec a b); cbn [andb]
           end; lia.
Qed.

Lemma to_upper_upper_ascii (c : char) : to_upper_ascii (to_upper_ascii c) = to_upper_ascii c.
Proof.
  unfold to_upper_ascii, ascii_lower, in_range.
  destruct (N.leb_spec 97 c); destruct (N.leb_spec c 122); cbn [andb];
    repeat match goal with
           | |- context [N.leb ?a ?b] => destruct (N.leb_spec a b); cbn [andb]
           end; lia.
Qed.

Lemma is_ascii_to_lower (c : char) : is_ascii c = true -> is_ascii (to_lower_ascii c) = true.
Proof.
  unfold is_ascii, to_lower_ascii, ascii_upper, in_range. intros H.
  apply N.ltb_lt in H.
  destruct (N.leb_spec 65 c); destruct (N.leb_spec c 90); cbn [andb];
    apply N.ltb_lt; lia.
Qed.

Lemma is_ascii_to_upper (c : char) : is_ascii c = true -> is_ascii (to_upper_ascii c) = true.
Proof.
  unfold is_ascii, to_upper_ascii, ascii_lower, in_range. intros H.
  apply N.ltb_lt in H.
  destruct (N.leb_spec 97 c); destruct (N.leb_spec c 122); cbn [andb];
    apply N.ltb_lt; lia.
Qed.

Lemma is_space_to_upper (c : char) : is_space (to_upper_ascii c) = is_space c.
Proof.
  unfold to_upper_ascii, ascii_lower, in_range.
  destruct (N.leb_spec 97 c); destruct (N.leb_spec c 122); cbn [andb]; try reflexivity.
  unfold is_space, in_range.
  repeat match goal with
         | |- context [N.leb ?a ?b] => destruct (N.leb_spec a b); try lia
         | |- context [N.eqb ?a ?b] => destruct (N.eqb_spec a b); try lia
         end;
    try reflexivity.
Qed.

Lemma forallb_map_ascii (f : char -> char) (s : str) :
  (forall c, is_ascii c = true -> is_ascii (f c) = true) ->
  forallb is_ascii s = true -> forallb is_ascii (map f s) = true.
Proof.
  intros Hf. induction s as [| c s IH]; cbn [map forallb]; [reflexivity |].
  intros H. apply andb_true_iff in H. destruct H as (Hc & Hs).
  now rewrite (Hf c Hc), (IH Hs).
Qed.

Lemma lstrip_map_upper (s : str) :
  lstrip (map to_upper_ascii s) = map to_upper_ascii (lstrip s).
Proof.
  induction s as [| c s IH]; cbn [map lstrip]; [reflexivity |].
  rewrite is_space_to_upper. destruct (is_space c); [exact IH | reflexivity].
Qed.

Lemma strip_map_upper (s : str) :
  strip (map to_upper_ascii s) = map to_upper_ascii (strip s).
Proof.
  unfold strip, rstrip.
  now rewrite lstrip_map_upper, <- map_rev, lstrip_map_upper, map_rev.
Qed.

Lemma forallb_lstrip_ascii (s : str) :
  forallb is_ascii s = true -> forallb is_ascii (lstrip s) = true.
Proof.
  induction s as [| c s IH]; cbn [lstrip]; [reflexivity |].
  intros H. destruct (is_space c); [| exact H].
  cbn [forallb] in H. apply andb_true_iff in H. now apply IH.
Qed.

Lemma forallb_strip_ascii (s : str) :
  forallb is_ascii s = true -> forallb is_ascii (strip s) = true.
Proof.
  intros H. unfold strip, rstrip.
  rewrite forallb_reversed. apply forallb_lstrip_ascii.
  rewrite forallb_reversed. now apply forallb_lstrip_ascii.
Qed.

(** What [from_string] looks up, for a string of ASCII characters. *)
Lemma from_string_ascii (s : str) :
  forallb is_ascii s = true ->
  from_string s =
  match assoc_get (map to_upper_ascii (strip s)) level_map with
  | Some l => l
  | None => UNKNOWN
  end.
Proof.
  intros Hascii. unfold from_string, upper. rewrite Hascii, strip_map_upper.
  destruct s; reflexivity.
Qed.

(** X24. [LogLevel.from_string] reads a level name whatever the case of
    its letters and whatever white space surrounds it: on a string of
    ASCII characters, lower-casing, upper-casing or stripping the string
    first does not change the level returned. *)
Theorem from_string_case_and_space (s : str) :
  forallb is_ascii s = true ->
  from_string (lower s) = from_string s /\
  from_string (upper s) = from_string s /\
  from_string (strip s) = from_string s.
Proof.
  intros Hascii.
  assert (Hlower : forallb is_ascii (map to_lower_ascii s) = true)
    by (apply forallb_map_ascii; [exact is_ascii_to_lower | exact Hascii]).
  assert (Hupper : forallb is_ascii (map to_upper_ascii s) = true)
    by (apply forallb_map_ascii; [exact is_ascii_to_upper | exact Hascii]).
  assert (Hstrip : forallb is_ascii (strip s) = true) by now apply forallb_strip_ascii.
  unfold lower, upper. rewrite Hascii.
  rewrite (from_string_ascii _ Hlower), (from_string_ascii _ Hupper),
    (from_string_ascii _ Hstrip), (from_string_ascii _ Hascii).
  rewrite strip_idempotent, <- !strip_map_upper, !map_map.
  rewrite (map_ext _ _ to_upper_lower_ascii s), (map_ext _ _ to_upper_upper_ascii s).
  repeat split; reflexivity.
Qed.

(** ** Aggregation: [compute_statistics] *)

Lemma level_key_eq (l : LogLevel) :
  lower (LogLevel_name l) =
  match l with
  | TRACE => lit "trace" | DEBUG => lit "debug" | INFO => lit "info"
  | WARN => lit "warn" | ERROR => lit "error" | FATAL => lit "fatal"
  | UNKNOWN => lit "unknown"
  end.
Proof. destruct l; vm_compute; reflexivity. Qed.

Lemma count_if_snoc {A : Type} (f : A -> bool) (l : list A) (x : A) :
  count_if f (l ++ [x]) = (count_if f l + (if f x then 1 else 0))%Z.
Proof.
  rewrite count_if_app. f_equal. unfold count_if. cbn [filter].
  now destruct (f x).
Qed.

Lemma compute_statistics_step (seen : list ParsedLogEntry) (entry : ParsedLogEntry) :
  (let stats := increment (lit "total") (statistics_of seen) in
   let level_key := lower (LogLevel_name (level entry)) in
   let stats :=
     match assoc_get level_key stats with
     | Some _ => increment level_key stats
     | None => stats
     end in
   if has_exception entry then increment (lit "exceptions") stats else stats) =
  statistics_of (seen ++ [entry]).
Proof.
  cbv zeta. rewrite level_key_eq. unfold statistics_of.
  rewrite !count_if_snoc, length_app, Nat2Z.inj_add. cbn [length]. cbv beta.
  destruct (level entry); destruct (has_exception entry);
    cbn [LogLevel_eqb LogLevel_value Z.eqb Pos.eqb]; rewrite ?Z.add_0_r;
    repeat match goal with
           | |- context [count_if ?f seen] => generalize (count_if f seen); intro
           end;
    generalize (Z.of_nat (length seen)); intro;
    vm_compute; reflexivity.
Qed.

Lemma fold_compute_statistics (entries : list ParsedLogEntry) :
  forall seen,
    fold_left
      (fun stats entry =>
         let stats := increment (lit "total") stats in
         let level_key := lower (LogLevel_name (level entry)) in
         let stats :=
           match assoc_get level_key stats with
           | Some _ => increment level_key stats
           | None => stats
           end in
         if has_exception entry then increment (lit "exceptions") stats else stats)
      entries (statistics_of seen) =
    statistics_of (seen ++ entries).
Proof.
  induction entries as [| e entries IH]; intros seen; cbn [fold_left].
  - now rewrite app_nil_r.
  - rewrite compute_statistics_step, IH, <- app_assoc. reflexivity.
Qed.

Lemma compute_statistics_eq (entries : list ParsedLogEntry) :
  compute_statistics entries = statistics_of entries.
Proof. apply (fold_compute_statistics entries []). Qed.

Lemma level_counts_total (entries : list ParsedLogEntry) :
  (count_if (fun e => LogLevel_eqb (level e) TRACE) entries +
   count_if (fun e => LogLevel_eqb (level e) DEBUG) entries +
   count_if (fun e => LogLevel_eqb (level e) INFO) entries +
   count_if (fun e => LogLevel_eqb (level e) WARN) entries +
   count_if (fun e => LogLevel_eqb (level e) ERROR) entries +
   count_if (fun e => LogLevel_eqb (level e) FATAL) entries +
   count_if (fun e => LogLevel_eqb (level e) UNKNOWN) entries)%Z =
  Z.of_nat (length entries).
Proof.
  induction entries as [| e entries IH] using rev_ind; [reflexivity |].
  rewrite !count_if_snoc, length_app, Nat2Z.inj_add. cbn [length].
  destruct (level e); cbn [LogLevel_eqb LogLevel_value Z.eqb Pos.eqb]; lia.
Qed.

(** X27. [compute_statistics] counts every entry once under "total"
    and once under the counter of its level, and the entries with an
    exception under "exceptions": the seven level counters add up to the
    total, which is the number of entries, and each counter is the
    number of entries of its level. *)
Theorem compute_statistics_counts (entries : list ParsedLogEntry) :
  map fst (compute_statistics entries) =
    map lit [ "total"; "trace"; "debug"; "info"; "warn"; "error"; "fatal"; "unknown";
              "exceptions" ]%string /\
  stat "total" (compute_statistics entries) = Z.of_nat (length entries) /\
  (forall l,
     assoc_get (lower (LogLevel_name l)) (compute_statistics entries) =
     Some (count_if (fun e => LogLevel_eqb (level e) l) entries)) /\
  stat "exceptions" (compute_statistics entries) = count_if has_exception entries /\
  (stat "trace" (compute_statistics entries) + stat "debug" (compute_statistics entries) +
   stat "info" (compute_statistics entries) + stat "warn" (compute_statistics entries) +
   stat "error" (compute_statistics entries) + stat "fatal" (compute_statistics entries) +
   stat "unknown" (compute_statistics entries))%Z =
  stat "total" (compute_statistics entries).
Proof.
  rewrite compute_statistics_eq.
  split; [reflexivity |]. split; [reflexivity |].
  split; [intros l; rewrite level_key_eq; destruct l; reflexivity |].
  split; [reflexivity |].
  unfold stat, statistics_of. vm_compute assoc_get.
  apply level_counts_total.
Qed.

(** ** Normalization: [extract_error_context] *)

(** X28. For a bound [max_length >= 0], [extract_error_context] gives
    the exception text of the entry, or its message when it has none,
    unchanged when that text has at most [max_length] characters, and
    else its first [max_length] characters followed by three dots: the
    result has at most [max_length + 3] characters, three more than the
    bound. *)
Theorem extract_error_context_bound (entry : ParsedLogEntry) (max_length : Z) :
  (0 <= max_length)%Z ->
  (Z.of_nat (length (extract_error_context entry max_length)) <= max_length + 3)%Z /\
  (if Z.leb (Z.of_nat (length (context_of entry))) max_length
   then extract_error_context entry max_length = context_of entry
   else extract_error_context entry max_length =
        firstn (Z.to_nat max_length) (context_of entry) ++ lit "..." /\
        Z.of_nat (length (extract_error_context entry max_length)) = (max_length + 3)%Z).
Proof.
  intros Hmax.
  assert (Hcontext : match exception entry with
                     | Some (c :: e) => c :: e
                     | _ => message entry
                     end = context_of entry).
  { unfold context_of, has_exception. now destruct (exception entry) as [[| c e] |]. }
  unfold extract_error_context. rewrite Hcontext.
  generalize (context_of entry). intros context. unfold slice_to.
  destruct (Z.ltb_spec max_length (Z.of_nat (length context))) as [Hlong | Hfits].
  - assert (Hneg : Z.ltb max_length 0 = false) by (apply Z.ltb_ge; exact Hmax).
    rewrite Hneg.
    assert (Hlen : Z.of_nat (length (firstn (Z.to_nat max_length) context ++ lit "...")) =
                   (max_length + 3)%Z).
    { rewrite length_app, length_firstn. cbn [lit length]. 
      change (length (lit "...")) with 3. lia. }
    split; [lia |].
    destruct (Z.leb_spec (Z.of_nat (length context)) max_length); [lia |].
    split; [reflexivity | exact Hlen].
  - split; [lia |].
    destruct (Z.leb_spec (Z.of_nat (length context)) max_length); [reflexivity | lia].
Qed.

(** ** The handler of POST /analyze *)

Lemma new_LogAnalyzer_min_samples (max_clusters : Z) (level : LogLevel) (use : bool)
  (key : option str) :
  min_samples_per_cluster (clusterer (new_LogAnalyzer max_clusters level use key)) <> 0%Z.
Proof. discriminate. Qed.

Lemma clusters_need_entries (min_level : LogLevel) (entries : list ParsedLogEntry)
  (c : ErrorCluster) (cs : list ErrorCluster) :
  Forall well_formed_cluster (c :: cs) ->
  Permutation (flat_map templates (c :: cs))
    (values (snd (process_entries min_level entries))) ->
  filter (is_high_signal min_level) entries <> [].
Proof.
  intros Hwf Hperm Hnone.
  destruct (process_entries_tracks min_level entries) as (_ & Hkeys & _).
  rewrite Hnone in Hkeys. unfold distinct in Hkeys. cbn [map fold_left] in Hkeys.
  destruct (snd (process_entries min_level entries)) as [| kv d]; [| discriminate].
  apply Permutation_sym, Permutation_nil in Hperm.
  inversion Hwf as [| ? ? [Hc _] _]; subst. cbn [flat_map] in Hperm.
  apply app_eq_nil in Hperm. destruct Hperm as [Hnil _]. contradiction.
Qed.

(** The ways [analyze] raises, when the vectorizer gives one label per
    text: the file cannot be read, parsing raises, or the summary of the
    service is asked for, there is a cluster to summarise and no key. *)
Lemma analyze_none (self : LogAnalyzer) (file : bytes) (filename : str) :
  min_samples_per_cluster (clusterer self) <> 0%Z ->
  one_label_per_text ->
  analyze self file filename = None ->
  read_log_file file filename = None \/
  exists lines,
    read_log_file file filename = Some lines /\
    (parse_lines_raises lines = true \/
     (parse_lines_raises lines = false /\
      use_llm self = true /\
      key_available (llm_api_key self) = false /\
      filter (is_high_signal (min_level self)) (parse_lines lines) <> [])).
Proof.
  intros Hmin Hlabels. unfold analyze.
  destruct (read_log_file file filename) as [lines |]; [| now left].
  intros H. right. exists lines. split; [reflexivity |].
  destruct (parse_lines_raises lines) eqn:Hraises; [now left |]. right.
  split; [reflexivity |].
  pose proof (clusters_need_entries (min_level self) (parse_lines lines)) as Hneed.
  destruct (process_entries (min_level self) (parse_lines lines)) as [es d].
  cbn [snd] in Hneed.
  destruct (cluster_templates_well_formed (clusterer self) d Hmin Hlabels)
    as (cs & Hcs & Hwf & Hperm).
  rewrite Hcs in H.
  destruct (use_llm self); [| discriminate].
  destruct cs as [| c cs]; [discriminate |].
  cbn [andb] in H. unfold generate_llm_summary in H.
  split; [reflexivity |]. split.
  - unfold key_available.
    destruct (or_str (llm_api_key self) GEMINI_API_KEY) as [[| k key] |];
      try reflexivity. discriminate.
  - exact (Hneed c cs Hwf Hperm).
Qed.

(** X25. When the vectorizer gives one label per text, the handler
    answers with status 500 in four cases only: the name of the upload
    ends in ".gz" and its content is not gzip data; parsing raises,
    which takes a line that starts with a brace on which [json.loads]
    raises something else than [json.JSONDecodeError]; the summary of
    the service is asked for, the log holds a high-signal entry and
    neither OPENAI_API_KEY nor GEMINI_API_KEY gives a key (the lookup of
    the undefined default key raises [NameError]); or the result of the
    analysis cannot be rendered.  Reading, normalizing and clustering a
    plain-text upload never fail. *)
Theorem analyze_log_server_error (filename : option str) (content : bytes)
  (max_clusters : Z) (use_llm : bool) (min_level : str) (pretty : bool) :
  one_label_per_text ->
  analyze_log filename content max_clusters use_llm min_level pretty = HTTPException 500 ->
  exists name,
    filename = Some name /\
    ((endswith name (lit ".gz") = true /\ gzip_text content = None) \/
     (exists lines line,
        read_log_file content name = Some lines /\
        parse_lines_raises lines = true /\
        In line lines /\
        startswith (strip line) (lit "{") = true /\
        json_loads (strip line) = OtherError) \/
     (use_llm = true /\
      key_available OPENAI_API_KEY = false /\
      exists lines,
        read_log_file content name = Some lines /\
        parse_lines_raises lines = false /\
        filter (is_high_signal (requested_level min_level)) (parse_lines lines) <> []) \/
     (exists r,
        analyze (new_LogAnalyzer max_clusters (requested_level min_level) use_llm
                   OPENAI_API_KEY) content name = Some r /\
        renders pretty r = false)).
Proof.
  intros Hlabels. unfold analyze_log.
  destruct filename as [[| c name] |]; try discriminate.
  cbv zeta.
  destruct (negb (existsb (fun ext => endswith (lower (c :: name)) (lit ext))
                    [".log"; ".txt"; ".gz"]%string)); [discriminate |].
  destruct (Z.ltb MAX_FILE_SIZE_BYTES (Z.of_nat (length content))); [discriminate |].
  destruct (Nat.eqb (length content) 0); [discriminate |].
  change (match from_string min_level with UNKNOWN => WARN | l => l end)
    with (requested_level min_level).
  set (self := new_LogAnalyzer max_clusters (requested_level min_level) use_llm
                 OPENAI_API_KEY).
  destruct (analyze self content (c :: name)) as [r |] eqn:Hanalyze.
  - destruct (renders pretty r) eqn:Hrender; [destruct pretty; discriminate |].
    intros _. exists (c :: name). split; [reflexivity |]. do 3 right.
    exists r. split; [exact Hanalyze | exact Hrender].
  - intros _. exists (c :: name). split; [reflexivity |].
    destruct (analyze_none self content (c :: name)
                (new_LogAnalyzer_min_samples _ _ _ _) Hlabels Hanalyze)
      as [Hread | (lines & Hread & [Hraises | (Hraises & Huse & Hkey & Hsome)])].
    + left. unfold read_log_file in Hread.
      destruct (endswith (c :: name) (lit ".gz")); [| discriminate].
      split; [reflexivity |]. unfold _read_gzip_file in Hread.
      destruct (gzip_text content); [discriminate | reflexivity].
    + right. left.
      destruct (parse_lines_raises_line lines Hraises) as (line & Hin & Hbrace & Hjson).
      exists lines, line.
      split; [exact Hread | split; [exact Hraises | split; [exact Hin |]]].
      split; [exact Hbrace | exact Hjson].
    + right. right. left. split; [exact Huse | split; [exact Hkey |]].
      exists lines. split; [exact Hread | split; [exact Hraises | exact Hsome]].
Qed.

(** X26. The handler accepts a name by its lower-cased extension, but
    [read_log_file] looks for ".gz" in the name as given: an upload
    whose name ends in ".gz" only after lower-casing (".GZ", say) is
    accepted and then read as plain text, never decompressed.  When
    parsing the lines of the content raises nothing, the summary of the
    service is not asked for or a key for it is at hand, and the
    vectorizer gives one label per text, the analysis gives a result,
    which is the answer if it can be rendered, and its [total_lines] is
    the number of entries parsed from the lines of the content itself. *)
Theorem analyze_log_upper_case_gz (name : str) (content : bytes)
  (max_clusters : Z) (use_llm : bool) (min_level : str) (pretty : bool) :
  one_label_per_text ->
  endswith (lower name) (lit ".gz") = true ->
  endswith name (lit ".gz") = false ->
  content <> [] ->
  (Z.of_nat (length content) <= MAX_FILE_SIZE_BYTES)%Z ->
  parse_lines_raises (_read_plain_file content) = false ->
  use_llm = false \/ key_available OPENAI_API_KEY = true ->
  exists r,
    analyze_log (Some name) content max_clusters use_llm min_level pretty =
      (if renders pretty r
       then (if pretty then PlainTextResponse r else JSONResponse r)
       else HTTPException 500) /\
    total_lines r = Z.of_nat (length (parse_lines (_read_plain_file content))).
Proof.
  intros Hlabels Hlower Hname Hcontent Hsize Hraises Hkey.
  assert (Hread : read_log_file content name = Some (_read_plain_file content))
    by (unfold read_log_file; now rewrite Hname).
  unfold analyze_log.
  destruct name as [| c name]; [unfold lower in Hlower; discriminate |].
  cbv zeta.
  assert (Hext : existsb (fun ext => endswith (lower (c :: name)) (lit ext))
                   [".log"; ".txt"; ".gz"]%string = true).
  { apply existsb_exists. exists ".gz"%string. split; [| exact Hlower].
    cbn [In]. do 2 right. now left. }
  rewrite Hext. cbn [negb].
  destruct (Z.ltb_spec MAX_FILE_SIZE_BYTES (Z.of_nat (length content))) as [Hbig | _];
    [lia |].
  destruct content as [| b content]; [contradiction |]. cbn [length Nat.eqb].
  set (self := new_LogAnalyzer max_clusters _ use_llm OPENAI_API_KEY).
  destruct (analyze_is_some self (b :: content) (c :: name) _
              (new_LogAnalyzer_min_samples _ _ _ _) Hlabels Hread Hraises Hkey) as (r & Hr).
  exists r. rewrite Hr. split; [reflexivity |].
  destruct (analyze_some self (b :: content) (c :: name) r Hr)
    as (lines & cs & summary & Hread' & _ & _ & ->).
  rewrite Hread in Hread'. injection Hread' as <-. reflexivity.
Qed.

(** ** Clustering: the number of clusters *)

Lemma label_append_keys (label : Z) (t : ErrorTemplate) (d : list (Z * list ErrorTemplate))
  (l : Z) :
  In l (map fst (label_append label t d)) -> l = label \/ In l (map fst d).
Proof.
  induction d as [| [l0 ts] d IH]; cbn [label_append map fst In].
  - intros [<- | []]. now left.
  - destruct (Z.eqb l0 label); cbn [map fst In].
    + intros H. now right.
    + intros [<- | H]; [right; now left |].
      destruct (IH H) as [-> | Hin]; [now left | right; now right].
Qed.

Lemma label_append_NoDup (label : Z) (t : ErrorTemplate) (d : list (Z * list ErrorTemplate)) :
  NoDup (map fst d) -> NoDup (map fst (label_append label t d)).
Proof.
  induction d as [| [l0 ts] d IH]; cbn [label_append map fst]; intros Hnd.
  - repeat constructor. intros [].
  - apply NoDup_cons_iff in Hnd. destruct Hnd as (Hnotin & Hrest).
    destruct (Z.eqb_spec l0 label) as [-> | Hne]; cbn [map fst].
    + now constructor.
    + constructor; [| now apply IH].
      intros Hin. apply label_append_keys in Hin.
      destruct Hin as [-> | Hin]; [now apply Hne | now apply Hnotin].
Qed.

Lemma group_by_label_keys (P : Z -> Prop) (templates : list ErrorTemplate)
  (labels : list Z) :
  forall i d d',
    group_by_label templates i labels d = Some d' ->
    NoDup (map fst d) -> Forall P (map fst d) -> Forall P labels ->
    NoDup (map fst d') /\ Forall P (map fst d').
Proof.
  induction labels as [| label labels IH]; cbn [group_by_label]; intros i d d' H Hnd Hd Hlabels.
  - injection H as <-. now split.
  - destruct (nth_error templates i) as [t |]; [| discriminate].
    inversion Hlabels as [| ? ? Hlabel Hrest]; subst.
    apply (IH _ _ _ H); [now apply label_append_NoDup | | exact Hrest].
    apply Forall_forall. intros l Hl. apply label_append_keys in Hl.
    destruct Hl as [-> | Hl]; [exact Hlabel |].
    rewrite Forall_forall in Hd. now apply Hd.
Qed.

Lemma bounded_NoDup_length (k : Z) (l : list Z) :
  (0 <= k)%Z -> NoDup l -> Forall (fun x => (0 <= x < k)%Z) l ->
  (Z.of_nat (length l) <= k)%Z.
Proof.
  intros Hk Hnd Hall.
  assert (Hincl : incl l (map Z.of_nat (seq 0 (Z.to_nat k)))).
  { intros x Hx. rewrite Forall_forall in Hall. specialize (Hall x Hx).
    apply in_map_iff. exists (Z.to_nat x). split; [lia |].
    apply in_seq. lia. }
  apply (NoDup_incl_length Hnd) in Hincl.
  rewrite length_map, length_seq in Hincl. lia.
Qed.

Lemma all_some_length {A : Type} (l : list (option A)) :
  forall ys, all_some l = Some ys -> length ys = length l.
Proof.
  induction l as [| [x |] l IH]; cbn [all_some]; intros ys H; try discriminate.
  - now injection H as <-.
  - destruct (all_some l) as [xs |]; [| discriminate].
    injection H as <-. cbn [length]. now rewrite (IH xs eq_refl).
Qed.

Lemma build_clusters_length (fn : list str) (ts : list ErrorTemplate) (labels : list Z)
  (mtx : Tfidf) (cs : list ErrorCluster) (k : Z) :
  (0 <= k)%Z ->
  Forall (fun l => (0 <= l < k)%Z) labels ->
  _build_clusters fn ts labels mtx = Some cs ->
  (Z.of_nat (length cs) <= k)%Z.
Proof.
  intros Hk Hlabels. unfold _build_clusters.
  destruct (group_by_label ts 0 labels []) as [d |] eqn:Hgroup; [| discriminate].
  destruct (all_some (map (make_cluster fn labels mtx) (sort_asc fst d))) as [made |] eqn:Hmade;
    [| discriminate].
  intros [= <-].
  destruct (group_by_label_keys (fun l => (0 <= l < k)%Z) ts labels 0 [] d Hgroup)
    as (Hnd & Hrange); [constructor | constructor | exact Hlabels |].
  rewrite renumber_length, (Permutation_length (sort_desc_perm total_count made)).
  rewrite (all_some_length _ _ Hmade), length_map.
  rewrite (Permutation_length (sort_asc_perm fst d)), <- (length_map fst d).
  now apply bounded_NoDup_length.
Qed.

Lemma single_cluster_length (ts : list ErrorTemplate) :
  length (_create_single_cluster ts) <= 1.
Proof. destruct ts; cbn [_create_single_cluster length]; lia. Qed.

(** X29. With a maximum of at least one cluster, and a [fit_predict]
    that labels rows with 0, ..., k - 1 when it is asked for [k]
    clusters, [cluster_templates] never returns more clusters than
    [max_clusters]. *)
Theorem cluster_templates_at_most_max (self : ErrorClusterer) (d : dict ErrorTemplate)
  (cs : list ErrorCluster) :
  (1 <= max_clusters self)%Z ->
  labels_in_range ->
  cluster_templates self d = Some cs ->
  (Z.of_nat (length cs) <= max_clusters self)%Z.
Proof.
  intros Hmax Hrange. unfold cluster_templates.
  assert (Hsingle : forall ts, Some (_create_single_cluster ts) = Some cs ->
                               (Z.of_nat (length cs) <= max_clusters self)%Z).
  { intros ts [= <-]. pose proof (single_cluster_length ts). lia. }
  destruct d as [| kv d]; [intros [= <-]; cbn [length]; lia |].
  set (ts := values (kv :: d)).
  destruct (Z.ltb (Z.of_nat (length ts)) (min_samples_per_cluster self)); [apply Hsingle |].
  destruct (fit_transform (max_features self) _) as [mtx |]; [| apply Hsingle].
  destruct (Z.eqb (min_samples_per_cluster self) 0); [discriminate |].
  set (k := Z.min (max_clusters self)
                  (Z.max 1 (Z.of_nat (length ts) / min_samples_per_cluster self))).
  destruct (Z.leb_spec k 1) as [_ | Hk]; [apply Hsingle |].
  intros Hbuild.
  apply (build_clusters_length _ _ _ _ _ k) in Hbuild; [| lia | apply Hrange; lia].
  unfold k in *. lia.
Qed.

(** ** The command-line tool: wrapping the summary *)

Lemma indent_eq : lit "  " = [SPACE; SPACE].
Proof. reflexivity. Qed.

Lemma blank_eq : lit " " = [SPACE].
Proof. reflexivity. Qed.

Lemma split_words_word (w : str) :
  no_space w = true ->
  forall cur,
    split_words cur w = match rev cur ++ w with [] => [] | x => [x] end.
Proof.
  unfold no_space. induction w as [| c w IH]; intros Hw cur.
  - cbn [split_words]. rewrite app_nil_r. destruct cur as [| x cur]; [reflexivity |].
    destruct (rev (x :: cur)) eqn:Hrev; [| reflexivity].
    apply (f_equal (@length char)) in Hrev. rewrite length_rev in Hrev. discriminate.
  - cbn [forallb] in Hw. apply andb_true_iff in Hw. destruct Hw as (Hc & Hw).
    apply negb_true_iff in Hc. cbn [split_words]. rewrite Hc, (IH Hw).
    cbn [rev]. rewrite <- app_assoc. reflexivity.
Qed.

Lemma split_word (w : str) : is_word_of_text w -> split_words [] w = [w].
Proof.
  intros (Hne & Hw). rewrite (split_words_word w Hw []). cbn [rev app].
  destruct w; [contradiction | reflexivity].
Qed.

Lemma split_indented_word (w : str) : is_word_of_text w -> str_split (lit "  " ++ w) = [w].
Proof.
  intros Hw. unfold str_split. rewrite indent_eq. cbn [app split_words].
  rewrite space_is_space. now apply split_word.
Qed.

Lemma split_words_then_word (a w : str) :
  is_word_of_text w ->
  forall cur, split_words cur (a ++ SPACE :: w) = split_words cur a ++ [w].
Proof.
  intros Hw. induction a as [| c a IH]; intros cur.
  - cbn [app split_words]. rewrite space_is_space, (split_word w Hw).
    destruct cur; reflexivity.
  - cbn [app split_words]. destruct (is_space c).
    + rewrite IH. destruct cur; reflexivity.
    + apply IH.
Qed.

Lemma split_words_are_words (s : str) :
  forall cur, no_space cur = true -> Forall is_word_of_text (split_words cur s).
Proof.
  induction s as [| c s IH]; intros cur Hcur; cbn [split_words].
  - destruct cur as [| x cur]; constructor; [| constructor]. split.
    + intros H. apply (f_equal (@length char)) in H. rewrite length_rev in H. discriminate.
    + unfold no_space in *. now rewrite forallb_reversed.
  - destruct (is_space c) eqn:Hc.
    + destruct cur as [| x cur]; [now apply IH |].
      constructor; [| now apply IH]. split.
      * intros H. apply (f_equal (@length char)) in H. rewrite length_rev in H.
        discriminate.
      * unfold no_space in *. now rewrite forallb_reversed.
    + apply IH. unfold no_space in *. cbn [forallb]. now rewrite Hc, Hcur.
Qed.

Lemma split_all_space (s : str) : forallb is_space s = true -> str_split s = [].
Proof.
  unfold str_split. induction s as [| c s IH]; cbn [forallb split_words]; [reflexivity |].
  intros H. apply andb_true_iff in H. destruct H as (-> & Hs). now apply IH.
Qed.

Lemma lstrip_nil_inv (s : str) : lstrip s = [] -> forallb is_space s = true.
Proof.
  induction s as [| c s IH]; cbn [lstrip forallb]; [reflexivity |].
  destruct (is_space c); [exact IH | discriminate].
Qed.

Lemma strip_nil_inv (s : str) : strip s = [] -> forallb is_space s = true.
Proof.
  unfold strip, rstrip. intros H.
  apply (f_equal (@rev char)) in H. rewrite rev_involutive in H. cbn [rev] in H.
  apply lstrip_nil_inv in H. rewrite forallb_reversed in H.
  destruct (lstrip s) as [| c rest] eqn:Hl; [now apply lstrip_nil_inv |].
  exfalso.
  assert (Hc : is_space c = false).
  { clear H. induction s as [| x s IH]; cbn [lstrip] in Hl; [discriminate |].
    destruct (is_space x) eqn:Hx; [now apply IH |].
    injection Hl as <- _. exact Hx. }
  cbn [forallb] in H. rewrite Hc in H. discriminate.
Qed.

Lemma startswith_nil (s : str) : startswith s [] = true.
Proof. destruct s; reflexivity. Qed.

Lemma startswith_indent (w : str) : startswith (lit "  " ++ w) (lit "  ") = true.
Proof.
  rewrite indent_eq. cbn [app startswith]. rewrite N.eqb_refl. cbn [andb].
  apply startswith_nil.
Qed.

Lemma startswith_app (s prefix rest : str) :
  startswith s prefix = true -> startswith (s ++ rest) prefix = true.
Proof.
  revert prefix. induction s as [| c s IH]; intros [| p prefix] H; cbn [app startswith] in *;
    try reflexivity; try discriminate.
  - apply startswith_nil.
  - apply andb_true_iff in H. destruct H as (-> & H). now apply IH.
Qed.

(** What the loop keeps true of its two variables after the words [ws]. *)
Lemma wrap_words_invariant (words : list str) :
  forall ws,
    incl ws words -> Forall is_word_of_text ws ->
    flat_map str_split (fst (fold_left wrap_word ws ([], lit "  "))) ++
      str_split (snd (fold_left wrap_word ws ([], lit "  "))) = ws /\
    Forall (wrapped_line words) (fst (fold_left wrap_word ws ([], lit "  "))) /\
    wrapped_line words (snd (fold_left wrap_word ws ([], lit "  "))).
Proof.
  induction ws as [| w ws IH] using rev_ind; intros Hincl Hwords.
  - cbn [fold_left fst snd flat_map app]. split; [reflexivity |].
    split; [constructor |]. split; [reflexivity | left; cbn; lia].
  - apply Forall_app in Hwords. destruct Hwords as (Hws & Hw).
    inversion Hw as [| ? ? Hword _]; subst.
    assert (Hin : In w words) by (apply Hincl, in_or_app; right; now left).
    destruct IH as (Hsplit & Hlines & Hcur);
      [intros x Hx; apply Hincl, in_or_app; now left | exact Hws |].
    rewrite fold_left_app. cbn [fold_left].
    destruct (fold_left wrap_word ws ([], lit "  ")) as [lines cur].
    cbn [fst snd] in *. unfold wrap_word.
    destruct (Nat.ltb_spec 68 (length cur + length w + 1)) as [Hlong | Hfits];
      cbn [fst snd].
    + split; [| split].
      * rewrite flat_map_app. cbn [flat_map]. rewrite app_nil_r.
        rewrite (split_indented_word w Hword), <- Hsplit.
        rewrite <- ?app_assoc. reflexivity.
      * apply Forall_app. split; [exact Hlines | now constructor].
      * split; [apply startswith_indent |]. right. exists w. now split.
    + destruct Hcur as (Hstart & _).
      destruct (str_eqb cur (lit "  ")) eqn:Heq; cbn [negb].
      * apply str_eqb_eq in Heq. subst cur. split; [| split].
        -- rewrite (split_all_space (lit "  ")), app_nil_r in Hsplit by reflexivity.
           rewrite (split_indented_word w Hword), <- Hsplit. reflexivity.
        -- exact Hlines.
        -- split; [apply startswith_indent |]. left.
           rewrite length_app in *. lia.
      * split; [| split].
        -- rewrite blank_eq. cbn [app]. unfold str_split in *.
           rewrite (split_words_then_word cur w Hword), <- Hsplit.
           rewrite <- ?app_assoc. reflexivity.
        -- exact Hlines.
        -- split; [now apply startswith_app |]. left.
           rewrite !length_app. rewrite blank_eq. cbn [length]. lia.
Qed.

(** X30. The command-line report wraps the summary without losing or
    reordering a word: the words of the wrapped lines, read line after
    line, are the words of the summary.  Every line starts with two
    blanks, and a line is longer than 68 characters only when it holds
    a single word of the summary. *)
Theorem wrap_summary_words (nl_summary : str) :
  flat_map str_split (wrap_summary nl_summary) = str_split nl_summary /\
  Forall (wrapped_line (str_split nl_summary)) (wrap_summary nl_summary).
Proof.
  unfold wrap_summary.
  destruct (wrap_words_invariant (str_split nl_summary) (str_split nl_summary))
    as (Hsplit & Hlines & Hcur);
    [apply incl_refl | apply split_words_are_words; reflexivity |].
  destruct (fold_left wrap_word (str_split nl_summary) ([], lit "  ")) as [lines cur].
  cbn [fst snd] in *.
  destruct (strip cur) as [| c rest] eqn:Hstrip.
  - split; [| exact Hlines].
    rewrite (split_all_space cur (strip_nil_inv cur Hstrip)), app_nil_r in Hsplit.
    exact Hsplit.
  - split.
    + rewrite flat_map_app. cbn [flat_map]. rewrite app_nil_r. exact Hsplit.
    + apply Forall_app. split; [exact Hlines | now constructor].
Qed.

End Pipeline.

(** * The theorems at concrete inputs *)

(** C1. Normalization is not idempotent: in "port  80" (two spaces) the
    look-behind of the port rule does not match; the whitespace pass then
    makes it "port 80", and a second normalization rewrites that to
    "port <PORT>".  This holds whatever the Unicode database says above
    ASCII. *)
Lemma normalize_message_not_idempotent :
  ~ (exists U : UnicodeData,
       normalize_message U (normalize_message U (lit "port  80")) =
       normalize_message U (lit "port  80")).
Proof.
  intros [U H].
  assert (Hfirst : normalize_message U (lit "port  80") = lit "port 80")
    by (vm_compute; reflexivity).
  assert (Hsecond : normalize_message U (lit "port 80") = lit "port <PORT>")
    by (vm_compute; reflexivity).
  rewrite Hfirst, Hsecond in H. vm_compute in H. discriminate H.
Qed.

(** C1 (amended), on a message with an address and a run of spaces: its
    normal form "Connection from <IP> refused" is settled. *)
Lemma normalize_message_idempotent_once_settled_witness :
  settled ascii_only
    (normalize_message ascii_only (lit "Connection from 192.168.1.100   refused")) = true /\
  normalize_message ascii_only
    (normalize_message ascii_only (lit "Connection from 192.168.1.100   refused")) =
  normalize_message ascii_only (lit "Connection from 192.168.1.100   refused").
Proof.
  split.
  - vm_compute. reflexivity.
  - apply (normalize_message_idempotent_once_settled ascii_only).
    vm_compute. reflexivity.
Defined.

Lemma rows_one_label_per_text :
  one_label_per_text (list str) rows_fit_transform rows_fit_predict.
Proof.
  intros mf texts mtx k b H. unfold rows_fit_transform in H.
  match type of H with (if ?c then _ else _) = _ => destruct c end;
    [discriminate |].
  injection H as <-. unfold rows_fit_predict.
  now rewrite length_map, length_seq.
Qed.

(** C4, on a map of four templates with the default clusterer: two
    clusters are asked for and the rows are labelled 0, 1, 0, 1. *)
Lemma cluster_templates_partition_witness :
  exists cs,
    cluster_templates ascii_only (list str) rows_fit_transform rows_feature_names
      rows_fit_predict rows_top_mean_features default_clusterer four_templates = Some cs /\
    Permutation (flat_map templates cs) (values four_templates) /\
    (NoDup (values four_templates) ->
     forall t, In t (values four_templates) ->
       exists i, member_of cs i t /\ forall j, member_of cs j t -> j = i).
Proof.
  apply (cluster_templates_partition ascii_only (list str) rows_fit_transform
           rows_feature_names rows_fit_predict rows_top_mean_features
           default_clusterer four_templates).
  - simpl. lia.
  - exact rows_one_label_per_text.
Defined.

(** C5, on the same map. *)
Lemma cluster_templates_ranked_witness :
  exists cs,
    cluster_templates ascii_only (list str) rows_fit_transform rows_feature_names
      rows_fit_predict rows_top_mean_features default_clusterer four_templates = Some cs /\
    descending (map total_count cs) /\
    map cluster_id cs = map Z.of_nat (seq 0 (length cs)) /\
    match cs with
    | [] => four_templates = []
    | c0 :: rest =>
        cluster_id c0 = 0%Z /\
        Forall (fun c => (total_count c <= total_count c0)%Z) rest
    end.
Proof.
  apply (cluster_templates_ranked ascii_only (list str) rows_fit_transform
           rows_feature_names rows_fit_predict rows_top_mean_features
           default_clusterer four_templates).
  - simpl. lia.
  - exact rows_one_label_per_text.
Defined.

(** C7, on a map of one template, fewer than the default minimum of 2:
    the keywords of its text "Single error" are "single" and "error". *)
Lemma cluster_templates_degenerate_witness :
  _extract_keywords_simple ascii_only (values one_template) = [lit "single"; lit "error"] /\
  (one_template = [] ->
   cluster_templates ascii_only (list str) rows_fit_transform rows_feature_names
     rows_fit_predict rows_top_mean_features default_clusterer one_template = Some []) /\
  (one_template <> [] ->
   exists c,
     cluster_templates ascii_only (list str) rows_fit_transform rows_feature_names
       rows_fit_predict rows_top_mean_features default_clusterer one_template = Some [c] /\
     cluster_id c = 0%Z /\
     templates c = values one_template /\
     total_count c = sum_counts (values one_template) /\
     keywords c = _extract_keywords_simple ascii_only (values one_template) /\
     keywords_by_frequency ascii_only (values one_template) (keywords c) /\
     forall ks, keywords_by_frequency ascii_only (values one_template) ks -> ks = keywords c).
Proof.
  split; [vm_compute; reflexivity |].
  apply (cluster_templates_degenerate ascii_only (list str) rows_fit_transform
           rows_feature_names rows_fit_predict rows_top_mean_features
           default_clusterer one_template).
  right. left. simpl. lia.
Defined.

(** C9, on two clusters that differ only in the stored original
    messages (and first lines) of their templates. *)
Lemma prepare_cluster_summary_for_llm_noninterference_witness :
  Forall2 same_statistics [cluster_with_messages] [cluster_with_other_messages] /\
  prepare_cluster_summary_for_llm [cluster_with_messages] =
  prepare_cluster_summary_for_llm [cluster_with_other_messages].
Proof.
  assert (H : Forall2 same_statistics [cluster_with_messages] [cluster_with_other_messages])
    by (repeat constructor).
  split; [exact H |].
  apply (prepare_cluster_summary_for_llm_noninterference _ _ H).
Defined.

(** The ASCII file of three lines, through [read_plain_file_ascii]. *)
Lemma read_plain_file_ascii_witness :
  forallb is_ascii blank_line_file = true /\
  _read_plain_file blank_line_file = spec_plain_lines blank_line_file.
Proof.
  split.
  - vm_compute. reflexivity.
  - apply (read_plain_file_ascii blank_line_file). vm_compute. reflexivity.
Defined.

(** The four templates labelled 0, 1, 0, 1, through
    [build_clusters_representative]. *)
Lemma build_clusters_representative_witness :
  exists cs,
    _build_clusters (list str) rows_top_mean_features [] (values four_templates)
      [0; 1; 0; 1]%Z [] = Some cs /\
    Forall represents_largest cs.
Proof.
  eexists. split.
  - vm_compute. reflexivity.
  - apply (build_clusters_representative (list str) rows_top_mean_features []
             (values four_templates) [0; 1; 0; 1]%Z []).
    vm_compute. reflexivity.
Defined.

(** X9, on the map of four templates with the default clusterer. *)
Lemma cluster_templates_totals_witness :
  exists cs,
    cluster_templates ascii_only (list str) rows_fit_transform rows_feature_names
      rows_fit_predict rows_top_mean_features default_clusterer four_templates = Some cs /\
    Forall well_formed_cluster cs /\
    sumZ (map total_count cs) = sum_counts (values four_templates) /\
    length cs <= length four_templates.
Proof.
  apply (cluster_templates_totals ascii_only (list str) rows_fit_transform
           rows_feature_names rows_fit_predict rows_top_mean_features
           default_clusterer four_templates).
  - simpl. lia.
  - exact rows_one_label_per_text.
Defined.

(** X11, on the two clusters that differ only in the stored original
    messages, with a service that echoes its prompt. *)
Lemma generate_llm_summary_noninterference_witness :
  Forall2 same_statistics [cluster_with_messages] [cluster_with_other_messages] /\
  full_prompt [cluster_with_messages] 12 3 = full_prompt [cluster_with_other_messages] 12 3 /\
  generate_llm_summary (Some (lit "key")) (fun _ prompt => Some prompt)
    [cluster_with_messages] 12 3 None =
  generate_llm_summary (Some (lit "key")) (fun _ prompt => Some prompt)
    [cluster_with_other_messages] 12 3 None.
Proof.
  assert (H : Forall2 same_statistics [cluster_with_messages] [cluster_with_other_messages])
    by (repeat constructor).
  split; [exact H |].
  apply (generate_llm_summary_noninterference (Some (lit "key")) (fun _ prompt => Some prompt)
           _ _ 12%Z 3%Z None H).
Defined.

(** X12, on a log of four lines read with the default analyzer. *)
Lemma analyze_level_counts_witness :
  exists r,
    read_log_file (fun _ => None) mixed_log (lit "app.log") = Some mixed_lines /\
    analyze ascii_only (fun _ => JSONDecodeError) (fun _ => []) (fun _ => [])
      (list str) rows_fit_transform rows_feature_names rows_fit_predict
      rows_top_mean_features unit (fun _ => None) None (fun _ _ => None) tt
      (new_LogAnalyzer 10 WARN false None) mixed_log (lit "app.log") = Some r /\
    total_lines unit r =
      Z.of_nat (length (parse_lines ascii_only (fun _ => JSONDecodeError) (fun _ => [])
                          (fun _ => []) mixed_lines)) /\
    error_lines unit r =
      count_if (fun e => LogLevel_eqb (level e) ERROR)
        (parse_lines ascii_only (fun _ => JSONDecodeError)
           (fun _ => []) (fun _ => []) mixed_lines) /\
    fatal_lines unit r =
      count_if (fun e => LogLevel_eqb (level e) FATAL)
        (parse_lines ascii_only (fun _ => JSONDecodeError)
           (fun _ => []) (fun _ => []) mixed_lines) /\
    exception_count unit r =
      count_if has_exception
        (parse_lines ascii_only (fun _ => JSONDecodeError)
           (fun _ => []) (fun _ => []) mixed_lines) /\
    ((LogLevel_value WARN <= LogLevel_value WARN)%Z ->
     warning_lines unit r =
       count_if (fun e => LogLevel_eqb (level e) WARN)
         (parse_lines ascii_only (fun _ => JSONDecodeError)
            (fun _ => []) (fun _ => []) mixed_lines)).
Proof.
  eexists.
  split; [vm_compute; reflexivity |].
  split; [vm_compute; reflexivity |].
  apply (analyze_level_counts ascii_only (fun _ => JSONDecodeError) (fun _ => []) (fun _ => [])
           (list str) rows_fit_transform rows_feature_names rows_fit_predict
           rows_top_mean_features unit (fun _ => None) None (fun _ _ => None) tt
           (new_LogAnalyzer 10 WARN false None) mixed_log (lit "app.log") mixed_lines).
  - vm_compute. reflexivity.
  - vm_compute. reflexivity.
Defined.

(** X13, on the same log. *)
Lemma analyze_returns_witness :
  exists r,
    analyze ascii_only (fun _ => JSONDecodeError) (fun _ => []) (fun _ => [])
      (list str) rows_fit_transform rows_feature_names rows_fit_predict
      rows_top_mean_features unit (fun _ => None) None (fun _ _ => None) tt
      (new_LogAnalyzer 10 WARN false None) mixed_log (lit "app.log") = Some r /\
    sumZ (map out_total_occurrences (clusters unit r)) =
      Z.of_nat (length (filter (is_high_signal ascii_only WARN)
                          (parse_lines ascii_only (fun _ => JSONDecodeError) (fun _ => [])
                             (fun _ => []) mixed_lines))) /\
    length (clusters unit r) <=
      length (distinct
                (map (fun e => normalize_message ascii_only (message e))
                   (filter (is_high_signal ascii_only WARN)
                      (parse_lines ascii_only (fun _ => JSONDecodeError) (fun _ => [])
                         (fun _ => []) mixed_lines)))).
Proof.
  apply (analyze_returns ascii_only (fun _ => JSONDecodeError) (fun _ => []) (fun _ => [])
           (list str) rows_fit_transform rows_feature_names rows_fit_predict
           rows_top_mean_features unit (fun _ => None) None (fun _ _ => None) tt
           (new_LogAnalyzer 10 WARN false None) mixed_log (lit "app.log") mixed_lines).
  - simpl. lia.
  - exact rows_one_label_per_text.
  - vm_compute. reflexivity.
  - vm_compute. reflexivity.
  - left. reflexivity.
Defined.

(** X16, on the five lines of the multiline example. *)
Lemma parse_lines_raw_lines_witness :
  forallb plain_line five_lines = true /\
  flat_map (fun e => pieces (raw_line e))
    (parse_lines ascii_only (fun _ => JSONDecodeError) (fun _ => []) (fun _ => []) five_lines) =
  filter nonblank five_lines.
Proof.
  split.
  - vm_compute. reflexivity.
  - apply (parse_lines_raw_lines ascii_only (fun _ => JSONDecodeError) (fun _ => []) (fun _ => [])
             five_lines).
    vm_compute. reflexivity.
Defined.

(** X17, on the line "Traceback (most recent call last):". *)
Lemma is_continuation_line_unindented_witness :
  is_space (ch "T") = false /\
  _is_continuation_line ascii_only (ch "T" :: lit "raceback (most recent call last):") =
  existsb (fun pattern =>
             matches ascii_only pattern
               (ch "T" :: lit "raceback (most recent call last):"))
    (skipn 5 (CONTINUATION_PATTERNS ascii_only)).
Proof.
  split.
  - reflexivity.
  - apply (is_continuation_line_unindented ascii_only (ch "T")
             (lit "raceback (most recent call last):")).
    reflexivity.
Defined.

(** X18, on a line of four blanks followed by a timestamp and a level. *)
Lemma is_continuation_line_indented_witness :
  (startswith (lit "    2024-01-15 10:30:45 ERROR again") [TAB] = true \/
   (4 <= length (lit "    2024-01-15 10:30:45 ERROR again") /\
    forallb is_space (firstn 4 (lit "    2024-01-15 10:30:45 ERROR again")) = true)) /\
  _is_continuation_line ascii_only (lit "    2024-01-15 10:30:45 ERROR again") = true.
Proof.
  assert (H : startswith (lit "    2024-01-15 10:30:45 ERROR again") [TAB] = true \/
              (4 <= length (lit "    2024-01-15 10:30:45 ERROR again") /\
               forallb is_space (firstn 4 (lit "    2024-01-15 10:30:45 ERROR again")) = true)).
  { right. split; [vm_compute; lia | vm_compute; reflexivity]. }
  split; [exact H |].
  apply (is_continuation_line_indented ascii_only
           (lit "    2024-01-15 10:30:45 ERROR again") H).
Defined.

(** X20, on a short file with a two-byte character and an invalid byte. *)
Lemma read_plain_file_one_chunk_witness :
  length short_file <= CHUNK_SIZE /\
  _read_plain_file short_file = spec_plain_lines short_file.
Proof.
  assert (H : length short_file <= CHUNK_SIZE)
    by (unfold CHUNK_SIZE; change (length short_file) with 6; lia).
  split; [exact H |].
  apply (read_plain_file_one_chunk short_file H).
Defined.

(** X21, on the file of three lines, the second one blank. *)
Lemma read_log_file_round_trip_witness :
  read_log_file (fun _ => None) blank_line_file (lit "app.log") =
    Some [lit "INFO started"; []; lit "INFO done"] /\
  Forall (fun l => no_newline l = true) [lit "INFO started"; []; lit "INFO done"] /\
  exists text,
    decoded_text (fun _ => None) blank_line_file (lit "app.log") = Some text /\
    (join [NL] [lit "INFO started"; []; lit "INFO done"] = text \/
     join [NL] [lit "INFO started"; []; lit "INFO done"] ++ [NL] = text).
Proof.
  assert (H : read_log_file (fun _ => None) blank_line_file (lit "app.log") =
              Some [lit "INFO started"; []; lit "INFO done"])
    by (vm_compute; reflexivity).
  split; [exact H |].
  apply (read_log_file_round_trip (fun _ => None) blank_line_file (lit "app.log") _ H).
Defined.

(** X24, on " Warn ". *)
Lemma from_string_case_and_space_witness :
  forallb is_ascii (lit " Warn ") = true /\
  from_string ascii_only (lower ascii_only (lit " Warn ")) =
    from_string ascii_only (lit " Warn ") /\
  from_string ascii_only (upper ascii_only (lit " Warn ")) =
    from_string ascii_only (lit " Warn ") /\
  from_string ascii_only (strip (lit " Warn ")) = from_string ascii_only (lit " Warn ").
Proof.
  split.
  - vm_compute. reflexivity.
  - apply (from_string_case_and_space ascii_only (lit " Warn ")).
    vm_compute. reflexivity.
Defined.

(** X25, on a plain-text upload for which the summary of the service
    is asked while the environment holds no key. *)
Lemma analyze_log_server_error_witness :
  analyze_log ascii_only (fun _ => JSONDecodeError) (fun _ => []) (fun _ => [])
    (list str) rows_fit_transform rows_feature_names rows_fit_predict
    rows_top_mean_features unit (fun _ => None) None (fun _ _ => None) tt
    100 None (fun _ _ => true) (Some (lit "app.log")) mixed_log 10 true (lit "warn") false =
    HTTPException unit 500 /\
  exists name,
    Some (lit "app.log") = Some name /\
    ((endswith name (lit ".gz") = true /\ (fun _ : bytes => @None str) mixed_log = None) \/
     (exists lines line,
        read_log_file (fun _ => None) mixed_log name = Some lines /\
        parse_lines_raises ascii_only (fun _ => JSONDecodeError) (fun _ => []) (fun _ => [])
          lines = true /\
        In line lines /\
        startswith (strip line) (lit "{") = true /\
        (fun _ : str => JSONDecodeError) (strip line) = OtherError) \/
     (true = true /\
      key_available None None = false /\
      exists lines,
        read_log_file (fun _ => None) mixed_log name = Some lines /\
        parse_lines_raises ascii_only (fun _ => JSONDecodeError) (fun _ => []) (fun _ => [])
          lines = false /\
        filter (is_high_signal ascii_only (requested_level ascii_only (lit "warn")))
          (parse_lines ascii_only (fun _ => JSONDecodeError) (fun _ => []) (fun _ => [])
             lines) <> []) \/
     (exists r,
        analyze ascii_only (fun _ => JSONDecodeError) (fun _ => []) (fun _ => [])
          (list str) rows_fit_transform rows_feature_names rows_fit_predict
          rows_top_mean_features unit (fun _ => None) None (fun _ _ => None) tt
          (new_LogAnalyzer 10 (requested_level ascii_only (lit "warn")) true None)
          mixed_log name = Some r /\
        (fun (_ : bool) (_ : AnalysisResult unit) => true) false r = false)).
Proof.
  assert (H : analyze_log ascii_only (fun _ => JSONDecodeError) (fun _ => []) (fun _ => [])
                (list str) rows_fit_transform rows_feature_names rows_fit_predict
                rows_top_mean_features unit (fun _ => None) None (fun _ _ => None) tt
                100 None (fun _ _ => true) (Some (lit "app.log")) mixed_log 10 true
                (lit "warn") false =
              HTTPException unit 500)
    by (vm_compute; reflexivity).
  split; [exact H |].
  apply (analyze_log_server_error ascii_only (fun _ => JSONDecodeError) (fun _ => [])
           (fun _ => [])
           (list str) rows_fit_transform rows_feature_names rows_fit_predict
           rows_top_mean_features unit (fun _ => None) None (fun _ _ => None) tt
           100 None (fun _ _ => true) (Some (lit "app.log")) mixed_log 10 true (lit "warn")
           false rows_one_label_per_text H).
Defined.

(** X26, on an upload named "APP.GZ". *)
Lemma analyze_log_upper_case_gz_witness :
  endswith (lower ascii_only (lit "APP.GZ")) (lit ".gz") = true /\
  endswith (lit "APP.GZ") (lit ".gz") = false /\
  exists r,
    analyze_log ascii_only (fun _ => JSONDecodeError) (fun _ => []) (fun _ => [])
      (list str) rows_fit_transform rows_feature_names rows_fit_predict
      rows_top_mean_features unit (fun _ => None) None (fun _ _ => None) tt
      100 None (fun _ _ => true) (Some (lit "APP.GZ")) mixed_log 10 false (lit "warn")
      false =
      JSONResponse unit r /\
    total_lines unit r =
      Z.of_nat (length (parse_lines ascii_only (fun _ => JSONDecodeError)
                          (fun _ => []) (fun _ => [])
                          (_read_plain_file mixed_log))).
Proof.
  assert (Hlower : endswith (lower ascii_only (lit "APP.GZ")) (lit ".gz") = true)
    by (vm_compute; reflexivity).
  assert (Hname : endswith (lit "APP.GZ") (lit ".gz") = false)
    by (vm_compute; reflexivity).
  split; [exact Hlower |]. split; [exact Hname |].
  apply (analyze_log_upper_case_gz ascii_only (fun _ => JSONDecodeError) (fun _ => []) (fun _ => [])
           (list str) rows_fit_transform rows_feature_names rows_fit_predict
           rows_top_mean_features unit (fun _ => None) None (fun _ _ => None) tt
           100 None (fun _ _ => true) (lit "APP.GZ") mixed_log 10 false (lit "warn") false
           rows_one_label_per_text Hlower Hname).
  - discriminate.
  - apply Z.leb_le. vm_compute. reflexivity.
  - vm_compute. reflexivity.
  - left. reflexivity.
Defined.

(** X28, on an entry with the message "disk failed" and a bound of 4. *)
Lemma extract_error_context_bound_witness :
  (0 <= 4)%Z /\
  extract_error_context (plain_entry (lit "ERROR disk failed") 1 ERROR (lit "disk failed")
                           None false) 4 = lit "disk..." /\
  (Z.of_nat (length (extract_error_context
                       (plain_entry (lit "ERROR disk failed") 1 ERROR (lit "disk failed")
                          None false) 4)) <= 4 + 3)%Z.
Proof.
  assert (H : (0 <= 4)%Z) by lia.
  split; [exact H |]. split; [vm_compute; reflexivity |].
  apply (extract_error_context_bound
           (plain_entry (lit "ERROR disk failed") 1 ERROR (lit "disk failed") None false)
           4 H).
Defined.

Lemma rows_labels_in_range : labels_in_range (list str) rows_fit_predict.
Proof.
  intros k b rows Hk. unfold rows_fit_predict.
  apply Forall_forall. intros l Hl. apply in_map_iff in Hl.
  destruct Hl as (i & <- & _). apply Z.mod_pos_bound. exact Hk.
Qed.

(** X29, on the map of four templates with the default clusterer. *)
Lemma cluster_templates_at_most_max_witness :
  exists cs,
    cluster_templates ascii_only (list str) rows_fit_transform rows_feature_names
      rows_fit_predict rows_top_mean_features default_clusterer four_templates = Some cs /\
    (Z.of_nat (length cs) <= max_clusters default_clusterer)%Z.
Proof.
  eexists. split; [vm_compute; reflexivity |].
  apply (cluster_templates_at_most_max ascii_only (list str) rows_fit_transform
           rows_feature_names rows_fit_predict rows_top_mean_features
           default_clusterer four_templates).
  - simpl. lia.
  - exact rows_labels_in_range.
  - vm_compute. reflexivity.
Defined.
